(** * Aurelia: property binding, collection-length observer, signaler,
    router utilities

    A shallow embedding of

    - [PropertyBinding] (runtime, [binding/property-binding.js]):
      the constructor, [updateTarget], [updateSource], [handleChange],
      [$bind], [$unbind];
    - [CollectionLengthObserver]
      ([observation/collection-length-observer.js]): the constructor,
      [getValue], [setValue];
    - [Signaler] ([observation/signaler.js]): [dispatchSignal],
      [addSignalListener], [removeSignalListener];
    - [runSequence], [resolveAll], [mergeDistinct]
      ([packages/router/src/util.ts]).

    JavaScript objects that are mutated in place (the binding, the observers
    it subscribes to, the properties it reads and writes) live in one explicit
    store, the [World]; every method is a function on that store that may
    return normally or throw. *)

From Stdlib Require Import ZArith List Bool Lia String.
From stdpp Require Import base option list strings gmap.

Import ListNotations.
Local Open Scope Z_scope.

(** ** JavaScript values and strict equality *)

(** The values a binding moves around.  Numbers are kept exact; the one
    number that matters for [===] besides the ordinary ones is [NaN], which is
    unequal to itself.  Objects are compared by reference. *)
Inductive value : Type :=
| VUndefined
| VNull
| VBool (b : bool)
| VNumber (z : Z)
| VNaN
| VString (s : string)
| VObject (ref : nat).

(** [a === b] *)
Definition strict_eq (a b : value) : bool :=
  match a, b with
  | VUndefined, VUndefined => true
  | VNull, VNull => true
  | VBool x, VBool y => Bool.eqb x y
  | VNumber x, VNumber y => Z.eqb x y
  | VString x, VString y => String.eqb x y
  | VObject x, VObject y => Nat.eqb x y
  | _, _ => false
  end.

(** [a !== b] *)
Definition strict_neq (a b : value) : bool := negb (strict_eq a b).

(** ** 32-bit integer operators

    [|], [&] and [~] convert their operands with ToInt32 and work on the
    two's-complement representation. *)
Definition ToInt32 (z : Z) : Z :=
  let m := z mod 2 ^ 32 in
  if m <? 2 ^ 31 then m else m - 2 ^ 32.

Definition bor (a b : Z) : Z := Z.lor (ToInt32 a) (ToInt32 b).
Definition band (a b : Z) : Z := Z.land (ToInt32 a) (ToInt32 b).
Definition bnot (a : Z) : Z := Z.lnot (ToInt32 a).

(** Truthiness of a number: everything but [0] (and [NaN], which an integer
    is not). *)
Definition truthy (z : Z) : bool := negb (z =? 0).

(** ** Router: [resolveAll] *)
Module Router.

(** An element of the input array: either a [Promise] instance (an object,
    known by its reference) or any other value. *)
Inductive MaybePromise : Type :=
| NotPromise (v : value)
| PromiseRef (p : nat).

(** What [resolveAll] hands back: nothing, one of the promises it was given,
    or the promise made by [Promise.all] from an array of promises. *)
Inductive Resolved : Type :=
| RUndefined
| RPromise (p : nat)
| RPromiseAll (ps : list nat).

(** The loop [for (const maybePromise of maybePromises)]: pushes every
    element that is an [instanceof Promise] onto [promises]. *)
Fixpoint collect (maybePromises : list MaybePromise) (promises : list nat)
  : list nat :=
  match maybePromises with
  | [] => promises
  | NotPromise _ :: rest => collect rest promises
  | PromiseRef p :: rest => collect rest (promises ++ [p])
  end.

Definition resolveAll (maybePromises : list MaybePromise) : Resolved :=
  let promises := collect maybePromises [] in
  match promises with
  | [] => RUndefined
  | [p] => RPromise p
  | _ => RPromiseAll promises
  end.

(** The promise elements of an array, in order (used to state what
    [resolveAll] computes). *)
Definition promisesOf (l : list MaybePromise) : list nat :=
  flat_map (fun m => match m with PromiseRef p => [p] | NotPromise _ => [] end) l.

Definition isPromise (m : MaybePromise) : bool :=
  match m with PromiseRef _ => true | NotPromise _ => false end.

(** *** [mergeDistinct]

    A route node, as far as [mergeDistinct] looks at it: the node object
    itself and the viewport agent [context.vpa] of its context, both known
    by reference.  ([RouteNode] comes from [./route-tree], which is not among
    the sources; [mergeDistinct] reads nothing of a node but
    [context.vpa].) *)
Record RouteNode : Type := {
  node_ref : nat;
  context_vpa : nat
}.

(** [l.findIndex(f)], counting from [i]: the index of the first element that
    passes [f], or [-1]. *)
Fixpoint findIndexFrom (i : Z) (f : RouteNode -> bool) (l : list RouteNode) : Z :=
  match l with
  | [] => -1
  | n :: rest => if f n then i else findIndexFrom (i + 1) f rest
  end.

Definition findIndex (f : RouteNode -> bool) (l : list RouteNode) : Z :=
  findIndexFrom 0 f l.

(** The loop [while (prev.length > 0)] with what follows it; the three
    arrays are the copies of [prev] and [next] and [merged].
    [next.splice(0, i + 1)] takes the first [i + 1] elements out of [next]
    and returns them. *)
Fixpoint mergeLoop (prev next merged : list RouteNode) : list RouteNode :=
  match prev with
  | [] => merged ++ next
  | p :: prev =>
      if forallb (fun m => negb (context_vpa m =? context_vpa p)%nat) merged then
        let i := findIndex (fun n => (context_vpa n =? context_vpa p)%nat) next in
        if i >=? 0 then
          mergeLoop prev (drop (Z.to_nat (i + 1)) next)
                    (merged ++ take (Z.to_nat (i + 1)) next)
        else mergeLoop prev next (merged ++ [p])
      else mergeLoop prev next merged
  end.

Definition mergeDistinct (prev next : list RouteNode) : list RouteNode :=
  mergeLoop prev next [].

(** *** [runSequence]

    What a call [nextCall(abort, prevResult)] does, as far as [runSequence]
    can tell: whether it called [abort()] while it ran, and what it
    returned.  Calls that throw, and calls that keep [abort] to call it
    later, are not modelled. *)
Record CallResult : Type := {
  aborts : bool;
  returns : MaybePromise
}.

Definition Call : Type := value -> CallResult.

(** What [runSequence] hands back: the value a call returned (a promise or
    not); or [nextValue.then(runNext)], the promise chained on a promise a
    call returned, with what [runNext] does with the value that promise
    resolves to; or the [TypeError] of calling [calls.shift()] on an empty
    array. *)
Inductive Sequenced : Type :=
| Returned (m : MaybePromise)
| Chained (p : nat) (onResolved : value -> Sequenced)
| ThrewTypeError.

(** [runNext(prevResult)], with the variable [aborted] and the array
    [calls] it shares with [abort] and with its later runs. *)
Fixpoint runNext (aborted : bool) (calls : list Call) (prevResult : value)
  : Sequenced :=
  if aborted then Returned (NotPromise prevResult)
  else
    match calls with
    | [] => ThrewTypeError
    | nextCall :: calls =>
        let r := nextCall prevResult in
        match calls with
        | [] => Returned (returns r)
        | _ :: _ =>
            match returns r with
            | PromiseRef p => Chained p (fun v => runNext (aborts r) calls v)
            | NotPromise v => runNext (aborts r) calls v
            end
        end
    end.

Definition runSequence (calls : list Call) : Sequenced :=
  runNext false calls VUndefined.

End Router.

(** ** [CollectionLengthObserver] *)
Module CollectionLengthObserver.

(** A call [this.callSubscribers(newValue, previousValue, flags)]. *)
Record Notification : Type := {
  n_newValue : value;
  n_previousValue : value;
  n_flags : Z
}.

(** The observer: the length of the observed array ([obj.length]) and the
    value it last stored. *)
Record t : Type := {
  obj_length : value;
  currentValue : value
}.

(** [constructor(obj)] *)
Definition new (length : value) : t :=
  {| obj_length := length; currentValue := length |}.

Definition getValue (this : t) : value := obj_length this.

(** [setValue(newValue, flags)].  Returns the observer after the call and
    the calls of [callSubscribers] it made. *)
Definition setValue (newValue : value) (flags : Z) (this : t)
  : t * list Notification :=
  let currentValue0 := currentValue this in
  if strict_neq newValue currentValue0 then
    ({| obj_length := obj_length this; currentValue := newValue |},
     [ {| n_newValue := newValue;
          n_previousValue := currentValue0;
          n_flags := bor flags 16 (* updateTargetInstance *) |} ])
  else (this, []).

End CollectionLengthObserver.

(** ** [PropertyBinding] *)

(** *** The objects a binding works with *)

(** A scope is an object; two scopes are the same scope when they are the
    same object. *)
Definition Scope : Type := nat.

(** The state of the view models: the current value of every observable
    property, keyed by the observer that the locator hands out for that
    (object, property) pair. *)
Abbreviation Heap := (gmap nat value).

(** The source expression, as far as the binding uses it: [$kind], whether
    it has [bind] / [unbind] methods (the tests [hasBind] and [hasUnbind]),
    [evaluate(flags, scope, locator, part)], [assign(flags, scope, locator,
    value, part)], and the observers that [connect(flags, scope, binding,
    part)] registers with the binding, in the order of the calls.  The
    locator argument is fixed per binding and left out. *)
Record Expression : Type := {
  kind : Z;
  hasBind : bool;
  hasUnbind : bool;
  evaluate : Z -> option Scope -> option string -> Heap -> value;
  dependencies : Z -> option Scope -> option string -> Heap -> list nat;
  assign : Z -> option Scope -> option string -> value -> Heap -> Heap
}.

(** [observerLocator.getObserver(flags, obj, propertyName)] and
    [getAccessor(flags, obj, propertyName)]: the observer of a property. *)
Record ObserverLocator : Type := {
  getObserver : Z -> nat -> string -> nat;
  getAccessor : Z -> nat -> string -> nat
}.

(** Modelled from the spec: the observer classes and the subscriber
    collection (observation/subscriber-collection) are not among the
    sources.  "An Observer watches a specific object property and notifies
    subscribers on change": an observer keeps the list of its subscribers
    (bindings, by id) and, per subscriber id, the flags the binding stores on
    it ([observer[this.id]]).  Which optional methods the object has is what
    the binding tests for ([targetObserver.bind], [.unbind],
    [.unsubscribe]); an accessor has no [subscribe] / [unsubscribe]. *)
Record Observer : Type := {
  subscribers : list nat;
  idFlags : gmap nat Z;
  has_bind : bool;
  has_unbind : bool;
  has_subscribe : bool;
  has_unsubscribe : bool
}.

(** The observer the locator creates for a property nobody observed yet. *)
Definition newObserver : Observer :=
  {| subscribers := []; idFlags := ∅;
     has_bind := false; has_unbind := false;
     has_subscribe := true; has_unsubscribe := true |}.

(** The fields of a [PropertyBinding].  [version] and [slots] are the fields
    the [connectable] mixin keeps on the binding: a counter, and the
    observers the binding is subscribed to on behalf of the source
    expression, each with the version at which the expression last used
    it. *)
Record Binding : Type := {
  id : nat;
  sourceExpression : Expression;
  target : nat;
  targetProperty : string;
  mode : Z;
  observerLocator : ObserverLocator;
  state : Z;                      (* $state *)
  scope : option Scope;           (* $scope *)
  part : option string;
  targetObserver : option nat;
  persistentFlags : Z;
  version : Z;
  slots : list (nat * Z)
}.

(** What the binding calls on its collaborators, in order. *)
Inductive Event : Type :=
| InterceptorUpdateTarget (v : value) (flags : Z)
| InterceptorUpdateSource (v : value) (flags : Z)
| InterceptorUnbind (flags : Z)
| InterceptorUnobserve (all : bool)
| ExprEvaluate (flags : Z) (sc : option Scope) (part : option string)
| ExprConnect (flags : Z) (sc : option Scope) (part : option string)
| ExprAssign (flags : Z) (sc : option Scope) (v : value) (part : option string)
| ExprBind (flags : Z) (sc : Scope)
| ExprUnbind (flags : Z) (sc : option Scope)
| LocatorGetObserver (flags : Z)
| LocatorGetAccessor (flags : Z)
| TargetSetValue (o : nat) (v : value) (flags : Z)
| TargetBind (o : nat) (flags : Z)
| TargetUnbind (o : nat) (flags : Z)
| TargetSubscribe (o : nat)
| TargetUnsubscribe (o : nat).

Record World : Type := {
  heap : Heap;
  observers : gmap nat Observer;
  this : Binding;
  trace : list Event
}.

Inductive Error : Type :=
| TypeError
| ReporterError (code : Z) (flags : Z).

Inductive Outcome (A : Type) : Type :=
| Return (a : A)
| Throw (e : Error).
Arguments Return {A} a.
Arguments Throw {A} e.

(** A method: runs on the world, returns or throws, and leaves the world as
    it was at that point. *)
Definition M (A : Type) : Type := World -> Outcome A * World.

Definition ret {A : Type} (a : A) : M A := fun w => (Return a, w).
Definition throw {A : Type} (e : Error) : M A := fun w => (Throw e, w).
Definition andThen {A B : Type} (m : M A) (k : A -> M B) : M B :=
  fun w =>
    match m w with
    | (Return a, w') => k a w'
    | (Throw e, w') => (Throw e, w')
    end.

Declare Scope js_scope.
Delimit Scope js_scope with js.
Notation "'let*' x ':=' m 'in' k" := (andThen m (fun x => k))
  (at level 10, x name, m at level 100, k at level 200) : js_scope.
Notation "m ';;;' k" := (andThen m (fun _ => k))
  (at level 100, k at level 200, right associativity) : js_scope.
Local Open Scope js_scope.

Fixpoint forEach {A : Type} (f : A -> M unit) (l : list A) : M unit :=
  match l with
  | [] => ret tt
  | x :: rest => f x ;;; forEach f rest
  end.

(** *** Reading and writing the store *)

Definition set_state (z : Z) (b : Binding) : Binding :=
  {| id := id b; sourceExpression := sourceExpression b; target := target b;
     targetProperty := targetProperty b; mode := mode b;
     observerLocator := observerLocator b; state := z; scope := scope b;
     part := part b; targetObserver := targetObserver b;
     persistentFlags := persistentFlags b; version := version b;
     slots := slots b |}.
Definition set_scope (s : option Scope) (b : Binding) : Binding :=
  {| id := id b; sourceExpression := sourceExpression b; target := target b;
     targetProperty := targetProperty b; mode := mode b;
     observerLocator := observerLocator b; state := state b; scope := s;
     part := part b; targetObserver := targetObserver b;
     persistentFlags := persistentFlags b; version := version b;
     slots := slots b |}.
Definition set_part (p : option string) (b : Binding) : Binding :=
  {| id := id b; sourceExpression := sourceExpression b; target := target b;
     targetProperty := targetProperty b; mode := mode b;
     observerLocator := observerLocator b; state := state b; scope := scope b;
     part := p; targetObserver := targetObserver b;
     persistentFlags := persistentFlags b; version := version b;
     slots := slots b |}.
Definition set_targetObserver (o : option nat) (b : Binding) : Binding :=
  {| id := id b; sourceExpression := sourceExpression b; target := target b;
     targetProperty := targetProperty b; mode := mode b;
     observerLocator := observerLocator b; state := state b; scope := scope b;
     part := part b; targetObserver := o;
     persistentFlags := persistentFlags b; version := version b;
     slots := slots b |}.
Definition set_persistentFlags (z : Z) (b : Binding) : Binding :=
  {| id := id b; sourceExpression := sourceExpression b; target := target b;
     targetProperty := targetProperty b; mode := mode b;
     observerLocator := observerLocator b; state := state b; scope := scope b;
     part := part b; targetObserver := targetObserver b;
     persistentFlags := z; version := version b;
     slots := slots b |}.
Definition set_version (z : Z) (b : Binding) : Binding :=
  {| id := id b; sourceExpression := sourceExpression b; target := target b;
     targetProperty := targetProperty b; mode := mode b;
     observerLocator := observerLocator b; state := state b; scope := scope b;
     part := part b; targetObserver := targetObserver b;
     persistentFlags := persistentFlags b; version := z;
     slots := slots b |}.
Definition set_slots (l : list (nat * Z)) (b : Binding) : Binding :=
  {| id := id b; sourceExpression := sourceExpression b; target := target b;
     targetProperty := targetProperty b; mode := mode b;
     observerLocator := observerLocator b; state := state b; scope := scope b;
     part := part b; targetObserver := targetObserver b;
     persistentFlags := persistentFlags b; version := version b;
     slots := l |}.

Definition with_this (f : Binding -> Binding) (w : World) : World :=
  {| heap := heap w; observers := observers w; this := f (this w);
     trace := trace w |}.
Definition with_heap (f : Heap -> Heap) (w : World) : World :=
  {| heap := f (heap w); observers := observers w; this := this w;
     trace := trace w |}.
Definition with_event (e : Event) (w : World) : World :=
  {| heap := heap w; observers := observers w; this := this w;
     trace := trace w ++ [e] |}.

Definition getThis : M Binding := fun w => (Return (this w), w).
Definition getHeap : M Heap := fun w => (Return (heap w), w).
Definition modifyThis (f : Binding -> Binding) : M unit :=
  fun w => (Return tt, with_this f w).
Definition modifyHeap (f : Heap -> Heap) : M unit :=
  fun w => (Return tt, with_heap f w).
Definition log (e : Event) : M unit :=
  fun w => (Return tt, with_event e w).

(** The observer object behind a reference. *)
Definition observerAt (w : World) (o : nat) : Observer :=
  default newObserver (observers w !! o).
Definition getObserverAt (o : nat) : M Observer :=
  fun w => (Return (observerAt w o), w).
Definition with_observer (o : nat) (f : Observer -> Observer) (w : World)
  : World :=
  {| heap := heap w;
     observers := <[o := f (observerAt w o)]> (observers w);
     this := this w; trace := trace w |}.
Definition modifyObserver (o : nat) (f : Observer -> Observer) : M unit :=
  fun w => (Return tt, with_observer o f w).

Definition set_subscribers (l : list nat) (ob : Observer) : Observer :=
  {| subscribers := l; idFlags := idFlags ob; has_bind := has_bind ob;
     has_unbind := has_unbind ob; has_subscribe := has_subscribe ob;
     has_unsubscribe := has_unsubscribe ob |}.
Definition set_idFlags (m : gmap nat Z) (ob : Observer) : Observer :=
  {| subscribers := subscribers ob; idFlags := m; has_bind := has_bind ob;
     has_unbind := has_unbind ob; has_subscribe := has_subscribe ob;
     has_unsubscribe := has_unsubscribe ob |}.

(** [observer[id]], where a missing entry reads as [undefined], which the
    bit operators take for [0]. *)
Definition idFlag (ob : Observer) (i : nat) : Z := default 0 (idFlags ob !! i).

(** [observer[id] |= bits] *)
Definition orIdFlag (o i : nat) (bits : Z) : M unit :=
  modifyObserver o (fun ob => set_idFlags (<[i := bor (idFlag ob i) bits]> (idFlags ob)) ob).
(** [observer[id] &= ~bits] *)
Definition clearIdFlag (o i : nat) (bits : Z) : M unit :=
  modifyObserver o (fun ob => set_idFlags (<[i := band (idFlag ob i) (bnot bits)]> (idFlags ob)) ob).

(** Modelled from the spec: [subscribe] and [unsubscribe] of the subscriber
    collection, which is not among the sources.  A subscriber is in the
    collection at most once; calling either method on an object that does not
    have it is a [TypeError]. *)
Definition subscribe (o i : nat) : M unit :=
  let* ob := getObserverAt o in
  if has_subscribe ob then
    modifyObserver o (fun ob =>
      if bool_decide (i ∈ subscribers ob) then ob
      else set_subscribers (subscribers ob ++ [i]) ob)
  else throw TypeError.

Definition unsubscribe (o i : nat) : M unit :=
  let* ob := getObserverAt o in
  if has_unsubscribe ob then
    modifyObserver o (fun ob =>
      set_subscribers (filter (fun j => j ≠ i) (subscribers ob)) ob)
  else throw TypeError.

(** *** The [connectable] mixin *)

(** Modelled from the spec: the [connectable] mixin (binding/connectable),
    which gives the binding [addObserver] / [observeProperty], [unobserve],
    [version] and [observerSlots], is not among the sources.  "Connecting a
    source expression must reflect exactly the current dependency set (stale
    subscriptions from prior evaluations must be dropped each cycle)": the
    binding keeps one slot per observer it subscribed to for its source
    expression, stamped with the version at which the expression last used
    it; [unobserve(false)] releases the slots whose stamp is not the current
    version, [unobserve(true)] releases all of them. *)
Definition stamp (o : nat) (v : Z) (l : list (nat * Z)) : list (nat * Z) :=
  map (fun s => if Nat.eqb (fst s) o then (o, v) else s) l.

(** [addObserver(observer)], which [connect] reaches through
    [observeProperty] once per dependency. *)
Definition addObserver (o : nat) : M unit :=
  let* b := getThis in
  if bool_decide (o ∈ map fst (slots b)) then
    modifyThis (set_slots (stamp o (version b) (slots b)))
  else
    modifyThis (set_slots (slots b ++ [(o, version b)])) ;;;
    subscribe o (id b) ;;;
    orIdFlag o (id b) 16 (* updateTargetInstance *).

Definition isStale (all : bool) (v : Z) (s : nat * Z) : bool :=
  all || negb (snd s =? v).

(** [unobserve(all)] *)
Definition unobserve (all : bool) : M unit :=
  let* b := getThis in
  let stale := List.filter (isStale all (version b)) (slots b) in
  modifyThis (set_slots (List.filter (fun s => negb (isStale all (version b) s)) (slots b))) ;;;
  forEach (fun s => unsubscribe (fst s) (id b) ;;;
                    clearIdFlag (fst s) (id b) 16 (* updateTargetInstance *))
          stale.

(** [this.observerSlots]: the number of slots. *)
Definition observerSlots (b : Binding) : Z := Z.of_nat (length (slots b)).

(** *** Calls on the source expression and on the target observer *)

(** [sourceExpression.evaluate(flags, scope, this.locator, part)] *)
Definition expr_evaluate (e : Expression) (flags : Z) (sc : option Scope)
    (p : option string) : M value :=
  log (ExprEvaluate flags sc p) ;;;
  let* h := getHeap in
  ret (evaluate e flags sc p h).

(** [sourceExpression.connect(flags, scope, this.interceptor, part)] *)
Definition expr_connect (e : Expression) (flags : Z) (sc : option Scope)
    (p : option string) : M unit :=
  log (ExprConnect flags sc p) ;;;
  let* h := getHeap in
  forEach addObserver (dependencies e flags sc p h).

(** [sourceExpression.assign(flags, scope, this.locator, value, part)] *)
Definition expr_assign (e : Expression) (flags : Z) (sc : option Scope)
    (v : value) (p : option string) : M unit :=
  log (ExprAssign flags sc v p) ;;;
  modifyHeap (assign e flags sc p v).

(** [this.targetObserver], on which a method is about to be called: reading a
    property of [undefined] is a [TypeError]. *)
Definition theTargetObserver : M nat :=
  let* b := getThis in
  match targetObserver b with
  | Some o => ret o
  | None => throw TypeError
  end.

(** Modelled from the spec: the observer classes are not among the sources.
    "An Observer watches a specific object property": [getValue()] reads
    the property and [setValue(value, flags)] writes it. *)
Definition target_getValue (o : nat) : M value :=
  let* h := getHeap in
  ret (default VUndefined (h !! o)).

(** [targetObserver.setValue(value, flags)] *)
Definition target_setValue (o : nat) (v : value) (flags : Z) : M unit :=
  log (TargetSetValue o v flags) ;;;
  modifyHeap (insert o v).

(** [targetObserver.subscribe(this.interceptor)] *)
Definition target_subscribe (o : nat) : M unit :=
  log (TargetSubscribe o) ;;;
  let* b := getThis in
  subscribe o (id b).

(** [targetObserver.unsubscribe(this.interceptor)] *)
Definition target_unsubscribe (o : nat) : M unit :=
  log (TargetUnsubscribe o) ;;;
  let* b := getThis in
  unsubscribe o (id b).

(** *** The methods of [PropertyBinding] *)

(** [constructor(sourceExpression, target, targetProperty, mode,
    observerLocator, locator)]; [i] is the id that [connectable.assignIdTo]
    gives the binding. *)
Definition new (i : nat) (e : Expression) (tgt : nat) (prop : string)
    (m : Z) (loc : ObserverLocator) : Binding :=
  {| id := i; sourceExpression := e; target := tgt; targetProperty := prop;
     mode := m; observerLocator := loc;
     state := 0 (* none *); scope := None; part := None;
     targetObserver := None; persistentFlags := 0 (* none *);
     version := 0; slots := [] |}.

(** [updateTarget(value, flags)] *)
Definition updateTarget (v : value) (flags : Z) : M unit :=
  let* b := getThis in
  let flags := bor flags (persistentFlags b) in
  let* o := theTargetObserver in
  target_setValue o v flags.

(** [updateSource(value, flags)] *)
Definition updateSource (v : value) (flags : Z) : M unit :=
  let* b := getThis in
  let flags := bor flags (persistentFlags b) in
  expr_assign (sourceExpression b) flags (scope b) v (part b).

(** [this.interceptor] is the binding itself, as the constructor sets it;
    the interceptors that binding behaviours put in its place are not
    modelled.  A call through [this.interceptor] is recorded and runs the
    binding's own method. *)
Definition interceptor_updateTarget (v : value) (flags : Z) : M unit :=
  log (InterceptorUpdateTarget v flags) ;;; updateTarget v flags.
Definition interceptor_updateSource (v : value) (flags : Z) : M unit :=
  log (InterceptorUpdateSource v flags) ;;; updateSource v flags.
Definition interceptor_unobserve (all : bool) : M unit :=
  log (InterceptorUnobserve all) ;;; unobserve all.

(** [$unbind(flags)].  [sourceExpression.unbind] and [targetObserver.unbind]
    are recorded as calls; what they do beyond that is not modelled. *)
Definition dollar_unbind (flags : Z) : M unit :=
  let* b := getThis in
  if negb (truthy (band (state b) 4 (* isBound *))) then ret tt
  else
    (* add isUnbinding flag *)
    modifyThis (fun b => set_state (bor (state b) 2) b) ;;;
    (* clear persistent flags *)
    modifyThis (set_persistentFlags 0) ;;;
    let* b := getThis in
    (if hasUnbind (sourceExpression b)
     then log (ExprUnbind flags (scope b)) else ret tt) ;;;
    modifyThis (set_scope None) ;;;
    let* o := theTargetObserver in
    let* ob := getObserverAt o in
    (if has_unbind ob then log (TargetUnbind o flags) else ret tt) ;;;
    let* o := theTargetObserver in
    let* ob := getObserverAt o in
    (if has_unsubscribe ob then
       target_unsubscribe o ;;;
       let* b := getThis in
       clearIdFlag o (id b) 32 (* updateSourceExpression *)
     else ret tt) ;;;
    interceptor_unobserve true ;;;
    (* remove isBound and isUnbinding flags *)
    modifyThis (fun b => set_state (band (state b) (bnot (bor 4 2))) b).

Definition interceptor_unbind (flags : Z) : M unit :=
  log (InterceptorUnbind flags) ;;; dollar_unbind flags.

Section BindingMode.

(** The members of the [BindingMode] enumeration (../flags) that the binding
    uses.  The enumeration is not among the sources; its members are taken as
    given. *)
Variables oneTime toView fromView : Z.

Definition toViewOrOneTime : Z := bor toView oneTime.

(** [handleChange(newValue, _previousValue, flags)] *)
Definition handleChange (newValue _previousValue : value) (flags : Z) : M unit :=
  let* b := getThis in
  if band (state b) 4 (* isBound *) =? 0 then ret tt
  else
    let flags := bor flags (persistentFlags b) in
    if band flags 16 (* updateTargetInstance *) >? 0 then
      let* o := theTargetObserver in
      let* previousValue := target_getValue o in
      let* b := getThis in
      let* newValue :=
        (if negb (kind (sourceExpression b) =? 10082 (* AccessScope *))
            || (observerSlots b >? 1)
         then expr_evaluate (sourceExpression b) flags (scope b) (part b)
         else ret newValue) in
      (if strict_neq newValue previousValue
       then interceptor_updateTarget newValue flags else ret tt) ;;;
      let* b := getThis in
      if band (mode b) oneTime =? 0 then
        modifyThis (fun b => set_version (version b + 1) b) ;;;
        let* b := getThis in
        expr_connect (sourceExpression b) flags (scope b) (part b) ;;;
        interceptor_unobserve false
      else ret tt
    else if band flags 32 (* updateSourceExpression *) >? 0 then
      let* b := getThis in
      let* current := expr_evaluate (sourceExpression b) flags (scope b) (part b) in
      if strict_neq newValue current
      then interceptor_updateSource newValue flags else ret tt
    else throw (ReporterError 15 flags).

(** [$bind] from the comment "add isBinding flag" on: what it does once it
    is past the check of the bound state.  [sourceExpression.bind] and
    [targetObserver.bind] are recorded as calls; what a binding behaviour does
    to the binding in its [bind] is not modelled. *)
Definition bind_proceed (flags : Z) (sc : Scope) (p : option string) : M unit :=
  (* add isBinding flag *)
  modifyThis (fun b => set_state (bor (state b) 1) b) ;;;
  (* Force property binding to always be strict *)
  let flags := bor flags 4 (* isStrictBindingStrategy *) in
  modifyThis (set_persistentFlags (band flags 2080374799 (* persistentBindingFlags *))) ;;;
  modifyThis (set_scope (Some sc)) ;;;
  modifyThis (set_part p) ;;;
  let* b := getThis in
  (if hasBind (sourceExpression b) then log (ExprBind flags sc) else ret tt) ;;;
  let* b := getThis in
  let* o :=
    match targetObserver b with
    | Some o => ret o
    | None =>
        if truthy (band (mode b) fromView) then
          log (LocatorGetObserver flags) ;;;
          let o := getObserver (observerLocator b) flags (target b) (targetProperty b) in
          modifyThis (set_targetObserver (Some o)) ;;; ret o
        else
          log (LocatorGetAccessor flags) ;;;
          let o := getAccessor (observerLocator b) flags (target b) (targetProperty b) in
          modifyThis (set_targetObserver (Some o)) ;;; ret o
    end in
  let* b := getThis in
  let* ob := getObserverAt o in
  (if negb (mode b =? oneTime) && has_bind ob
   then log (TargetBind o flags) else ret tt) ;;;
  (* during bind, binding behavior might have changed sourceExpression *)
  let* b := getThis in
  (if truthy (band (mode b) toViewOrOneTime) then
     let* v := expr_evaluate (sourceExpression b) flags (Some sc) p in
     interceptor_updateTarget v flags
   else ret tt) ;;;
  let* b' := getThis in
  (if truthy (band (mode b') toView)
   then expr_connect (sourceExpression b) flags (Some sc) p else ret tt) ;;;
  let* b' := getThis in
  (if truthy (band (mode b') fromView) then
     target_subscribe o ;;;
     let* b' := getThis in
     orIdFlag o (id b') 32 (* updateSourceExpression *)
   else ret tt) ;;;
  (* add isBound flag and remove isBinding flag *)
  modifyThis (fun b => set_state (bor (state b) 4) b) ;;;
  modifyThis (fun b => set_state (band (state b) (bnot 1)) b).

(** [$bind(flags, scope, part)] *)
Definition dollar_bind (flags : Z) (sc : Scope) (p : option string) : M unit :=
  let* b := getThis in
  if truthy (band (state b) 4 (* isBound *)) then
    if bool_decide (scope b = Some sc) then ret tt
    else
      interceptor_unbind (bor flags 4096 (* fromBind *)) ;;;
      bind_proceed flags sc p
  else bind_proceed flags sc p.

End BindingMode.

(** ** [Signaler] *)
Module Signaler.

(** A call [listener.handleChange(undefined, undefined, flags)]. *)
Record Call : Type := {
  listener : nat;
  newValue : value;
  previousValue : value;
  flags : Z
}.

(** The signaler.  [this.signals] is an object without a prototype, used as
    a map from the name of a signal to the [Set] of its listeners.  A [Set]
    holds an element once and iterates in the order of insertion.  Listeners
    are objects, known by reference. *)
Record t : Type := {
  signals : gmap string (list nat)
}.

(** [constructor()] *)
Definition new : t := {| signals := ∅ |}.

(** [set.add(x)] and [set.delete(x)] *)
Definition set_add (x : nat) (s : list nat) : list nat :=
  if bool_decide (x ∈ s) then s else s ++ [x].
Definition set_delete (x : nat) (s : list nat) : list nat :=
  filter (fun y => y ≠ x) s.

(** [dispatchSignal(name, flags)]: the calls of [handleChange] it makes, in
    order.  What a listener does to the signaler while it is called is not
    modelled. *)
Definition dispatchSignal (name : string) (fl : Z) (this : t) : list Call :=
  match signals this !! name with
  | None => []
  | Some listeners =>
      map (fun l => {| listener := l; newValue := VUndefined;
                       previousValue := VUndefined; flags := fl |})
          listeners
  end.

(** [addSignalListener(name, listener)] *)
Definition addSignalListener (name : string) (l : nat) (this : t) : t :=
  match signals this !! name with
  | None => {| signals := <[name := [l]]> (signals this) |}
  | Some listeners => {| signals := <[name := set_add l listeners]> (signals this) |}
  end.

(** [removeSignalListener(name, listener)] *)
Definition removeSignalListener (name : string) (l : nat) (this : t) : t :=
  match signals this !! name with
  | Some listeners => {| signals := <[name := set_delete l listeners]> (signals this) |}
  | None => this
  end.

End Signaler.

(** ** Vocabulary of the statements *)

(** The binding is in the bound state: the test [this.$state & isBound]. *)
Definition isBound (b : Binding) : bool := truthy (band (state b) 4).

(** A mode includes a member of [BindingMode]: the test [this.mode & member]. *)
Definition includes (m member : Z) : bool := truthy (band m member).

(** A flag word contains [updateTargetInstance]: the test [(flags & 16) > 0]. *)
Definition updatesTarget (flags : Z) : bool := band flags 16 >? 0.

(** The calls made between two worlds of one run. *)
Definition newEvents (w w' : World) : list Event :=
  skipn (length (trace w)) (trace w').

Definition isUpdateTarget (e : Event) : bool :=
  match e with InterceptorUpdateTarget _ _ => true | _ => false end.
Definition isSetValue (e : Event) : bool :=
  match e with TargetSetValue _ _ _ => true | _ => false end.
Definition isEvaluate (e : Event) : bool :=
  match e with ExprEvaluate _ _ _ => true | _ => false end.
Definition isConnect (e : Event) : bool :=
  match e with ExprConnect _ _ _ => true | _ => false end.
Definition isAssign (e : Event) : bool :=
  match e with ExprAssign _ _ _ _ => true | _ => false end.
Definition isUnobserve (e : Event) : bool :=
  match e with InterceptorUnobserve _ => true | _ => false end.
Definition isTargetSubscribe (e : Event) : bool :=
  match e with TargetSubscribe _ => true | _ => false end.

(** The binding is among the subscribers of observer [o]. *)
Definition subscribed (w : World) (o : nat) : Prop :=
  id (this w) ∈ subscribers (observerAt w o).

(** The observers the binding holds in its slots. *)
Definition slotObservers (b : Binding) : list nat := map fst (slots b).

(** [targetObserver.getValue()] in a world. *)
Definition targetValue (w : World) (o : nat) : value :=
  default VUndefined (heap w !! o).

(** Whether [handleChange] re-evaluates the source expression rather than
    taking the value it was passed. *)
Definition reevaluates (b : Binding) : bool :=
  negb (kind (sourceExpression b) =? 10082) || (observerSlots b >? 1).

(** The new value [handleChange] compares with the target's: the re-evaluated
    source expression, or the value passed in. *)
Definition latestValue (newValue : value) (flags : Z) (w : World) : value :=
  let b := this w in
  if reevaluates b
  then evaluate (sourceExpression b) flags (scope b) (part b) (heap w)
  else newValue.

(** The world after the first half of the target-update branch of
    [handleChange] (up to and including the call of [updateTarget], if any),
    for a binding whose target observer is [o]; [flags] is the flag word
    already merged with the persistent flags. *)
Definition afterTargetUpdate (newValue : value) (flags : Z) (o : nat) (w : World)
  : World :=
  let b := this w in
  let w1 := if reevaluates b
            then with_event (ExprEvaluate flags (scope b) (part b)) w else w in
  let v := latestValue newValue flags w in
  if strict_neq v (targetValue w o) then
    with_heap (insert o v)
      (with_event (TargetSetValue o v (bor flags (persistentFlags b)))
         (with_event (InterceptorUpdateTarget v flags) w1))
  else w1.

(** The second half: the version increment, [connect] and
    [unobserve(false)]. *)
Definition reconnect (flags : Z) : M unit :=
  modifyThis (fun b => set_version (version b + 1) b) ;;;
  let* b := getThis in
  expr_connect (sourceExpression b) flags (scope b) (part b) ;;;
  interceptor_unobserve false.

(** The world after the first half of [$unbind] for a bound binding whose
    target observer is [o]: up to and including [targetObserver.unbind]. *)
Definition unbindPrefix (flags : Z) (o : nat) (w : World) : World :=
  let b := this w in
  let w1 := with_this (set_persistentFlags 0)
              (with_this (fun b => set_state (bor (state b) 2) b) w) in
  let w2 := if hasUnbind (sourceExpression b)
            then with_event (ExprUnbind flags (scope b)) w1 else w1 in
  let w3 := with_this (set_scope None) w2 in
  if has_unbind (observerAt w o) then with_event (TargetUnbind o flags) w3 else w3.

(** The second half: the release of the target subscription and of the
    source subscriptions, and the reset of the state bits. *)
Definition unbindRest (o : nat) : M unit :=
  let* ob := getObserverAt o in
  (if has_unsubscribe ob then
     target_unsubscribe o ;;;
     let* b := getThis in
     clearIdFlag o (id b) 32
   else ret tt) ;;;
  interceptor_unobserve true ;;;
  modifyThis (fun b => set_state (band (state b) (bnot (bor 4 2))) b).

(** The target observer [$bind] works with: the one the binding has, or the
    one it asks the locator for. *)
Definition bindTarget (fromView : Z) (flags : Z) (b : Binding) : nat :=
  match targetObserver b with
  | Some o => o
  | None =>
      if includes (mode b) fromView
      then getObserver (observerLocator b) flags (target b) (targetProperty b)
      else getAccessor (observerLocator b) flags (target b) (targetProperty b)
  end.

(** The world after the first half of [$bind] (once past the check of the
    bound state): up to and including the initial [updateTarget], if any.
    [flags] is the flag word with [isStrictBindingStrategy] added. *)
Definition bindPrefix (oneTime toView fromView : Z) (flags : Z) (sc : Scope)
    (p : option string) (w : World) : World :=
  let b := this w in
  let o := bindTarget fromView flags b in
  let w1 := with_this (set_part p)
              (with_this (set_scope (Some sc))
                 (with_this (set_persistentFlags (band flags 2080374799))
                    (with_this (fun b => set_state (bor (state b) 1) b) w))) in
  let w2 := if hasBind (sourceExpression b)
            then with_event (ExprBind flags sc) w1 else w1 in
  let w3 := match targetObserver b with
            | Some _ => w2
            | None =>
                with_this (set_targetObserver (Some o))
                  (with_event (if includes (mode b) fromView
                               then LocatorGetObserver flags
                               else LocatorGetAccessor flags) w2)
            end in
  let w4 := if negb (mode b =? oneTime) && has_bind (observerAt w o)
            then with_event (TargetBind o flags) w3 else w3 in
  if includes (mode b) (toViewOrOneTime oneTime toView) then
    let v := evaluate (sourceExpression b) flags (Some sc) p (heap w) in
    with_heap (insert o v)
      (with_event (TargetSetValue o v (bor flags (band flags 2080374799)))
         (with_event (InterceptorUpdateTarget v flags)
            (with_event (ExprEvaluate flags (Some sc) p) w4)))
  else w4.

(** The second half: [connect], the subscription to the target observer,
    and the state bits. *)
Definition bindRest (toView fromView : Z) (flags : Z) (sc : Scope)
    (p : option string) (o : nat) : M unit :=
  let* b := getThis in
  (if includes (mode b) toView
   then expr_connect (sourceExpression b) flags (Some sc) p else ret tt) ;;;
  let* b := getThis in
  (if includes (mode b) fromView then
     target_subscribe o ;;;
     let* b := getThis in
     orIdFlag o (id b) 32
   else ret tt) ;;;
  modifyThis (fun b => set_state (bor (state b) 4) b) ;;;
  modifyThis (fun b => set_state (band (state b) (bnot 1)) b).

(** The events of the first half of [$bind]. *)
Definition bindPrefixEvents (oneTime toView fromView : Z) (fl : Z) (sc : Scope)
    (p : option string) (w : World) : list Event :=
  let b := this w in
  let o := bindTarget fromView fl b in
  let v := evaluate (sourceExpression b) fl (Some sc) p (heap w) in
  (if hasBind (sourceExpression b) then [ExprBind fl sc] else [])
  ++ match targetObserver b with
     | Some _ => []
     | None => [if includes (mode b) fromView
                then LocatorGetObserver fl else LocatorGetAccessor fl]
     end
  ++ (if negb (mode b =? oneTime) && has_bind (observerAt w o)
      then [TargetBind o fl] else [])
  ++ (if includes (mode b) (toViewOrOneTime oneTime toView)
      then [ExprEvaluate fl (Some sc) p;
            InterceptorUpdateTarget v fl;
            TargetSetValue o v (bor fl (band fl 2080374799))]
      else []).

(** The fields [$bind] sets on the way to the bound state. *)
Definition boundTo (sc : Scope) (p : option string) (o : nat) (pf : Z)
    (b : Binding) : Binding :=
  set_targetObserver (Some o)
    (set_part p (set_scope (Some sc) (set_persistentFlags pf b))).

(** The calls by which [$bind] evaluates, writes, connects and subscribes. *)
Definition isInstall (e : Event) : bool :=
  isEvaluate e || isUpdateTarget e || isSetValue e || isConnect e
  || isTargetSubscribe e.


(** The binding is in the binding state: [this.$state & isBinding]. *)
Definition isBinding (b : Binding) : bool := truthy (band (state b) 1).

(** One call of a method of the binding, with its outcome; or a step of the
    rest of the program, which may change the view models and the observers
    but has no access to the fields of the binding. *)
Inductive step (oneTime toView fromView : Z)
  : World -> Outcome unit -> World -> Prop :=
| step_bind (flags : Z) (sc : Scope) (p : option string) (w w' : World)
    (r : Outcome unit) :
    dollar_bind oneTime toView fromView flags sc p w = (r, w') ->
    step oneTime toView fromView w r w'
| step_unbind (flags : Z) (w w' : World) (r : Outcome unit) :
    dollar_unbind flags w = (r, w') ->
    step oneTime toView fromView w r w'
| step_handleChange (newValue previousValue : value) (flags : Z) (w w' : World)
    (r : Outcome unit) :
    handleChange oneTime newValue previousValue flags w = (r, w') ->
    step oneTime toView fromView w r w'
| step_elsewhere (w w' : World) :
    this w' = this w ->
    step oneTime toView fromView w (Return tt) w'.

(** The worlds a binding can be in: those reached from a newly constructed
    binding by any sequence of steps, calls that threw included. *)
Inductive reachable (oneTime toView fromView : Z) : World -> Prop :=
| reachable_new (i : nat) (e : Expression) (tgt : nat) (prop : string) (m : Z)
    (loc : ObserverLocator) (h : Heap) (obs : gmap nat Observer)
    (tr : list Event) :
    reachable oneTime toView fromView
      {| heap := h; observers := obs; this := new i e tgt prop m loc; trace := tr |}
| reachable_step (w w' : World) (r : Outcome unit) :
    reachable oneTime toView fromView w ->
    step oneTime toView fromView w r w' ->
    reachable oneTime toView fromView w'.

(** The worlds reached by sequences in which every call returned. *)
Inductive completed (oneTime toView fromView : Z) : World -> Prop :=
| completed_new (i : nat) (e : Expression) (tgt : nat) (prop : string) (m : Z)
    (loc : ObserverLocator) (h : Heap) (obs : gmap nat Observer)
    (tr : list Event) :
    completed oneTime toView fromView
      {| heap := h; observers := obs; this := new i e tgt prop m loc; trace := tr |}
| completed_step (w w' : World) :
    completed oneTime toView fromView w ->
    step oneTime toView fromView w (Return tt) w' ->
    completed oneTime toView fromView w'.

(** At rest the binding has a scope exactly when it is bound: invariant of
    every method that returns. *)
Definition atRest (b : Binding) : Prop :=
  isBinding b = false
  /\ (isBound b = true ->
      (exists s, scope b = Some s) /\ (exists o, targetObserver b = Some o))
  /\ (isBound b = false ->
      scope b = None /\ slots b = [] /\ persistentFlags b = 0).

(** *** Relations between the worlds of one run *)

(** The optional methods an observer object has. *)
Definition caps (ob : Observer) : bool * bool * bool * bool :=
  (has_bind ob, has_unbind ob, has_subscribe ob, has_unsubscribe ob).

(** The subscribers of observer [o]. *)
Definition subs (w : World) (o : nat) : list nat := subscribers (observerAt w o).

(** Steps that touch observers only: the heap, the trace and the binding
    stay as they are, and no observer gains or loses a method. *)
Definition observer_step (w w' : World) : Prop :=
  heap w' = heap w /\ trace w' = trace w /\ this w' = this w
  /\ forall o, caps (observerAt w' o) = caps (observerAt w o).

(** Steps that touch observers and the binding's slots only. *)
Definition slots_step (w w' : World) : Prop :=
  heap w' = heap w /\ trace w' = trace w
  /\ this w' = set_slots (slots (this w')) (this w)
  /\ forall o, caps (observerAt w' o) = caps (observerAt w o).

(** The slots after [addObserver(o)] at version [v], as a function of the
    slots before. *)
Definition touchSlot (v : Z) (l : list (nat * Z)) (o : nat) : list (nat * Z) :=
  if bool_decide (o ∈ map fst l) then stamp o v l else l ++ [(o, v)].

Definition touchAll (deps : list nat) (v : Z) (l : list (nat * Z))
  : list (nat * Z) :=
  fold_left (touchSlot v) deps l.

(** Steps in which the binding may gain subscriptions, and steps in which it
    may lose some; the subscriptions of other bindings stay. *)
Definition grows (i : nat) (w w' : World) : Prop :=
  slots_step w w'
  /\ (forall o j, j ∈ subs w o -> j ∈ subs w' o)
  /\ (forall o j, j <> i -> j ∈ subs w' o -> j ∈ subs w o).

Definition shrinks (i : nat) (w w' : World) : Prop :=
  slots_step w w'
  /\ (forall o j, j ∈ subs w' o -> j ∈ subs w o)
  /\ (forall o j, j <> i -> j ∈ subs w o -> j ∈ subs w' o).

(** Between two worlds the binding [i] only lost subscriptions, or only
    gained some; other bindings keep theirs, observers keep their methods. *)
Definition subs_shrink (i : nat) (w w' : World) : Prop :=
  (forall o, caps (observerAt w' o) = caps (observerAt w o))
  /\ (forall o j, j ∈ subs w' o -> j ∈ subs w o)
  /\ (forall o j, j <> i -> j ∈ subs w o -> j ∈ subs w' o).

Definition subs_grow (i : nat) (w w' : World) : Prop :=
  (forall o, caps (observerAt w' o) = caps (observerAt w o))
  /\ (forall o j, j ∈ subs w o -> j ∈ subs w' o)
  /\ (forall o j, j <> i -> j ∈ subs w' o -> j ∈ subs w o).

(** *** [handleChange] and [$bind], continued *)

(** A flag word contains [updateSourceExpression]: the test
    [(flags & 32) > 0]. *)
Definition updatesSource (flags : Z) : bool := band flags 32 >? 0.

Definition isUpdateSource (e : Event) : bool :=
  match e with InterceptorUpdateSource _ _ => true | _ => false end.
Definition isLocator (e : Event) : bool :=
  match e with LocatorGetObserver _ | LocatorGetAccessor _ => true | _ => false end.

(** A flag word that contains neither [updateTargetInstance] nor
    [updateSourceExpression]. *)
Definition noDirection (f : Z) : Prop :=
  Z.testbit f 4 = false /\ Z.testbit f 5 = false.


(** *** [CollectionLengthObserver] *)

(** The observer after a series of [setValue(newValue, flags)] calls, with
    the calls of [callSubscribers] they made, in order. *)
Fixpoint setValues (calls : list (value * Z)) (this : CollectionLengthObserver.t)
  : CollectionLengthObserver.t * list CollectionLengthObserver.Notification :=
  match calls with
  | [] => (this, [])
  | (v, fl) :: rest =>
      let r1 := CollectionLengthObserver.setValue v fl this in
      let r2 := setValues rest (fst r1) in
      (fst r2, snd r1 ++ snd r2)
  end.

(** Notifications that hand on the stored value: each reports as previous
    value the new value of the one before it ([start] for the first), a new
    value that is [!==] it, and flags with [updateTargetInstance]. *)
Fixpoint handsOn (start : value) (ns : list CollectionLengthObserver.Notification)
  : Prop :=
  match ns with
  | [] => True
  | n :: rest =>
      CollectionLengthObserver.n_previousValue n = start
      /\ strict_neq (CollectionLengthObserver.n_newValue n) start = true
      /\ updatesTarget (CollectionLengthObserver.n_flags n) = true
      /\ handsOn (CollectionLengthObserver.n_newValue n) rest
  end.

(** *** [mergeDistinct] *)

(** The list holds a node with the viewport agent of [n]: the test
    [l.some(m => m.context.vpa === n.context.vpa)]. *)
Definition vpaIn (l : list Router.RouteNode) (n : Router.RouteNode) : bool :=
  existsb (fun m => (Router.context_vpa m =? Router.context_vpa n)%nat) l.

(** *** [runSequence] *)

(** A call that, passed [v], returns something that is not a promise and
    does not call [abort]. *)
Definition goesOn (c : Router.Call) (v : value) : Prop :=
  Router.isPromise (Router.returns (c v)) = false /\ Router.aborts (c v) = false.

(** What a call returned, when it is not a promise. *)
Definition returned (m : Router.MaybePromise) : value :=
  match m with Router.NotPromise v => v | Router.PromiseRef _ => VUndefined end.

(** The value that reaches the end of a series of calls, each passed what
    the one before it returned. *)
Fixpoint passedAlong (calls : list Router.Call) (v : value) : value :=
  match calls with
  | [] => v
  | c :: rest => passedAlong rest (returned (Router.returns (c v)))
  end.

(** Every call of the series goes on, on the value it is passed. *)
Fixpoint allGoOn (calls : list Router.Call) (v : value) : Prop :=
  match calls with
  | [] => True
  | c :: rest => goesOn c v /\ allGoOn rest (returned (Router.returns (c v)))
  end.

(** *** [Signaler] *)

(** The listeners of a signal, in the order in which [dispatchSignal] calls
    them: none for a name the signaler does not know. *)
Definition listenersOf (name : string) (s : Signaler.t) : list nat :=
  default [] (Signaler.signals s !! name).

(** The signalers a program can make: a new one, and what
    [addSignalListener] and [removeSignalListener] make of one. *)
Inductive built : Signaler.t -> Prop :=
| built_new : built Signaler.new
| built_add (name : string) (l : nat) (s : Signaler.t) :
    built s -> built (Signaler.addSignalListener name l s)
| built_remove (name : string) (l : nat) (s : Signaler.t) :
    built s -> built (Signaler.removeSignalListener name l s).

(** ** Example worlds *)
Module Samples.

(** The expression [x], a property read from the scope: its observer is 20. *)
Definition readX : Expression :=
  {| kind := 10082;
     hasBind := false; hasUnbind := false;
     evaluate := fun _ _ _ h => default VUndefined (h !! 20%nat);
     dependencies := fun _ _ _ _ => [20%nat];
     assign := fun _ _ _ v h => <[20%nat := v]> h |}.


(** A locator that hands out observer 10 for the target property, and the
    accessor 11. *)
Definition locator : ObserverLocator :=
  {| getObserver := fun _ _ _ => 10%nat; getAccessor := fun _ _ _ => 11%nat |}.

Definition world (b : Binding) (h : Heap) (obs : gmap nat Observer) : World :=
  {| heap := h; observers := obs; this := b; trace := [] |}.

(** A freshly constructed binding of [x] in mode [m]. *)
Definition fresh (m : Z) : World :=
  world (new 7 readX 1 "value" m locator)
        (<[20%nat := VNumber 5]> ∅) ∅.

(** A to-view binding (mode 2) of [x], bound to scope 1, target observer 11,
    subscribed to 20; the target shows 3 while [x] is 5. *)
Definition boundToView : World :=
  world {| id := 7; sourceExpression := readX; target := 1;
           targetProperty := "value"; mode := 2; observerLocator := locator;
           state := 4; scope := Some 1%nat; part := None;
           targetObserver := Some 11%nat; persistentFlags := 4;
           version := 0; slots := [(20%nat, 0)] |}
        (<[20%nat := VNumber 5]> (<[11%nat := VNumber 3]> ∅))
        (<[20%nat := set_subscribers [7%nat] newObserver]> ∅).


(** An observer that has neither [subscribe] nor [unsubscribe]. *)
Definition silent : Observer :=
  {| subscribers := []; idFlags := ∅;
     has_bind := false; has_unbind := false;
     has_subscribe := false; has_unsubscribe := false |}.

(** A freshly constructed from-view binding (mode 4) of [x] whose target
    observer, 10, cannot be subscribed to. *)
Definition freshSilentTarget : World :=
  world (new 7 readX 1 "value" 4 locator)
        (<[20%nat := VNumber 5]> ∅)
        (<[10%nat := silent]> ∅).

(** Route nodes: the node object and its viewport agent. *)
Definition routeNode (n v : nat) : Router.RouteNode :=
  {| Router.node_ref := n; Router.context_vpa := v |}.

(** Calls for [runSequence]: one that returns 1, one that aborts and
    returns what it was passed, one that returns the promise 3. *)
Definition returnsOne : Router.Call :=
  fun _ => {| Router.aborts := false;
              Router.returns := Router.NotPromise (VNumber 1) |}.
Definition abortsAtOnce : Router.Call :=
  fun v => {| Router.aborts := true; Router.returns := Router.NotPromise v |}.
Definition returnsPromise : Router.Call :=
  fun _ => {| Router.aborts := false; Router.returns := Router.PromiseRef 3 |}.

End Samples.

(** * Properties *)

(** ** Bits *)

Lemma ToInt32_testbit (z i : Z) :
  0 <= i < 32 -> Z.testbit (ToInt32 z) i = Z.testbit z i.
Proof.
  intros Hi. unfold ToInt32. cbv zeta.
  destruct (z mod 2 ^ 32 <? 2 ^ 31).
  - apply Z.mod_pow2_bits_low. lia.
  - rewrite <- (Z.mod_pow2_bits_low (z mod 2 ^ 32 - 2 ^ 32) 32 i) by lia.
    rewrite <- (Z.mod_pow2_bits_low z 32 i) by lia.
    f_equal.
    replace (z mod 2 ^ 32 - 2 ^ 32) with (z mod 2 ^ 32 + (-1) * 2 ^ 32) by lia.
    rewrite Z.mod_add by lia. apply Z.mod_mod. lia.
Qed.

Lemma bor_testbit (a b i : Z) :
  0 <= i < 32 -> Z.testbit (bor a b) i = Z.testbit a i || Z.testbit b i.
Proof.
  intros Hi. unfold bor. rewrite Z.lor_spec, !ToInt32_testbit by lia. reflexivity.
Qed.

Lemma band_testbit (a b i : Z) :
  0 <= i < 32 -> Z.testbit (band a b) i = Z.testbit a i && Z.testbit b i.
Proof.
  intros Hi. unfold band. rewrite Z.land_spec, !ToInt32_testbit by lia. reflexivity.
Qed.

Lemma bnot_testbit (a i : Z) :
  0 <= i < 32 -> Z.testbit (bnot a) i = negb (Z.testbit a i).
Proof.
  intros Hi. unfold bnot. rewrite Z.lnot_spec, ToInt32_testbit by lia. reflexivity.
Qed.

(** Masking with a single bit [2 ^ i] (below the sign bit) gives that bit. *)
Lemma band_pow2 (x i : Z) :
  0 <= i < 31 -> band x (2 ^ i) = if Z.testbit x i then 2 ^ i else 0.
Proof.
  intros Hi. unfold band.
  assert (H2 : ToInt32 (2 ^ i) = 2 ^ i).
  { unfold ToInt32. cbv zeta.
    assert (0 < 2 ^ i < 2 ^ 31) by (split; [lia | apply Z.pow_lt_mono_r; lia]).
    rewrite Z.mod_small by lia.
    destruct (2 ^ i <? 2 ^ 31) eqn:E; [reflexivity | lia]. }
  rewrite H2. rewrite <- (ToInt32_testbit x i) by lia.
  apply Z.bits_inj'. intros n Hn.
  rewrite Z.land_spec, Z.pow2_bits_eqb by lia.
  destruct (Z.eqb_spec i n) as [->|Hne].
  - rewrite andb_true_r.
    destruct (Z.testbit (ToInt32 x) n) eqn:E.
    + rewrite Z.pow2_bits_true by lia. reflexivity.
    + rewrite Z.bits_0. reflexivity.
  - rewrite andb_false_r.
    destruct (Z.testbit (ToInt32 x) i).
    + rewrite Z.pow2_bits_false by lia. reflexivity.
    + rewrite Z.bits_0. reflexivity.
Qed.

(** The tests the binding makes on flag words, read as bits. *)
Lemma isBound_truthy (s : Z) : truthy (band s 4) = Z.testbit s 2.
Proof.
  change 4 with (2 ^ 2). rewrite band_pow2 by lia.
  destruct (Z.testbit s 2); reflexivity.
Qed.

Lemma isBound_eqb0 (s : Z) : (band s 4 =? 0) = negb (Z.testbit s 2).
Proof.
  change 4 with (2 ^ 2). rewrite band_pow2 by lia.
  destruct (Z.testbit s 2); reflexivity.
Qed.

Lemma updateTargetInstance_gtb (f : Z) : (band f 16 >? 0) = Z.testbit f 4.
Proof.
  change 16 with (2 ^ 4). rewrite band_pow2 by lia.
  destruct (Z.testbit f 4); reflexivity.
Qed.

Lemma updateSourceExpression_gtb (f : Z) : (band f 32 >? 0) = Z.testbit f 5.
Proof.
  change 32 with (2 ^ 5). rewrite band_pow2 by lia.
  destruct (Z.testbit f 5); reflexivity.
Qed.

(** The bound state after [$bind] and [$unbind]. *)
Lemma state_after_bind (s : Z) :
  Z.testbit (band (bor (bor s 1) 4) (bnot 1)) 2 = true
  /\ Z.testbit (band (bor (bor s 1) 4) (bnot 1)) 0 = false.
Proof.
  rewrite !band_testbit, !bnot_testbit, !bor_testbit by lia.
  split; [ rewrite orb_true_r | rewrite andb_false_r ]; reflexivity.
Qed.

Lemma state_after_unbind (s : Z) :
  Z.testbit (band (bor s 2) (bnot (bor 4 2))) 2 = false.
Proof.
  rewrite band_testbit, bnot_testbit by lia. apply andb_false_r.
Qed.

(** [persistentBindingFlags] does not contain [updateTargetInstance] (16) nor
    [updateSourceExpression] (32). *)
Lemma persistent_no_update (f : Z) :
  Z.testbit (band f 2080374799) 4 = false /\ Z.testbit (band f 2080374799) 5 = false.
Proof.
  rewrite !band_testbit by lia. split; apply andb_false_r.
Qed.

(** ** [resolveAll] *)

Lemma collect_app (l : list Router.MaybePromise) (acc : list nat) :
  Router.collect l acc = acc ++ Router.promisesOf l.
Proof.
  revert acc. induction l as [|[v|p] l IH]; intros acc; simpl.
  - symmetry. apply app_nil_r.
  - apply IH.
  - rewrite IH, <- app_assoc. reflexivity.
Qed.

Lemma promisesOf_filter (l : list Router.MaybePromise) :
  Router.promisesOf (List.filter Router.isPromise l) = Router.promisesOf l.
Proof.
  induction l as [|[v|p] l IH]; simpl; [reflexivity | exact IH |].
  f_equal. exact IH.
Qed.

Lemma promisesOf_length (l : list Router.MaybePromise) :
  length (Router.promisesOf l) = length (List.filter Router.isPromise l).
Proof.
  induction l as [|[v|p] l IH]; simpl; [reflexivity | exact IH |].
  f_equal. exact IH.
Qed.

Lemma promisesOf_In (l : list Router.MaybePromise) (p : nat) :
  In p (Router.promisesOf l) <-> In (Router.PromiseRef p) l.
Proof.
  induction l as [|[v|q] l IH]; simpl.
  - tauto.
  - rewrite IH. split; [tauto | intros [H|H]; [discriminate | exact H]].
  - rewrite IH. split; intros [H|H]; try tauto.
    + left. congruence.
    + left. congruence.
Qed.

Lemma resolveAll_promisesOf (l : list Router.MaybePromise) :
  Router.resolveAll l =
  match Router.promisesOf l with
  | [] => Router.RUndefined
  | [p] => Router.RPromise p
  | ps => Router.RPromiseAll ps
  end.
Proof.
  unfold Router.resolveAll. rewrite collect_app. simpl.
  destruct (Router.promisesOf l) as [|p [|q r]]; reflexivity.
Qed.

(** ** The observer store *)

Lemma observerAt_modify (o o' : nat) (f : Observer -> Observer) (w : World) :
  observerAt (with_observer o f w) o' =
  if decide (o = o') then f (observerAt w o) else observerAt w o'.
Proof.
  unfold observerAt, with_observer. simpl.
  rewrite lookup_insert. destruct (decide (o = o')); reflexivity.
Qed.

Lemma observer_step_refl (w : World) : observer_step w w.
Proof. unfold observer_step. auto. Qed.

Lemma observer_step_trans (w1 w2 w3 : World) :
  observer_step w1 w2 -> observer_step w2 w3 -> observer_step w1 w3.
Proof.
  intros (H1 & H2 & H3 & H4) (K1 & K2 & K3 & K4).
  unfold observer_step.
  split; [congruence | split; [congruence | split; [congruence |]]].
  intros o. rewrite K4. apply H4.
Qed.

Lemma with_observer_step (o : nat) (f : Observer -> Observer) (w : World) :
  (forall ob, caps (f ob) = caps ob) -> observer_step w (with_observer o f w).
Proof.
  intros Hf. unfold observer_step. repeat split.
  intros o'. rewrite observerAt_modify.
  destruct (decide (o = o')) as [<-|]; [apply Hf | reflexivity].
Qed.

Lemma subs_with_observer (o o' : nat) (f : Observer -> Observer) (w : World) :
  subs (with_observer o f w) o' =
  if decide (o = o') then subscribers (f (observerAt w o)) else subs w o'.
Proof.
  unfold subs. rewrite observerAt_modify. destruct (decide (o = o')); reflexivity.
Qed.

(** Storing flags on an observer leaves its subscribers alone. *)
Lemma orIdFlag_inv (o i : nat) (bits : Z) (w : World) :
  exists w', orIdFlag o i bits w = (Return tt, w')
    /\ observer_step w w' /\ forall o', subs w' o' = subs w o'.
Proof.
  eexists. split; [reflexivity |]. split.
  - apply with_observer_step. reflexivity.
  - intros o'. rewrite subs_with_observer. destruct (decide (o = o')) as [<-|]; reflexivity.
Qed.

Lemma clearIdFlag_inv (o i : nat) (bits : Z) (w : World) :
  exists w', clearIdFlag o i bits w = (Return tt, w')
    /\ observer_step w w' /\ forall o', subs w' o' = subs w o'.
Proof.
  eexists. split; [reflexivity |]. split.
  - apply with_observer_step. reflexivity.
  - intros o'. rewrite subs_with_observer. destruct (decide (o = o')) as [<-|]; reflexivity.
Qed.

(** What one call of [subscribe] leaves behind. *)
Lemma subscribe_inv (o i : nat) (w w' : World) (r : Outcome unit) :
  subscribe o i w = (r, w') ->
  observer_step w w'
  /\ (forall o', o' <> o -> subs w' o' = subs w o')
  /\ (forall j, j ∈ subs w o -> j ∈ subs w' o)
  /\ (forall j, j <> i -> j ∈ subs w' o -> j ∈ subs w o)
  /\ (r = Return tt -> i ∈ subs w' o)
  /\ (r = Return tt /\ has_subscribe (observerAt w o) = true
      \/ r = Throw TypeError /\ w' = w /\ has_subscribe (observerAt w o) = false).
Proof.
  unfold subscribe, andThen, getObserverAt, modifyObserver.
  destruct (has_subscribe (observerAt w o)) eqn:Hs; intros [= <- <-].
  2:{ split; [apply observer_step_refl |]. repeat split; auto; discriminate. }
  split.
  { apply with_observer_step. intros ob. case_bool_decide; reflexivity. }
  repeat split.
  - intros o' Hne. rewrite subs_with_observer.
    destruct (decide (o = o')); [congruence | reflexivity].
  - intros j Hj. rewrite subs_with_observer.
    destruct (decide (o = o)); [| congruence].
    case_bool_decide; [exact Hj |].
    simpl. apply elem_of_app. left. exact Hj.
  - intros j Hne. rewrite subs_with_observer.
    destruct (decide (o = o)); [| congruence].
    case_bool_decide; [auto |].
    simpl. intros [Hj|Hj]%elem_of_app; [exact Hj |].
    apply list_elem_of_singleton in Hj. congruence.
  - intros _. rewrite subs_with_observer.
    destruct (decide (o = o)); [| congruence].
    case_bool_decide as Hin; [exact Hin |].
    simpl. apply elem_of_app. right. apply list_elem_of_singleton. reflexivity.
  - left. auto.
Qed.

(** What one call of [unsubscribe] leaves behind. *)
Lemma unsubscribe_inv (o i : nat) (w w' : World) (r : Outcome unit) :
  unsubscribe o i w = (r, w') ->
  observer_step w w'
  /\ (forall o', o' <> o -> subs w' o' = subs w o')
  /\ (forall j, j ∈ subs w' o -> j ∈ subs w o)
  /\ (forall j, j <> i -> j ∈ subs w o -> j ∈ subs w' o)
  /\ (r = Return tt -> i ∉ subs w' o)
  /\ (r = Return tt /\ has_unsubscribe (observerAt w o) = true
      \/ r = Throw TypeError /\ w' = w /\ has_unsubscribe (observerAt w o) = false).
Proof.
  unfold unsubscribe, andThen, getObserverAt, modifyObserver.
  destruct (has_unsubscribe (observerAt w o)) eqn:Hs; intros [= <- <-].
  2:{ split; [apply observer_step_refl |]. repeat split; auto; discriminate. }
  split.
  { apply with_observer_step. reflexivity. }
  repeat split.
  - intros o' Hne. rewrite subs_with_observer.
    destruct (decide (o = o')); [congruence | reflexivity].
  - intros j. rewrite subs_with_observer.
    destruct (decide (o = o)); [| congruence].
    simpl. intros Hj%list_elem_of_filter. apply Hj.
  - intros j Hne Hj. rewrite subs_with_observer.
    destruct (decide (o = o)); [| congruence].
    simpl. apply list_elem_of_filter. auto.
  - intros _. rewrite subs_with_observer.
    destruct (decide (o = o)); [| congruence].
    simpl. intros Hj%list_elem_of_filter. destruct Hj as [Hj _]. congruence.
  - left. auto.
Qed.

(** ** The slots of the [connectable] mixin *)

Lemma set_slots_same (b : Binding) : set_slots (slots b) b = b.
Proof. destruct b; reflexivity. Qed.

Lemma slots_step_refl (w : World) : slots_step w w.
Proof.
  unfold slots_step. rewrite set_slots_same. auto.
Qed.

Lemma slots_step_trans (w1 w2 w3 : World) :
  slots_step w1 w2 -> slots_step w2 w3 -> slots_step w1 w3.
Proof.
  intros (H1 & H2 & H3 & H4) (K1 & K2 & K3 & K4).
  unfold slots_step.
  split; [congruence | split; [congruence | split]].
  - rewrite K3 at 1. rewrite H3. reflexivity.
  - intros o. rewrite K4. apply H4.
Qed.

Lemma observer_step_slots_step (w w' : World) :
  observer_step w w' -> slots_step w w'.
Proof.
  intros (H1 & H2 & H3 & H4). unfold slots_step.
  rewrite H3, set_slots_same. auto.
Qed.

Lemma with_this_slots_step (l : list (nat * Z)) (w : World) :
  slots_step w (with_this (set_slots l) w).
Proof. unfold slots_step. simpl. auto. Qed.

Lemma stamp_fst (o : nat) (v : Z) (l : list (nat * Z)) :
  map fst (stamp o v l) = map fst l.
Proof.
  unfold stamp. induction l as [|[o' v'] l IH]; simpl; [reflexivity |].
  rewrite IH. destruct (Nat.eqb_spec o' o); simpl; congruence.
Qed.

Lemma stamp_elem (o : nat) (v : Z) (l : list (nat * Z)) (o' : nat) (v' : Z) :
  (o', v') ∈ stamp o v l ->
  (o' = o /\ v' = v) \/ (o' <> o /\ (o', v') ∈ l).
Proof.
  unfold stamp. induction l as [|[o1 v1] l IH]; simpl.
  - intros H. inversion H.
  - intros H. apply elem_of_cons in H. destruct H as [H|H].
    + destruct (Nat.eqb_spec o1 o) as [->|Hne].
      * left. split; congruence.
      * right. inversion H; subst. split; [exact Hne | apply list_elem_of_here].
    + destruct (IH H) as [?|[? ?]]; [left; assumption |].
      right. split; [assumption | apply list_elem_of_further; assumption].
Qed.

Lemma touchSlot_fst (v : Z) (l : list (nat * Z)) (o o' : nat) :
  o' ∈ map fst (touchSlot v l o) <-> o' ∈ map fst l \/ o' = o.
Proof.
  unfold touchSlot. case_bool_decide as Hin.
  - rewrite stamp_fst. split; [auto | intros [H| ->]; assumption].
  - rewrite map_app. simpl. rewrite elem_of_app, list_elem_of_singleton. reflexivity.
Qed.

Lemma touchSlot_elem (v : Z) (l : list (nat * Z)) (o o' : nat) (v' : Z) :
  (o', v') ∈ touchSlot v l o ->
  (o' = o /\ v' = v) \/ (o' <> o /\ (o', v') ∈ l).
Proof.
  unfold touchSlot. case_bool_decide as Hin.
  - apply stamp_elem.
  - intros [H|H]%elem_of_app.
    + right. split; [| exact H].
      intros ->. apply Hin. apply list_elem_of_fmap. exists (o, v'). auto.
    + apply list_elem_of_singleton in H. left. split; congruence.
Qed.

Lemma touchAll_fst (deps : list nat) (v : Z) (l : list (nat * Z)) (o' : nat) :
  o' ∈ map fst (touchAll deps v l) <-> o' ∈ map fst l \/ o' ∈ deps.
Proof.
  unfold touchAll. revert l.
  induction deps as [|d deps IH]; intros l; simpl.
  - split; [auto | intros [H|H]; [exact H | inversion H]].
  - rewrite IH, touchSlot_fst, elem_of_cons. tauto.
Qed.

Lemma touchAll_elem (deps : list nat) (v : Z) (l : list (nat * Z))
    (o' : nat) (v' : Z) :
  (o', v') ∈ touchAll deps v l ->
  (o' ∈ deps /\ v' = v) \/ ((o' ∉ deps) /\ (o', v') ∈ l).
Proof.
  unfold touchAll. revert l.
  induction deps as [|d deps IH]; intros l; simpl.
  - intros H. right. split; [intros K; inversion K | exact H].
  - intros H. destruct (IH _ H) as [[Hd ->]|[Hnd Hin]].
    + left. split; [apply list_elem_of_further; exact Hd | reflexivity].
    + destruct (touchSlot_elem _ _ _ _ _ Hin) as [[-> ->]|[Hne Hl]].
      * left. split; [apply list_elem_of_here | reflexivity].
      * right. split; [| exact Hl].
        intros [K|K]%elem_of_cons; [congruence | auto].
Qed.


Lemma slots_step_fields (w w' : World) :
  slots_step w w' ->
  id (this w') = id (this w) /\ version (this w') = version (this w)
  /\ mode (this w') = mode (this w) /\ state (this w') = state (this w)
  /\ scope (this w') = scope (this w) /\ part (this w') = part (this w)
  /\ targetObserver (this w') = targetObserver (this w)
  /\ persistentFlags (this w') = persistentFlags (this w)
  /\ sourceExpression (this w') = sourceExpression (this w).
Proof.
  intros (_ & _ & H & _). rewrite H. simpl. repeat split.
Qed.

Lemma grows_refl (i : nat) (w : World) : grows i w w.
Proof. split; [apply slots_step_refl | auto]. Qed.

Lemma grows_trans (i : nat) (w1 w2 w3 : World) :
  grows i w1 w2 -> grows i w2 w3 -> grows i w1 w3.
Proof.
  intros (H1 & H2 & H3) (K1 & K2 & K3).
  split; [eapply slots_step_trans; eassumption | split; eauto].
Qed.

Lemma shrinks_refl (i : nat) (w : World) : shrinks i w w.
Proof. split; [apply slots_step_refl | auto]. Qed.

Lemma shrinks_trans (i : nat) (w1 w2 w3 : World) :
  shrinks i w1 w2 -> shrinks i w2 w3 -> shrinks i w1 w3.
Proof.
  intros (H1 & H2 & H3) (K1 & K2 & K3).
  split; [eapply slots_step_trans; eassumption | split; eauto].
Qed.

Lemma same_subs_grows (i : nat) (w w' : World) :
  slots_step w w' -> (forall o, subs w' o = subs w o) -> grows i w w'.
Proof.
  intros H K. split; [exact H |].
  split; intros o j; rewrite K; auto.
Qed.

Lemma same_subs_shrinks (i : nat) (w w' : World) :
  slots_step w w' -> (forall o, subs w' o = subs w o) -> shrinks i w w'.
Proof.
  intros H K. split; [exact H |].
  split; intros o j; rewrite K; auto.
Qed.

Lemma subscribe_grows (o i : nat) (w w' : World) (r : Outcome unit) :
  subscribe o i w = (r, w') -> grows i w w'.
Proof.
  intros H. destruct (subscribe_inv _ _ _ _ _ H) as (Hs & Hne & Hmono & Hfr & _).
  split; [apply observer_step_slots_step; exact Hs |].
  split; intros o' j; destruct (decide (o' = o)) as [->|Hd];
    try rewrite (Hne _ Hd); auto.
Qed.

Lemma unsubscribe_shrinks (o i : nat) (w w' : World) (r : Outcome unit) :
  unsubscribe o i w = (r, w') -> shrinks i w w'.
Proof.
  intros H. destruct (unsubscribe_inv _ _ _ _ _ H) as (Hs & Hne & Hmono & Hfr & _).
  split; [apply observer_step_slots_step; exact Hs |].
  split; intros o' j; destruct (decide (o' = o)) as [->|Hd];
    try rewrite (Hne _ Hd); auto.
Qed.

(** [addObserver] *)
Lemma addObserver_inv (o : nat) (w w' : World) (r : Outcome unit) :
  addObserver o w = (r, w') ->
  grows (id (this w)) w w'
  /\ (forall o', o' <> o -> subs w' o' = subs w o')
  /\ (r = Return tt ->
      slots (this w') = touchSlot (version (this w)) (slots (this w)) o
      /\ (o ∉ map fst (slots (this w)) -> id (this w) ∈ subs w' o)).
Proof.
  unfold addObserver, andThen, getThis, modifyThis, touchSlot.
  case_bool_decide as Hin.
  - intros [= <- <-]. split; [| split].
    + apply same_subs_grows; [apply with_this_slots_step | reflexivity].
    + reflexivity.
    + intros _. split; [reflexivity | contradiction].
  - destruct (subscribe o (id (this w)) _) as [[[]|e] w1] eqn:E1.
    + destruct (orIdFlag_inv o (id (this w)) 16 w1) as (w2 & E2 & Hs2 & Hsub2).
      rewrite E2. intros [= <- <-].
      pose proof (subscribe_grows _ _ _ _ _ E1) as G1.
      destruct (subscribe_inv _ _ _ _ _ E1) as (Hs1 & Hne1 & _ & _ & Hin1 & _).
      split; [| split].
      * eapply grows_trans; [| eapply grows_trans; [exact G1 |]].
        -- apply same_subs_grows; [apply with_this_slots_step | reflexivity].
        -- apply same_subs_grows; [apply observer_step_slots_step; exact Hs2 | exact Hsub2].
      * intros o' Hne. rewrite Hsub2, (Hne1 _ Hne). reflexivity.
      * intros _. split.
        -- destruct Hs2 as (_ & _ & -> & _). destruct Hs1 as (_ & _ & -> & _).
           reflexivity.
        -- intros _. rewrite Hsub2. apply Hin1. reflexivity.
    + intros [= <- <-].
      pose proof (subscribe_grows _ _ _ _ _ E1) as G1.
      destruct (subscribe_inv _ _ _ _ _ E1) as (Hs1 & Hne1 & _).
      split; [| split].
      * eapply grows_trans; [| exact G1].
        apply same_subs_grows; [apply with_this_slots_step | reflexivity].
      * intros o' Hne. rewrite (Hne1 _ Hne). reflexivity.
      * discriminate.
Qed.

(** The loop of [connect] over the dependencies. *)
Lemma connect_loop (deps : list nat) (w w' : World) (r : Outcome unit) :
  forEach addObserver deps w = (r, w') ->
  grows (id (this w)) w w'
  /\ (forall o', o' ∉ deps -> subs w' o' = subs w o')
  /\ (r = Return tt ->
      slots (this w') = touchAll deps (version (this w)) (slots (this w))
      /\ (forall o, o ∈ deps -> o ∉ map fst (slots (this w)) ->
                    id (this w) ∈ subs w' o)).
Proof.
  revert w. induction deps as [|d deps IH]; intros w; simpl.
  - intros [= <- <-]. split; [apply grows_refl |].
    split; [reflexivity |]. intros _. split; [reflexivity |].
    intros o H. inversion H.
  - unfold andThen.
    destruct (addObserver d w) as [[[]|e] w1] eqn:E1.
    + intros E2.
      destruct (addObserver_inv _ _ _ _ E1) as (G1 & Hne1 & Hr1).
      destruct (Hr1 eq_refl) as (Hsl1 & Hin1).
      destruct (slots_step_fields _ _ (proj1 G1)) as (Hid & Hver & _).
      destruct (IH _ E2) as (G2 & Hne2 & Hr2).
      rewrite Hid in G2.
      split; [eapply grows_trans; eassumption |].
      split.
      * intros o' Ho'. rewrite Hne2, Hne1; [reflexivity | |].
        -- intros ->. apply Ho'. apply list_elem_of_here.
        -- intros K. apply Ho'. apply list_elem_of_further. exact K.
      * intros ->. destruct (Hr2 eq_refl) as (Hsl2 & Hin2).
        split.
        -- rewrite Hsl2, Hver, Hsl1. reflexivity.
        -- intros o Ho Hfresh. rewrite Hid in Hin2.
           destruct (decide (o = d)) as [->|Hne].
           ++ apply (proj1 (proj2 G2)). apply Hin1. exact Hfresh.
           ++ apply Hin2.
              ** apply elem_of_cons in Ho. destruct Ho; [contradiction | assumption].
              ** rewrite Hsl1. intros K. apply touchSlot_fst in K.
                 destruct K; contradiction.
    + intros [= <- <-].
      destruct (addObserver_inv _ _ _ _ E1) as (G1 & Hne1 & _).
      split; [exact G1 |]. split; [| discriminate].
      intros o' Ho'. apply Hne1. intros ->. apply Ho'. apply list_elem_of_here.
Qed.

(** The loop of [unobserve] over the slots it releases. *)
Lemma release_loop (i : nat) (l : list (nat * Z)) (w w' : World) (r : Outcome unit) :
  forEach (fun s => unsubscribe (fst s) i ;;; clearIdFlag (fst s) i 16) l w = (r, w') ->
  shrinks i w w'
  /\ observer_step w w'
  /\ (forall o, o ∉ map fst l -> subs w' o = subs w o)
  /\ (r = Return tt -> forall o, o ∈ map fst l -> i ∉ subs w' o).
Proof.
  revert w. induction l as [|[o1 v1] l IH]; intros w; simpl.
  - intros [= <- <-]. split; [apply shrinks_refl |].
    split; [apply observer_step_refl |].
    split; [reflexivity |]. intros _ o H. inversion H.
  - unfold andThen at 1 2.
    destruct (unsubscribe o1 i w) as [[[]|e] w1] eqn:E1.
    + destruct (clearIdFlag_inv o1 i 16 w1) as (w2 & E2 & Hs2 & Hsub2).
      rewrite E2. intros E3.
      pose proof (unsubscribe_shrinks _ _ _ _ _ E1) as S1.
      destruct (unsubscribe_inv _ _ _ _ _ E1) as (Hs1 & Hne1 & _ & _ & Hout1 & _).
      destruct (IH _ E3) as (S3 & Hs3 & Hne3 & Hr3).
      assert (S2 : shrinks i w1 w2).
      { apply same_subs_shrinks; [apply observer_step_slots_step; exact Hs2 | exact Hsub2]. }
      split; [eapply shrinks_trans; [exact S1 | eapply shrinks_trans; eassumption] |].
      split; [eapply observer_step_trans; [exact Hs1 | eapply observer_step_trans; eassumption] |].
      split.
      * intros o Ho. rewrite Hne3, Hsub2, Hne1; [reflexivity | |].
        -- intros ->. apply Ho. apply list_elem_of_here.
        -- intros K. apply Ho. apply list_elem_of_further. exact K.
      * intros -> o Ho. apply elem_of_cons in Ho. destruct Ho as [->|Ho].
        -- intros K. apply (proj1 (proj2 S3)) in K. rewrite Hsub2 in K.
           exact (Hout1 eq_refl K).
        -- apply (Hr3 eq_refl). exact Ho.
    + intros [= <- <-].
      pose proof (unsubscribe_shrinks _ _ _ _ _ E1) as S1.
      destruct (unsubscribe_inv _ _ _ _ _ E1) as (Hs1 & Hne1 & _).
      split; [exact S1 |]. split; [exact Hs1 |]. split; [| discriminate].
      intros o Ho. apply Hne1. intros ->. apply Ho. apply list_elem_of_here.
Qed.

(** [unobserve(all)] *)
Lemma unobserve_inv (all : bool) (w w' : World) (r : Outcome unit) :
  unobserve all w = (r, w') ->
  shrinks (id (this w)) w w'
  /\ slots (this w') =
     List.filter (fun s => negb (isStale all (version (this w)) s)) (slots (this w))
  /\ (forall o,
        o ∉ map fst (List.filter (isStale all (version (this w))) (slots (this w))) ->
        subs w' o = subs w o)
  /\ (r = Return tt ->
      forall s, s ∈ slots (this w) -> isStale all (version (this w)) s = true ->
                id (this w) ∉ subs w' (fst s)).
Proof.
  unfold unobserve, andThen, getThis, modifyThis. intros E.
  destruct (release_loop _ _ _ _ _ E) as (S & Hs & Hne & Hr).
  split; [| split; [| split]].
  - eapply shrinks_trans; [| exact S].
    apply same_subs_shrinks; [apply with_this_slots_step | reflexivity].
  - destruct Hs as (_ & _ & -> & _). reflexivity.
  - intros o Ho. rewrite (Hne _ Ho). reflexivity.
  - intros -> s Hs' Hstale. apply (Hr eq_refl).
    apply list_elem_of_fmap. exists s. split; [reflexivity |].
    apply list_elem_of_In, filter_In. split; [apply list_elem_of_In; exact Hs' | exact Hstale].
Qed.

(** ** [handleChange] *)

Lemma isBound_false (b : Binding) :
  isBound b = false <-> (band (state b) 4 =? 0) = true.
Proof. unfold isBound, truthy. rewrite negb_false_iff. reflexivity. Qed.

Lemma isBound_true (b : Binding) :
  isBound b = true <-> (band (state b) 4 =? 0) = false.
Proof. unfold isBound, truthy. rewrite negb_true_iff. reflexivity. Qed.

Lemma interceptor_updateTarget_run (v : value) (fl : Z) (o : nat) (w : World) :
  targetObserver (this w) = Some o ->
  interceptor_updateTarget v fl w =
  (Return tt,
   with_heap (insert o v)
     (with_event (TargetSetValue o v (bor fl (persistentFlags (this w))))
        (with_event (InterceptorUpdateTarget v fl) w))).
Proof.
  intros Ho.
  unfold interceptor_updateTarget, updateTarget, theTargetObserver, andThen,
    getThis, log. simpl. rewrite Ho. reflexivity.
Qed.

Lemma interceptor_updateTarget_noTarget (v : value) (fl : Z) (w : World) :
  targetObserver (this w) = None ->
  interceptor_updateTarget v fl w =
  (Throw TypeError, with_event (InterceptorUpdateTarget v fl) w).
Proof.
  intros Ho.
  unfold interceptor_updateTarget, updateTarget, theTargetObserver, andThen,
    getThis, log. simpl. rewrite Ho. reflexivity.
Qed.

(** The target-update branch, split at the call of [updateTarget]. *)
Lemma handleChange_target (oneTime : Z) (nv pv : value) (fl : Z) (o : nat) (w : World) :
  isBound (this w) = true ->
  updatesTarget (bor fl (persistentFlags (this w))) = true ->
  targetObserver (this w) = Some o ->
  handleChange oneTime nv pv fl w =
  (if band (mode (this w)) oneTime =? 0
   then reconnect (bor fl (persistentFlags (this w))) else ret tt)
    (afterTargetUpdate nv (bor fl (persistentFlags (this w))) o w).
Proof.
  intros Hb Hf Ho. apply isBound_true in Hb. unfold updatesTarget in Hf.
  unfold handleChange, andThen, getThis. rewrite Hb, Hf.
  unfold theTargetObserver, andThen, getThis. rewrite Ho. simpl.
  unfold afterTargetUpdate, latestValue, targetValue, reevaluates.
  destruct (negb (kind (sourceExpression (this w)) =? 10082)
            || (observerSlots (this w) >? 1)); simpl.
  - destruct (strict_neq _ _).
    + rewrite (interceptor_updateTarget_run _ _ o) by exact Ho. reflexivity.
    + reflexivity.
  - destruct (strict_neq _ _).
    + rewrite (interceptor_updateTarget_run _ _ o) by exact Ho. reflexivity.
    + reflexivity.
Qed.

Lemma subscribed_subs (w : World) (o : nat) :
  subscribed w o <-> id (this w) ∈ subs w o.
Proof. reflexivity. Qed.

Lemma expr_connect_run (e : Expression) (fl : Z) (sc : option Scope)
    (p : option string) (w : World) :
  expr_connect e fl sc p w =
  forEach addObserver (dependencies e fl sc p (heap w))
          (with_event (ExprConnect fl sc p) w).
Proof. reflexivity. Qed.

Lemma expr_evaluate_run (e : Expression) (fl : Z) (sc : option Scope)
    (p : option string) (w : World) :
  expr_evaluate e fl sc p w =
  (Return (evaluate e fl sc p (heap w)), with_event (ExprEvaluate fl sc p) w).
Proof. reflexivity. Qed.

Lemma interceptor_unobserve_run (all : bool) (w : World) :
  interceptor_unobserve all w =
  unobserve all (with_event (InterceptorUnobserve all) w).
Proof. reflexivity. Qed.

Lemma reconnect_run (fl : Z) (w1 : World) :
  reconnect fl w1 =
  let b := this w1 in
  match forEach addObserver
          (dependencies (sourceExpression b) fl (scope b) (part b) (heap w1))
          (with_event (ExprConnect fl (scope b) (part b))
             (with_this (fun b => set_version (version b + 1) b) w1)) with
  | (Return _, w4) => unobserve false (with_event (InterceptorUnobserve false) w4)
  | (Throw e, w4) => (Throw e, w4)
  end.
Proof. reflexivity. Qed.

(** The second half of the target-update branch. *)
Lemma reconnect_inv (fl : Z) (w1 w' : World) (r : Outcome unit) :
  reconnect fl w1 = (r, w') ->
  let b := this w1 in
  let deps := dependencies (sourceExpression b) fl (scope b) (part b) (heap w1) in
  heap w' = heap w1
  /\ (exists tail,
        trace w' = trace w1 ++ ExprConnect fl (scope b) (part b) :: tail
        /\ (tail = [] \/ tail = [InterceptorUnobserve false])
        /\ (r = Return tt -> tail = [InterceptorUnobserve false]))
  /\ this w' = set_slots (slots (this w')) (set_version (version b + 1) b)
  /\ (forall o, caps (observerAt w' o) = caps (observerAt w1 o))
  /\ (r = Return tt ->
      slots (this w') =
        List.filter (fun s => negb (isStale false (version b + 1) s))
                    (touchAll deps (version b + 1) (slots b))
      /\ (forall o, o ∈ deps -> (o ∈ slotObservers b -> subscribed w1 o) ->
                    subscribed w' o)
      /\ (forall o, o ∈ slotObservers b -> o ∉ deps ->
                    (forall s, s ∈ slots b -> snd s <> version b + 1) ->
                    ~ subscribed w' o)).
Proof.
  intros E b deps.
  rewrite reconnect_run in E. cbv zeta in E. fold b in E. fold deps in E.
  set (w3 := with_event (ExprConnect fl (scope b) (part b))
               (with_this (fun b => set_version (version b + 1) b) w1)) in *.
  destruct (forEach addObserver deps w3) as [[[]|e] w4] eqn:E3.
  - set (w5 := with_event (InterceptorUnobserve false) w4) in *.
    destruct (connect_loop _ _ _ _ E3) as (G3 & Hne3 & Hr3).
    destruct (Hr3 eq_refl) as (Hsl3 & Hin3). clear Hr3.
    destruct G3 as (S3 & Hmono3 & _).
    destruct (slots_step_fields _ _ S3) as (Hid3 & Hver3 & _).
    destruct (unobserve_inv _ _ _ _ E) as (S5 & Hsl5 & Hne5 & Hr5).
    destruct S5 as (S5 & _ & _).
    destruct (slots_step_fields _ _ S5) as (Hid5 & _).
    assert (Hh : heap w' = heap w1).
    { destruct S5 as (K5 & _). destruct S3 as (K3 & _).
      rewrite K5. change (heap w5) with (heap w4). rewrite K3. reflexivity. }
    assert (Ht : trace w' = trace w4 ++ [InterceptorUnobserve false]).
    { destruct S5 as (_ & -> & _). reflexivity. }
    assert (Hthis : this w' = set_slots (slots (this w')) (set_version (version b + 1) b)).
    { destruct S5 as (_ & _ & K5 & _). destruct S3 as (_ & _ & K3 & _).
      rewrite K5 at 1. change (this w5) with (this w4). rewrite K3. reflexivity. }
    assert (Hcaps : forall o, caps (observerAt w' o) = caps (observerAt w1 o)).
    { intros o. destruct S5 as (_ & _ & _ & K5). destruct S3 as (_ & _ & _ & K3).
      rewrite K5. change (observerAt w5 o) with (observerAt w4 o). apply K3. }
    change (slots (this w5)) with (slots (this w4)) in *.
    change (version (this w5)) with (version (this w4)) in *.
    change (id (this w5)) with (id (this w4)) in *.
    change (version (this w3)) with (version b + 1) in *.
    change (slots (this w3)) with (slots b) in *.
    change (id (this w3)) with (id b) in *.
    rewrite Hver3, Hsl3 in Hsl5, Hne5, Hr5.
    split; [exact Hh |]. split.
    { exists [InterceptorUnobserve false]. split; [| auto].
      rewrite Ht. destruct S3 as (_ & -> & _). simpl.
      rewrite <- app_assoc. reflexivity. }
    split; [exact Hthis |]. split; [exact Hcaps |].
    intros ->. split; [exact Hsl5 |]. split.
    + intros o Ho Hsub. unfold subscribed.
      change (observerAt w' o) with (observerAt w' o).
      fold (subs w' o). rewrite Hne5.
      * rewrite Hid5. change (id (this w5)) with (id (this w4)). rewrite Hid3.
        change (subs w5 o) with (subs w4 o).
        destruct (decide (o ∈ map fst (slots b))) as [Hold|Hnew].
        -- apply Hmono3. apply Hsub. exact Hold.
        -- apply Hin3; assumption.
      * intros K. apply list_elem_of_fmap in K. destruct K as ([o1 v1] & Ho1 & K).
        simpl in Ho1. subst o1.
        apply list_elem_of_In, filter_In in K. destruct K as [K Hst].
        apply list_elem_of_In in K.
        destruct (touchAll_elem _ _ _ _ _ K) as [[_ ->]|[Hnd _]]; [| contradiction].
        unfold isStale in Hst. simpl in Hst. rewrite Z.eqb_refl in Hst. discriminate.
    + intros o Hold Hnd Hver. unfold subscribed.
      assert (K : o ∈ map fst (touchAll deps (version b + 1) (slots b))).
      { apply touchAll_fst. left. exact Hold. }
      apply list_elem_of_fmap in K. destruct K as ([o1 v1] & Ho1 & K).
      simpl in Ho1. subst o1.
      rewrite Hid5. change (id (this w5)) with (id (this w4)).
      rewrite <- Hsl3 in K.
      rewrite <- Hsl3 in Hr5.
      specialize (Hr5 eq_refl (o, v1) K). simpl in Hr5. apply Hr5.
      rewrite Hsl3 in K.
      destruct (touchAll_elem _ _ _ _ _ K) as [[Hd _]|[_ Hl]]; [contradiction |].
      unfold isStale. simpl. apply negb_true_iff, Z.eqb_neq.
      apply (Hver _ Hl).
  - injection E as <- <-.
    destruct (connect_loop _ _ _ _ E3) as (G3 & _ & _).
    destruct G3 as ((Hh & Ht & Hthis & Hcaps) & _).
    split; [exact Hh |]. split.
    { exists []. split; [rewrite Ht; reflexivity | split; [auto | discriminate]]. }
    split; [exact Hthis |]. split; [exact Hcaps | discriminate].
Qed.

Lemma newEvents_app (w w' : World) (evs : list Event) :
  trace w' = trace w ++ evs -> newEvents w w' = evs.
Proof. intros H. unfold newEvents. rewrite H. apply drop_app_length. Qed.

Lemma newEvents_same (w : World) : newEvents w w = [].
Proof. apply newEvents_app. symmetry. apply app_nil_r. Qed.

(** The first half of the target-update branch, field by field. *)
Lemma afterTargetUpdate_inv (nv : value) (fl : Z) (o : nat) (w : World) :
  let b := this w in
  let v := latestValue nv fl w in
  let changed := strict_neq v (targetValue w o) in
  let w1 := afterTargetUpdate nv fl o w in
  this w1 = b /\ observers w1 = observers w
  /\ heap w1 = (if changed then <[o := v]> (heap w) else heap w)
  /\ trace w1 =
       trace w
       ++ (if reevaluates b then [ExprEvaluate fl (scope b) (part b)] else [])
       ++ (if changed
           then [InterceptorUpdateTarget v fl;
                 TargetSetValue o v (bor fl (persistentFlags b))]
           else []).
Proof.
  cbv zeta. unfold afterTargetUpdate.
  destruct (reevaluates (this w)), (strict_neq _ _); simpl;
    rewrite <- ?app_assoc, ?app_nil_r; auto.
Qed.

(** What the target-update branch of [handleChange] calls and leaves in the
    heap, whatever the outcome. *)
Lemma handleChange_target_events (oneTime : Z) (nv pv : value) (fl : Z) (o : nat)
    (w w' : World) (r : Outcome unit) :
  isBound (this w) = true ->
  updatesTarget (bor fl (persistentFlags (this w))) = true ->
  targetObserver (this w) = Some o ->
  handleChange oneTime nv pv fl w = (r, w') ->
  let b := this w in
  let fl' := bor fl (persistentFlags b) in
  let v := latestValue nv fl' w in
  let changed := strict_neq v (targetValue w o) in
  heap w' = (if changed then <[o := v]> (heap w) else heap w)
  /\ exists tail,
       newEvents w w' =
         (if reevaluates b then [ExprEvaluate fl' (scope b) (part b)] else [])
         ++ (if changed
             then [InterceptorUpdateTarget v fl';
                   TargetSetValue o v (bor fl' (persistentFlags b))]
             else [])
         ++ (if band (mode b) oneTime =? 0
             then ExprConnect fl' (scope b) (part b) :: tail else [])
       /\ (tail = [] \/ tail = [InterceptorUnobserve false])
       /\ (r = Return tt -> tail = [InterceptorUnobserve false]).
Proof.
  intros Hb Hf Ho E. cbv zeta.
  rewrite (handleChange_target _ _ _ _ o) in E by assumption.
  destruct (afterTargetUpdate_inv nv (bor fl (persistentFlags (this w))) o w)
    as (Hthis & _ & Hheap & Htrace).
  cbv zeta in Hthis, Hheap, Htrace.
  set (w1 := afterTargetUpdate nv (bor fl (persistentFlags (this w))) o w) in *.
  destruct (band (mode (this w)) oneTime =? 0).
  - destruct (reconnect_inv _ _ _ _ E) as (Hh & (tail & Ht & Hcase & Hret) & _).
    split; [rewrite Hh; exact Hheap |].
    exists tail. split; [| auto].
    apply newEvents_app. rewrite Ht, Htrace, Hthis, <- !app_assoc. reflexivity.
  - injection E as <- <-.
    split; [exact Hheap |].
    exists [InterceptorUnobserve false]. split; [| auto].
    apply newEvents_app. rewrite Htrace, app_nil_r. reflexivity.
Qed.


(** ** [handleChange]: when the target is written *)

(** C9: while the binding is not in the bound state, [handleChange] returns
    at once and changes nothing: no evaluation of the source expression, no
    write to the target, no assignment to the source (the world, including
    the record of calls, is the same). *)
Theorem handleChange_unbound_noop (oneTime : Z) (newValue previousValue : value)
    (flags : Z) (w : World) :
  isBound (this w) = false ->
  handleChange oneTime newValue previousValue flags w = (Return tt, w).
Proof.
  intros Hb. apply isBound_false in Hb.
  unfold handleChange, andThen, getThis. rewrite Hb. reflexivity.
Qed.

Lemma handleChange_unbound_noop_witness :
  isBound (this (Samples.fresh 2)) = false
  /\ handleChange 1 (VNumber 6) (VNumber 5) 16 (Samples.fresh 2)
     = (Return tt, Samples.fresh 2).
Proof.
  split; [reflexivity |].
  apply (handleChange_unbound_noop 1 (VNumber 6) (VNumber 5) 16 (Samples.fresh 2)).
  reflexivity.
Defined.

(** C1: in the target-update direction a bound binding calls [updateTarget]
    exactly when the new value (re-evaluated where [handleChange] re-evaluates
    it) is [!==] the value the target observer returns, and then with that
    value; otherwise the target keeps its value.  And
    [CollectionLengthObserver.setValue] calls its subscribers exactly when the
    new value is [!==] the stored [currentValue]. *)
Theorem target_updated_iff_value_differs
    (oneTime : Z) (newValue previousValue : value) (flags : Z) (o : nat)
    (w w' : World) (r : Outcome unit)
    (clo : CollectionLengthObserver.t) (cloValue : value) (cloFlags : Z) :
  isBound (this w) = true ->
  updatesTarget (bor flags (persistentFlags (this w))) = true ->
  targetObserver (this w) = Some o ->
  handleChange oneTime newValue previousValue flags w = (r, w') ->
  let flags' := bor flags (persistentFlags (this w)) in
  let v := latestValue newValue flags' w in
  let changed := strict_neq v (targetValue w o) in
  (existsb isUpdateTarget (newEvents w w') = changed
   /\ List.filter isUpdateTarget (newEvents w w') =
        (if changed then [InterceptorUpdateTarget v flags'] else [])
   /\ List.filter isSetValue (newEvents w w') =
        (if changed
         then [TargetSetValue o v (bor flags' (persistentFlags (this w)))]
         else [])
   /\ targetValue w' o = (if changed then v else targetValue w o)
   /\ (changed = false -> heap w' = heap w))
  /\ (let differs :=
        strict_neq cloValue (CollectionLengthObserver.currentValue clo) in
      snd (CollectionLengthObserver.setValue cloValue cloFlags clo) =
        (if differs
         then [ {| CollectionLengthObserver.n_newValue := cloValue;
                   CollectionLengthObserver.n_previousValue :=
                     CollectionLengthObserver.currentValue clo;
                   CollectionLengthObserver.n_flags := bor cloFlags 16 |} ]
         else [])
      /\ fst (CollectionLengthObserver.setValue cloValue cloFlags clo) =
           (if differs
            then {| CollectionLengthObserver.obj_length :=
                      CollectionLengthObserver.obj_length clo;
                    CollectionLengthObserver.currentValue := cloValue |}
            else clo)).
Proof.
  intros Hb Hf Ho E. cbv zeta. split.
  - destruct (handleChange_target_events _ _ _ _ _ _ _ _ Hb Hf Ho E)
      as (Hheap & tail & Hev & Hcase & _).
    cbv zeta in Hheap, Hev. rewrite Hev.
    assert (Htgt : targetValue w' o =
                   if strict_neq (latestValue newValue (bor flags (persistentFlags (this w))) w)
                                 (targetValue w o)
                   then latestValue newValue (bor flags (persistentFlags (this w))) w
                   else targetValue w o).
    { unfold targetValue at 1. rewrite Hheap.
      destruct (strict_neq _ _); [| reflexivity].
      rewrite lookup_insert_eq. reflexivity. }
    destruct (reevaluates (this w)), (strict_neq _ _),
      (band (mode (this w)) oneTime =? 0), Hcase as [-> | ->]; simpl;
      repeat split; auto; discriminate.
  - unfold CollectionLengthObserver.setValue.
    destruct (strict_neq cloValue _); split; reflexivity.
Qed.

Lemma target_updated_iff_value_differs_witness :
  existsb isUpdateTarget
    (newEvents Samples.boundToView
       (snd (handleChange 1 (VNumber 5) (VNumber 4) 16 Samples.boundToView)))
  = true
  /\ snd (CollectionLengthObserver.setValue (VNumber 3) 0
            (CollectionLengthObserver.new (VNumber 2))) <> [].
Proof.
  destruct (target_updated_iff_value_differs 1 (VNumber 5) (VNumber 4) 16 11
              Samples.boundToView _ _
              (CollectionLengthObserver.new (VNumber 2)) (VNumber 3) 0
              eq_refl eq_refl eq_refl (surjective_pairing _))
    as [[H _] [K _]].
  split; [exact H |].
  rewrite K. discriminate.
Defined.

(** ** Subscriptions across a whole method *)

Lemma subs_shrink_same (i : nat) (w w' : World) :
  observers w' = observers w -> subs_shrink i w w'.
Proof.
  intros H. unfold subs_shrink, subs, observerAt. rewrite H. auto.
Qed.

Lemma subs_grow_same (i : nat) (w w' : World) :
  observers w' = observers w -> subs_grow i w w'.
Proof.
  intros H. unfold subs_grow, subs, observerAt. rewrite H. auto.
Qed.

Lemma subs_shrink_trans (i : nat) (w1 w2 w3 : World) :
  subs_shrink i w1 w2 -> subs_shrink i w2 w3 -> subs_shrink i w1 w3.
Proof.
  intros (H1 & H2 & H3) (K1 & K2 & K3). split; [| split]; eauto.
  intros o. rewrite K1. apply H1.
Qed.

Lemma subs_grow_trans (i : nat) (w1 w2 w3 : World) :
  subs_grow i w1 w2 -> subs_grow i w2 w3 -> subs_grow i w1 w3.
Proof.
  intros (H1 & H2 & H3) (K1 & K2 & K3). split; [| split]; eauto.
  intros o. rewrite K1. apply H1.
Qed.

Lemma shrinks_subs_shrink (i : nat) (w w' : World) :
  shrinks i w w' -> subs_shrink i w w'.
Proof. intros ((_ & _ & _ & H) & K1 & K2). split; auto. Qed.

Lemma grows_subs_grow (i : nat) (w w' : World) :
  grows i w w' -> subs_grow i w w'.
Proof. intros ((_ & _ & _ & H) & K1 & K2). split; auto. Qed.

(** A shrinking step never makes the binding a subscriber; a growing step
    never removes it. *)
Lemma subs_shrink_not_subscribed (i : nat) (w w' : World) (o : nat) :
  subs_shrink i w w' -> i ∉ subs w o -> i ∉ subs w' o.
Proof. intros (_ & H & _) Hn K. apply Hn, H, K. Qed.

Lemma subs_grow_subscribed (i : nat) (w w' : World) (o : nat) :
  subs_grow i w w' -> i ∈ subs w o -> i ∈ subs w' o.
Proof. intros (_ & H & _) K. apply H, K. Qed.

Lemma caps_has_unsubscribe (a b : Observer) :
  caps a = caps b -> has_unsubscribe a = has_unsubscribe b.
Proof. unfold caps. intros [= _ _ _ H]. exact H. Qed.

Lemma caps_has_subscribe (a b : Observer) :
  caps a = caps b -> has_subscribe a = has_subscribe b.
Proof. unfold caps. intros [= _ _ H _]. exact H. Qed.

(** ** [$unbind] *)

(** Runs the store primitives of a method body. *)

Ltac run :=
  repeat (progress (
    cbv beta iota zeta delta
      [andThen ret throw getThis getHeap modifyThis modifyHeap log
       getObserverAt theTargetObserver
       with_this with_heap with_event
       set_state set_scope set_part set_targetObserver set_persistentFlags
       set_version set_slots];
    cbn [this heap trace observers
         id sourceExpression target targetProperty mode observerLocator state
         scope part targetObserver persistentFlags version slots
         negb fst snd])).

Lemma dollar_unbind_unbound (fl : Z) (w : World) :
  isBound (this w) = false -> dollar_unbind fl w = (Return tt, w).
Proof.
  intros Hb. unfold dollar_unbind, andThen, getThis.
  fold (isBound (this w)). rewrite Hb. reflexivity.
Qed.

Lemma dollar_unbind_run (fl : Z) (o : nat) (w : World) :
  isBound (this w) = true ->
  targetObserver (this w) = Some o ->
  dollar_unbind fl w = unbindRest o (unbindPrefix fl o w).
Proof.
  intros Hb Ho. unfold dollar_unbind, andThen at 1, getThis at 1.
  fold (isBound (this w)). rewrite Hb. simpl negb. cbv iota.
  unfold unbindPrefix, unbindRest, observerAt. run.
  destruct (hasUnbind (sourceExpression (this w))); run; rewrite Ho; run;
    unfold observerAt; run;
    destruct (has_unbind (default newObserver (observers w !! o)));
    repeat (first [progress run | progress unfold observerAt | rewrite Ho]);
    reflexivity.
Qed.

Lemma dollar_unbind_noTarget (fl : Z) (w : World) :
  isBound (this w) = true ->
  targetObserver (this w) = None ->
  exists w', dollar_unbind fl w = (Throw TypeError, w')
             /\ scope (this w') = None /\ state (this w') = bor (state (this w)) 2
             /\ targetObserver (this w') = None
             /\ slots (this w') = slots (this w).
Proof.
  intros Hb Ho. unfold dollar_unbind, andThen at 1, getThis at 1.
  fold (isBound (this w)). rewrite Hb. simpl negb. cbv iota.
  run.
  destruct (hasUnbind (sourceExpression (this w))); run; rewrite Ho;
    eexists; (split; [reflexivity |]); simpl; auto.
Qed.

Lemma filter_none {A : Type} (l : list A) : List.filter (fun _ => false) l = [].
Proof. induction l; simpl; auto. Qed.

(** The release of the target subscription in [$unbind]. *)
Lemma target_release_inv (o : nat) (w4 w6 : World) (r : Outcome unit) :
  has_unsubscribe (observerAt w4 o) = true ->
  (target_unsubscribe o ;;; let* b := getThis in clearIdFlag o (id b) 32) w4 = (r, w6) ->
  r = Return tt /\ heap w6 = heap w4 /\ this w6 = this w4
  /\ trace w6 = trace w4 ++ [TargetUnsubscribe o]
  /\ subs_shrink (id (this w4)) w4 w6
  /\ id (this w4) ∉ subs w6 o.
Proof.
  intros Hcap E.
  unfold target_unsubscribe in E.
  unfold andThen, log, getThis in E. cbv beta iota in E.
  set (w5 := with_event (TargetUnsubscribe o) w4) in *.
  destruct (unsubscribe o (id (this w5)) w5) as [r1 w5'] eqn:E1.
  destruct (unsubscribe_inv _ _ _ _ _ E1) as (Hs1 & _ & _ & _ & Hout1 & Hcase).
  pose proof (unsubscribe_shrinks _ _ _ _ _ E1) as S1.
  destruct Hcase as [[-> _]|(_ & _ & K)].
  2:{ change (observerAt w5 o) with (observerAt w4 o) in K. congruence. }
  destruct (clearIdFlag_inv o (id (this w5')) 32 w5') as (w6' & E2 & Hs2 & Hsub2).
  rewrite E2 in E. injection E as <- <-.
  destruct Hs1 as (Hh1 & Ht1 & Hthis1 & Hc1).
  destruct Hs2 as (Hh2 & Ht2 & Hthis2 & Hc2).
  split; [reflexivity |].
  split; [rewrite Hh2, Hh1; reflexivity |].
  split; [rewrite Hthis2, Hthis1; reflexivity |].
  split; [rewrite Ht2, Ht1; reflexivity |].
  split.
  - apply (subs_shrink_trans _ w4 w5' w6' (shrinks_subs_shrink _ _ _ S1)).
    split; [exact Hc2 |]. split; intros o' j; rewrite Hsub2; auto.
  - rewrite Hsub2. apply Hout1. reflexivity.
Qed.

Lemma unbindRest_run (o : nat) (w4 : World) :
  unbindRest o w4 =
  match (if has_unsubscribe (observerAt w4 o)
         then target_unsubscribe o ;;; let* b := getThis in clearIdFlag o (id b) 32
         else ret tt) w4 with
  | (Return _, w6) =>
      match unobserve true (with_event (InterceptorUnobserve true) w6) with
      | (Return _, w7) =>
          (Return tt,
           with_this (fun b => set_state (band (state b) (bnot (bor 4 2))) b) w7)
      | (Throw e, w7) => (Throw e, w7)
      end
  | (Throw e, w6) => (Throw e, w6)
  end.
Proof. reflexivity. Qed.

(** The second half of [$unbind]. *)
Lemma unbindRest_inv (o : nat) (w4 w' : World) (r : Outcome unit) :
  unbindRest o w4 = (r, w') ->
  heap w' = heap w4
  /\ subs_shrink (id (this w4)) w4 w'
  /\ (r = Return tt ->
      this w' = set_state (band (state (this w4)) (bnot (bor 4 2)))
                          (set_slots [] (this w4))
      /\ trace w' =
           trace w4
           ++ (if has_unsubscribe (observerAt w4 o) then [TargetUnsubscribe o] else [])
           ++ [InterceptorUnobserve true]
      /\ (has_unsubscribe (observerAt w4 o) = true -> id (this w4) ∉ subs w' o)
      /\ (forall o', o' ∈ slotObservers (this w4) -> id (this w4) ∉ subs w' o')).
Proof.
  rewrite unbindRest_run. intros E.
  assert (Hfirst : exists w6,
    (if has_unsubscribe (observerAt w4 o)
     then target_unsubscribe o ;;; let* b := getThis in clearIdFlag o (id b) 32
     else ret tt) w4 = (Return tt, w6)
    /\ heap w6 = heap w4 /\ this w6 = this w4
    /\ trace w6 = trace w4
                  ++ (if has_unsubscribe (observerAt w4 o) then [TargetUnsubscribe o] else [])
    /\ subs_shrink (id (this w4)) w4 w6
    /\ (has_unsubscribe (observerAt w4 o) = true -> id (this w4) ∉ subs w6 o)).
  { destruct (has_unsubscribe (observerAt w4 o)) eqn:Hcap.
    - destruct ((target_unsubscribe o ;;; let* b := getThis in clearIdFlag o (id b) 32) w4)
        as [r6 w6] eqn:E6.
      destruct (target_release_inv _ _ _ _ Hcap E6) as (-> & H1 & H2 & H3 & H4 & H5).
      exists w6. auto 10.
    - exists w4. split; [reflexivity |].
      rewrite app_nil_r.
      repeat split; auto; try discriminate; apply subs_shrink_same; reflexivity. }
  destruct Hfirst as (w6 & E6 & Hh6 & Hthis6 & Ht6 & S6 & Hout6).
  rewrite E6 in E.
  set (w6e := with_event (InterceptorUnobserve true) w6) in *.
  destruct (unobserve true w6e) as [r7 w7] eqn:E7.
  destruct (unobserve_inv _ _ _ _ E7) as (S7 & Hsl7 & _ & Hr7).
  pose proof (shrinks_subs_shrink _ _ _ S7) as SS7.
  destruct S7 as ((Hh7 & Ht7 & Hthis7 & _) & _).
  change (id (this w6e)) with (id (this w6)) in *.
  change (slots (this w6e)) with (slots (this w6)) in *.
  change (version (this w6e)) with (version (this w6)) in *.
  change (heap w6e) with (heap w6) in *.
  change (this w6e) with (this w6) in *.
  rewrite Hthis6 in *.
  assert (SS : subs_shrink (id (this w4)) w4 w7).
  { eapply subs_shrink_trans; [exact S6 |]. exact SS7. }
  destruct r7 as [[]|e]; injection E as <- <-.
  - split; [simpl; congruence |].
    split; [exact SS |].
    intros _. split; [| split; [| split]].
    + simpl. rewrite Hthis7, Hsl7.
      unfold isStale. simpl. rewrite filter_none. reflexivity.
    + simpl. rewrite Ht7. unfold w6e. simpl. rewrite Ht6, <- app_assoc. reflexivity.
    + intros Hcap. simpl. eapply subs_shrink_not_subscribed; [exact SS7 |].
      apply Hout6. exact Hcap.
    + intros o' Ho'. apply list_elem_of_fmap in Ho'.
      destruct Ho' as (s & -> & Hs).
      apply (Hr7 eq_refl s Hs). reflexivity.
  - split; [congruence |]. split; [exact SS | discriminate].
Qed.

Lemma unbindPrefix_inv (fl : Z) (o : nat) (w : World) :
  let b := this w in
  let w4 := unbindPrefix fl o w in
  this w4 = set_scope None (set_persistentFlags 0 (set_state (bor (state b) 2) b))
  /\ heap w4 = heap w /\ observers w4 = observers w
  /\ trace w4 =
       trace w
       ++ (if hasUnbind (sourceExpression b) then [ExprUnbind fl (scope b)] else [])
       ++ (if has_unbind (observerAt w o) then [TargetUnbind o fl] else []).
Proof.
  cbv zeta. unfold unbindPrefix.
  destruct (hasUnbind (sourceExpression (this w))), (has_unbind (observerAt w o));
    simpl; rewrite <- ?app_assoc, ?app_nil_r; auto.
Qed.

(** [$unbind] on a bound binding, when it returns. *)
Lemma dollar_unbind_inv (fl : Z) (w w' : World) :
  isBound (this w) = true ->
  dollar_unbind fl w = (Return tt, w') ->
  exists o,
    targetObserver (this w) = Some o
    /\ this w' =
         set_state (band (bor (state (this w)) 2) (bnot (bor 4 2)))
           (set_slots []
              (set_scope None (set_persistentFlags 0 (this w))))
    /\ heap w' = heap w
    /\ subs_shrink (id (this w)) w w'
    /\ trace w' =
         trace w
         ++ (if hasUnbind (sourceExpression (this w))
             then [ExprUnbind fl (scope (this w))] else [])
         ++ (if has_unbind (observerAt w o) then [TargetUnbind o fl] else [])
         ++ (if has_unsubscribe (observerAt w o) then [TargetUnsubscribe o] else [])
         ++ [InterceptorUnobserve true]
    /\ (has_unsubscribe (observerAt w o) = true -> ~ subscribed w' o)
    /\ (forall o', o' ∈ slotObservers (this w) -> ~ subscribed w' o').
Proof.
  intros Hb E.
  destruct (targetObserver (this w)) as [o|] eqn:Ho.
  2:{ destruct (dollar_unbind_noTarget fl w Hb Ho) as (w1 & E1 & _). congruence. }
  exists o. split; [reflexivity |].
  rewrite (dollar_unbind_run _ o) in E by assumption.
  destruct (unbindPrefix_inv fl o w) as (Hthis4 & Hh4 & Hobs4 & Ht4).
  cbv zeta in Hthis4, Hh4, Hobs4, Ht4.
  set (w4 := unbindPrefix fl o w) in *.
  destruct (unbindRest_inv _ _ _ _ E) as (Hh & SS & Hr).
  destruct (Hr eq_refl) as (Hthis & Ht & Hout & Hslots). clear Hr.
  assert (Hid : id (this w4) = id (this w)) by (rewrite Hthis4; reflexivity).
  assert (Hoa : forall x, observerAt w4 x = observerAt w x).
  { intros x. unfold observerAt. rewrite Hobs4. reflexivity. }
  assert (Hidw' : id (this w') = id (this w)) by (rewrite Hthis, Hthis4; reflexivity).
  rewrite Hid in *. rewrite Hoa in *.
  split; [rewrite Hthis, Hthis4; reflexivity |].
  split; [congruence |].
  split.
  { eapply subs_shrink_trans; [| exact SS]. apply subs_shrink_same. exact Hobs4. }
  split.
  { rewrite Ht, Ht4, <- !app_assoc. reflexivity. }
  split.
  - intros Hcap. unfold subscribed. rewrite Hidw'. apply Hout. exact Hcap.
  - intros o' Ho'. unfold subscribed. rewrite Hidw'. apply Hslots.
    unfold slotObservers. rewrite Hthis4. exact Ho'.
Qed.


(** ** [$bind] *)

Lemma andThen_getThis {B} (k : Binding -> M B) (w : World) :
  andThen getThis k w = k (this w) w.
Proof. reflexivity. Qed.
Lemma andThen_getHeap {B} (k : Heap -> M B) (w : World) :
  andThen getHeap k w = k (heap w) w.
Proof. reflexivity. Qed.
Lemma andThen_getObserverAt {B} (o : nat) (k : Observer -> M B) (w : World) :
  andThen (getObserverAt o) k w = k (observerAt w o) w.
Proof. reflexivity. Qed.
Lemma andThen_modifyThis {B} (f : Binding -> Binding) (k : unit -> M B) (w : World) :
  andThen (modifyThis f) k w = k tt (with_this f w).
Proof. reflexivity. Qed.
Lemma andThen_modifyHeap {B} (f : Heap -> Heap) (k : unit -> M B) (w : World) :
  andThen (modifyHeap f) k w = k tt (with_heap f w).
Proof. reflexivity. Qed.
Lemma andThen_log {B} (e : Event) (k : unit -> M B) (w : World) :
  andThen (log e) k w = k tt (with_event e w).
Proof. reflexivity. Qed.
Lemma andThen_ret {A B} (a : A) (k : A -> M B) (w : World) :
  andThen (ret a) k w = k a w.
Proof. reflexivity. Qed.
Lemma andThen_assoc {A B C} (m : M A) (f : A -> M B) (k : B -> M C) (w : World) :
  andThen (andThen m f) k w = andThen m (fun a => andThen (f a) k) w.
Proof. unfold andThen. destruct (m w) as [[a|e] w1]; reflexivity. Qed.

Lemma observerAt_with_this (f : Binding -> Binding) (w : World) (o : nat) :
  observerAt (with_this f w) o = observerAt w o.
Proof. reflexivity. Qed.
Lemma observerAt_with_event (e : Event) (w : World) (o : nat) :
  observerAt (with_event e w) o = observerAt w o.
Proof. reflexivity. Qed.
Lemma observerAt_with_heap (f : Heap -> Heap) (w : World) (o : nat) :
  observerAt (with_heap f w) o = observerAt w o.
Proof. reflexivity. Qed.

Ltac proj :=
  cbn [this heap trace observers with_this with_heap with_event
       id sourceExpression target targetProperty mode observerLocator state
       scope part targetObserver persistentFlags version slots
       set_state set_scope set_part set_targetObserver set_persistentFlags
       set_version set_slots];
  repeat first [ rewrite observerAt_with_this
               | rewrite observerAt_with_event
               | rewrite observerAt_with_heap ].

Ltac mstep :=
  first [ rewrite andThen_assoc
        | rewrite andThen_getThis
        | rewrite andThen_modifyThis
        | rewrite andThen_log
        | rewrite andThen_ret
        | rewrite andThen_getHeap
        | rewrite andThen_modifyHeap
        | rewrite andThen_getObserverAt ];
  cbv beta; proj.

Lemma bind_proceed_run (oneTime toView fromView : Z) (fl : Z) (sc : Scope)
    (p : option string) (w : World) :
  bind_proceed oneTime toView fromView fl sc p w =
  bindRest toView fromView (bor fl 4) sc p
    (bindTarget fromView (bor fl 4) (this w))
    (bindPrefix oneTime toView fromView (bor fl 4) sc p w).
Proof.
  unfold bind_proceed, bindRest, bindPrefix, bindTarget, includes,
    expr_evaluate, interceptor_updateTarget, updateTarget, theTargetObserver,
    target_setValue.
  cbv zeta. repeat mstep.
  destruct (hasBind (sourceExpression (this w))); repeat mstep;
    destruct (targetObserver (this w)) as [o|] eqn:Ho; cbv beta iota;
    repeat mstep;
    try (destruct (truthy (band (mode (this w)) fromView)); cbv beta iota;
         repeat mstep);
    repeat match goal with
    | |- context [if negb (?m =? ?x) && ?c then _ else _] =>
        destruct (negb (m =? x) && c)
    end; repeat mstep;
    destruct (truthy (band (mode (this w)) (toViewOrOneTime oneTime toView)));
    repeat (first [mstep | progress (rewrite ?Ho; cbv iota)]);
    reflexivity.
Qed.

Lemma bindRest_run (toView fromView : Z) (fl : Z) (sc : Scope)
    (p : option string) (o : nat) (w5 : World) :
  bindRest toView fromView fl sc p o w5 =
  match (if includes (mode (this w5)) toView
         then expr_connect (sourceExpression (this w5)) fl (Some sc) p
         else ret tt) w5 with
  | (Return _, w6) =>
      match (if includes (mode (this w6)) fromView
             then target_subscribe o ;;; let* b := getThis in orIdFlag o (id b) 32
             else ret tt) w6 with
      | (Return _, w7) =>
          (Return tt,
           with_this (fun b => set_state (band (state b) (bnot 1)) b)
             (with_this (fun b => set_state (bor (state b) 4) b) w7))
      | (Throw e, w7) => (Throw e, w7)
      end
  | (Throw e, w6) => (Throw e, w6)
  end.
Proof.
  unfold bindRest. rewrite andThen_getThis. unfold andThen at 1.
  destruct ((if includes (mode (this w5)) toView
             then expr_connect (sourceExpression (this w5)) fl (Some sc) p
             else ret tt) w5) as [[[]|e] w6]; [| reflexivity].
  rewrite andThen_getThis. unfold andThen at 1.
  destruct ((if includes (mode (this w6)) fromView
             then target_subscribe o ;;; let* b := getThis in orIdFlag o (id b) 32
             else ret tt) w6) as [[[]|e] w7]; reflexivity.
Qed.

(** The subscription to the target observer in [$bind]. *)
Lemma target_install_inv (o : nat) (w6 w7 : World) (r : Outcome unit) :
  (target_subscribe o ;;; let* b := getThis in orIdFlag o (id b) 32) w6 = (r, w7) ->
  heap w7 = heap w6 /\ this w7 = this w6
  /\ trace w7 = trace w6 ++ [TargetSubscribe o]
  /\ subs_grow (id (this w6)) w6 w7
  /\ (r = Return tt -> id (this w6) ∈ subs w7 o).
Proof.
  intros E.
  unfold target_subscribe in E.
  unfold andThen, log, getThis in E. cbv beta iota in E.
  set (w6e := with_event (TargetSubscribe o) w6) in *.
  destruct (subscribe o (id (this w6e)) w6e) as [r1 w6'] eqn:E1.
  destruct (subscribe_inv _ _ _ _ _ E1) as (Hs1 & _ & _ & _ & Hin1 & Hcase).
  pose proof (grows_subs_grow _ _ _ (subscribe_grows _ _ _ _ _ E1)) as G1.
  destruct Hs1 as (Hh1 & Ht1 & Hthis1 & Hc1).
  destruct Hcase as [[-> _]|(-> & -> & _)].
  - destruct (orIdFlag_inv o (id (this w6')) 32 w6') as (w7' & E2 & Hs2 & Hsub2).
    rewrite E2 in E. injection E as <- <-.
    destruct Hs2 as (Hh2 & Ht2 & Hthis2 & Hc2).
    split; [rewrite Hh2, Hh1; reflexivity |].
    split; [rewrite Hthis2, Hthis1; reflexivity |].
    split; [rewrite Ht2, Ht1; reflexivity |].
    split.
    + apply (subs_grow_trans _ w6 w6' w7' G1).
      split; [exact Hc2 |]. split; intros o' j; rewrite Hsub2; auto.
    + intros _. rewrite Hsub2. apply Hin1. reflexivity.
  - injection E as <- <-.
    split; [reflexivity |]. split; [reflexivity |]. split; [reflexivity |].
    split; [exact G1 | discriminate].
Qed.

Lemma set_state_set_slots (l : list (nat * Z)) (b : Binding) :
  set_state (state b) (set_slots l b) = set_slots l b.
Proof. destruct b; reflexivity. Qed.

(** The second half of [$bind]. *)
Lemma bindRest_inv (toView fromView : Z) (fl : Z) (sc : Scope)
    (p : option string) (o : nat) (w5 w' : World) (r : Outcome unit) :
  bindRest toView fromView fl sc p o w5 = (r, w') ->
  let b := this w5 in
  let deps := dependencies (sourceExpression b) fl (Some sc) p (heap w5) in
  heap w' = heap w5
  /\ subs_grow (id b) w5 w'
  /\ set_state (state b) (this w') = set_slots (slots (this w')) b
  /\ (r <> Return tt -> state (this w') = state b)
  /\ (r = Return tt ->
      state (this w') = band (bor (state b) 4) (bnot 1)
      /\ trace w' =
           trace w5
           ++ (if includes (mode b) toView then [ExprConnect fl (Some sc) p] else [])
           ++ (if includes (mode b) fromView then [TargetSubscribe o] else [])
      /\ slots (this w') =
           (if includes (mode b) toView
            then touchAll deps (version b) (slots b) else slots b)
      /\ (includes (mode b) toView = true ->
          forall o', o' ∈ deps ->
                     (o' ∈ slotObservers b -> id b ∈ subs w5 o') ->
                     id b ∈ subs w' o')
      /\ (includes (mode b) fromView = true -> id b ∈ subs w' o)).
Proof.
  rewrite bindRest_run. intros E b deps.
  (* connect *)
  assert (H6 : exists r6 w6,
    (if includes (mode b) toView
     then expr_connect (sourceExpression b) fl (Some sc) p else ret tt) w5 = (r6, w6)
    /\ heap w6 = heap w5
    /\ this w6 = set_slots (slots (this w6)) b
    /\ trace w6 = trace w5 ++ (if includes (mode b) toView
                               then [ExprConnect fl (Some sc) p] else [])
    /\ subs_grow (id b) w5 w6
    /\ (r6 = Return tt ->
        slots (this w6) = (if includes (mode b) toView
                           then touchAll deps (version b) (slots b) else slots b)
        /\ (includes (mode b) toView = true ->
            forall o', o' ∈ deps ->
                       (o' ∈ slotObservers b -> id b ∈ subs w5 o') ->
                       id b ∈ subs w6 o'))).
  { destruct (includes (mode b) toView).
    - rewrite expr_connect_run.
      set (w5e := with_event (ExprConnect fl (Some sc) p) w5).
      destruct (forEach addObserver (dependencies (sourceExpression b) fl (Some sc) p (heap w5)) w5e)
        as [r6 w6] eqn:E6.
      exists r6, w6. split; [reflexivity |].
      destruct (connect_loop _ _ _ _ E6) as (G & _ & Hr).
      pose proof (grows_subs_grow _ _ _ G) as SG.
      destruct G as ((Hh & Ht & Hthis & _) & Hmono & _).
      split; [exact Hh |]. split; [exact Hthis |]. split; [exact Ht |].
      split; [exact SG |].
      intros ->. destruct (Hr eq_refl) as (Hsl & Hin).
      split; [exact Hsl |].
      intros _ o' Ho' Hold.
      destruct (decide (o' ∈ map fst (slots b))) as [Hd|Hd].
      + apply Hmono. apply Hold. exact Hd.
      + apply Hin; assumption.
    - exists (Return tt), w5. split; [reflexivity |].
      rewrite app_nil_r, set_slots_same.
      repeat split; auto; discriminate. }
  destruct H6 as (r6 & w6 & E6 & Hh6 & Hthis6 & Ht6 & G6 & Hr6).
  fold b in E. rewrite E6 in E.
  assert (Hid6 : id (this w6) = id b) by (rewrite Hthis6; reflexivity).
  assert (Hmode6 : mode (this w6) = mode b) by (rewrite Hthis6; reflexivity).
  assert (Hst6 : state (this w6) = state b) by (rewrite Hthis6; reflexivity).
  destruct r6 as [[]|e6].
  2:{ injection E as <- <-.
      split; [exact Hh6 |]. split; [exact G6 |].
      split; [rewrite Hthis6 at 1; apply set_state_set_slots |].
      split; [intros _; exact Hst6 | discriminate]. }
  destruct (Hr6 eq_refl) as (Hsl6 & Hin6). clear Hr6.
  (* subscribe to the target observer *)
  assert (H7 : exists r7 w7,
    (if includes (mode (this w6)) fromView
     then target_subscribe o ;;; let* b := getThis in orIdFlag o (id b) 32
     else ret tt) w6 = (r7, w7)
    /\ heap w7 = heap w6 /\ this w7 = this w6
    /\ trace w7 = trace w6 ++ (if includes (mode b) fromView
                               then [TargetSubscribe o] else [])
    /\ subs_grow (id b) w6 w7
    /\ (r7 = Return tt -> includes (mode b) fromView = true -> id b ∈ subs w7 o)).
  { rewrite Hmode6. destruct (includes (mode b) fromView).
    - destruct ((target_subscribe o ;;; let* b := getThis in orIdFlag o (id b) 32) w6)
        as [r7 w7] eqn:E7.
      exists r7, w7. split; [reflexivity |].
      destruct (target_install_inv _ _ _ _ E7) as (K1 & K2 & K3 & K4 & K5).
      rewrite Hid6 in K4, K5. auto 10.
    - exists (Return tt), w6. split; [reflexivity |].
      rewrite app_nil_r. repeat split; auto; discriminate. }
  destruct H7 as (r7 & w7 & E7 & Hh7 & Hthis7 & Ht7 & G7 & Hr7).
  rewrite E7 in E.
  pose proof (subs_grow_trans _ _ _ _ G6 G7) as G.
  destruct r7 as [[]|e7]; injection E as <- <-.
  - split; [simpl; congruence |]. split; [exact G |].
    split; [simpl; rewrite Hthis7, Hthis6; reflexivity |].
    split; [congruence |].
    intros _. simpl. rewrite Hthis7, Hst6.
    split; [reflexivity |].
    split; [rewrite Ht7, Ht6, <- app_assoc; reflexivity |].
    split; [exact Hsl6 |].
    split.
    + intros Htv o' Ho' Hold.
      apply (subs_grow_subscribed _ _ _ _ G7). apply Hin6; assumption.
    + apply Hr7. reflexivity.
  - split; [congruence |]. split; [exact G |].
    split; [rewrite Hthis7; rewrite Hthis6 at 1; apply set_state_set_slots |].
    split; [intros _; rewrite Hthis7; exact Hst6 | discriminate].
Qed.

Lemma set_targetObserver_same (o : nat) (b : Binding) :
  targetObserver b = Some o -> set_targetObserver (Some o) b = b.
Proof. destruct b; simpl. intros ->. reflexivity. Qed.

Lemma bindPrefix_inv (oneTime toView fromView : Z) (fl : Z) (sc : Scope)
    (p : option string) (w : World) :
  let b := this w in
  let o := bindTarget fromView fl b in
  let v := evaluate (sourceExpression b) fl (Some sc) p (heap w) in
  let w5 := bindPrefix oneTime toView fromView fl sc p w in
  this w5 =
    set_targetObserver (Some o)
      (set_part p (set_scope (Some sc)
         (set_persistentFlags (band fl 2080374799)
            (set_state (bor (state b) 1) b))))
  /\ observers w5 = observers w
  /\ heap w5 = (if includes (mode b) (toViewOrOneTime oneTime toView)
                then <[o := v]> (heap w) else heap w)
  /\ trace w5 = trace w ++ bindPrefixEvents oneTime toView fromView fl sc p w.
Proof.
  cbv zeta. unfold bindPrefix, bindPrefixEvents, bindTarget.
  destruct w as [h obs [i e tg tp m loc st sc0 p0 [o|] pf ver sl] tr];
    cbn [this heap trace observers id sourceExpression target targetProperty
         mode observerLocator state scope part targetObserver persistentFlags
         version slots].
  - destruct (hasBind _), (negb _ && _), (includes m (toViewOrOneTime _ _));
      simpl; rewrite <- ?app_assoc, ?app_nil_r; auto.
  - destruct (hasBind _), (includes m fromView), (negb _ && _),
      (includes m (toViewOrOneTime _ _));
      simpl; rewrite <- ?app_assoc, ?app_nil_r; auto.
Qed.

Lemma this_shape (s1 : Z) (sc : Scope) (p : option string) (o : nat) (pf : Z)
    (b b' : Binding) :
  set_state s1 b' =
    set_slots (slots b')
      (set_targetObserver (Some o)
         (set_part p (set_scope (Some sc)
            (set_persistentFlags pf (set_state s1 b))))) ->
  b' = set_state (state b') (set_slots (slots b') (boundTo sc p o pf b)).
Proof.
  destruct b, b'. unfold boundTo. simpl. intros H.
  injection H as -> -> -> -> -> -> -> -> -> -> ->. reflexivity.
Qed.

(** [$bind] past the check of the bound state. *)
Lemma bind_proceed_inv (oneTime toView fromView : Z) (fl : Z) (sc : Scope)
    (p : option string) (w w' : World) (r : Outcome unit) :
  bind_proceed oneTime toView fromView fl sc p w = (r, w') ->
  let b := this w in
  let fl' := bor fl 4 in
  let o := bindTarget fromView fl' b in
  let v := evaluate (sourceExpression b) fl' (Some sc) p (heap w) in
  let initial := includes (mode b) (toViewOrOneTime oneTime toView) in
  let deps := dependencies (sourceExpression b) fl' (Some sc) p (heap w') in
  heap w' = (if initial then <[o := v]> (heap w) else heap w)
  /\ subs_grow (id b) w w'
  /\ this w' =
       set_state (state (this w'))
         (set_slots (slots (this w'))
            (boundTo sc p o (band fl' 2080374799) b))
  /\ (r <> Return tt -> state (this w') = bor (state b) 1)
  /\ (r = Return tt ->
      state (this w') = band (bor (bor (state b) 1) 4) (bnot 1)
      /\ trace w' =
           trace w
           ++ bindPrefixEvents oneTime toView fromView fl' sc p w
           ++ (if includes (mode b) toView then [ExprConnect fl' (Some sc) p] else [])
           ++ (if includes (mode b) fromView then [TargetSubscribe o] else [])
      /\ slots (this w') =
           (if includes (mode b) toView
            then touchAll deps (version b) (slots b) else slots b)
      /\ (includes (mode b) toView = true ->
          forall o', o' ∈ deps ->
                     (o' ∈ slotObservers b -> id b ∈ subs w o') ->
                     id b ∈ subs w' o')
      /\ (includes (mode b) fromView = true -> id b ∈ subs w' o)).
Proof.
  rewrite bind_proceed_run. intros E. cbv zeta.
  destruct (bindPrefix_inv oneTime toView fromView (bor fl 4) sc p w)
    as (Hthis5 & Hobs5 & Hh5 & Ht5).
  cbv zeta in Hthis5, Hobs5, Hh5, Ht5.
  set (o := bindTarget fromView (bor fl 4) (this w)) in *.
  set (w5 := bindPrefix oneTime toView fromView (bor fl 4) sc p w) in *.
  destruct (bindRest_inv _ _ _ _ _ _ _ _ _ E) as (Hh & G & Hshape & Hthrow & Hret).
  cbv zeta in Hh, G, Hshape, Hthrow, Hret.
  assert (Hid5 : id (this w5) = id (this w)) by (rewrite Hthis5; reflexivity).
  assert (Hmode5 : mode (this w5) = mode (this w)) by (rewrite Hthis5; reflexivity).
  assert (Hsl5 : slots (this w5) = slots (this w)) by (rewrite Hthis5; reflexivity).
  assert (Hver5 : version (this w5) = version (this w)) by (rewrite Hthis5; reflexivity).
  assert (Hexp5 : sourceExpression (this w5) = sourceExpression (this w))
    by (rewrite Hthis5; reflexivity).
  assert (Hst5 : state (this w5) = bor (state (this w)) 1) by (rewrite Hthis5; reflexivity).
  assert (Hsubs5 : forall x, subs w5 x = subs w x).
  { intros x. unfold subs, observerAt. rewrite Hobs5. reflexivity. }
  rewrite Hid5, Hmode5, Hsl5, Hver5, Hexp5, Hst5 in *.
  split; [rewrite Hh; exact Hh5 |].
  split.
  { eapply subs_grow_trans; [| exact G]. apply subs_grow_same. exact Hobs5. }
  split.
  { rewrite Hthis5 in Hshape.
    apply (this_shape (bor (state (this w)) 1)). exact Hshape. }
  split; [exact Hthrow |].
  intros Hr. destruct (Hret Hr) as (Hst & Ht & Hsl & Hin & Htgt).
  split; [exact Hst |].
  split; [rewrite Ht, Ht5, <- app_assoc; reflexivity |].
  split; [rewrite Hsl, Hh; reflexivity |].
  split.
  - intros Htv o' Ho' Hold. rewrite Hh in Ho'.
    apply Hin; [exact Htv | exact Ho' |].
    intros K. rewrite Hsubs5. apply Hold.
    unfold slotObservers in *. rewrite <- Hsl5. exact K.
  - exact Htgt.
Qed.

(** ** Flag words, continued: testing against a combination of flags *)

Lemma ToInt32_sign (z n : Z) :
  31 <= n -> Z.testbit (ToInt32 z) n = Z.testbit (ToInt32 z) 31.
Proof.
  intros Hn. unfold ToInt32. cbv zeta.
  pose proof (Z.mod_pos_bound z (2 ^ 32) ltac:(lia)) as Hm.
  set (m := z mod 2 ^ 32) in *.
  destruct (m <? 2 ^ 31) eqn:E.
  - apply Z.ltb_lt in E.
    rewrite <- (Z.mod_small m (2 ^ 31)) by lia.
    rewrite !Z.mod_pow2_bits_high by lia. reflexivity.
  - apply Z.ltb_ge in E.
    replace (m - 2 ^ 32) with (Z.lnot (2 ^ 32 - 1 - m)) by (unfold Z.lnot; lia).
    rewrite !Z.lnot_spec by lia.
    rewrite <- (Z.mod_small (2 ^ 32 - 1 - m) (2 ^ 31)) by lia.
    rewrite !Z.mod_pow2_bits_high by lia. reflexivity.
Qed.

Lemma band_zero_iff (x y : Z) :
  band x y = 0 <->
  forall i, 0 <= i < 32 -> Z.testbit x i && Z.testbit y i = false.
Proof.
  split.
  - intros H i Hi. rewrite <- band_testbit by lia. rewrite H. apply Z.bits_0.
  - intros H. unfold band. apply Z.bits_inj'. intros n Hn.
    rewrite Z.land_spec, Z.bits_0.
    destruct (Z_lt_le_dec n 32) as [Hlt|Hge].
    + rewrite !ToInt32_testbit by lia. apply H. lia.
    + rewrite (ToInt32_sign x n), (ToInt32_sign y n) by lia.
      rewrite !ToInt32_testbit by lia. apply H. lia.
Qed.

Lemma truthy_false_iff (z : Z) : truthy z = false <-> z = 0.
Proof. unfold truthy. rewrite negb_false_iff. apply Z.eqb_eq. Qed.

(** [m & (a | b)] is non-zero exactly when [m & a] or [m & b] is. *)
Lemma includes_bor (m a b : Z) :
  includes m (bor a b) = includes m a || includes m b.
Proof.
  unfold includes.
  destruct (truthy (band m a)) eqn:Ea, (truthy (band m b)) eqn:Eb; simpl.
  1-3: destruct (truthy (band m (bor a b))) eqn:E; [reflexivity | exfalso];
       apply truthy_false_iff in E;
       pose proof (proj1 (band_zero_iff _ _) E) as K.
  - assert (Ha : band m a <> 0) by (intros Z0; apply truthy_false_iff in Z0; congruence).
    apply Ha. apply band_zero_iff. intros i Hi. specialize (K i Hi).
    rewrite bor_testbit in K by lia.
    destruct (Z.testbit m i), (Z.testbit a i); simpl in *; congruence.
  - assert (Ha : band m a <> 0) by (intros Z0; apply truthy_false_iff in Z0; congruence).
    apply Ha. apply band_zero_iff. intros i Hi. specialize (K i Hi).
    rewrite bor_testbit in K by lia.
    destruct (Z.testbit m i), (Z.testbit a i); simpl in *; congruence.
  - assert (Hb : band m b <> 0) by (intros Z0; apply truthy_false_iff in Z0; congruence).
    apply Hb. apply band_zero_iff. intros i Hi. specialize (K i Hi).
    rewrite bor_testbit in K by lia.
    destruct (Z.testbit m i), (Z.testbit a i), (Z.testbit b i); simpl in *; congruence.
  - apply truthy_false_iff. apply truthy_false_iff in Ea, Eb.
    apply band_zero_iff. intros i Hi.
    pose proof (proj1 (band_zero_iff _ _) Ea i Hi) as Ka.
    pose proof (proj1 (band_zero_iff _ _) Eb i Hi) as Kb.
    rewrite bor_testbit by lia.
    destruct (Z.testbit m i), (Z.testbit a i), (Z.testbit b i); simpl in *; congruence.
Qed.

(** [(a | b) & c] is non-zero exactly when [a & c] or [b & c] is. *)
Lemma bor_includes (a b c : Z) :
  includes (bor a b) c = includes a c || includes b c.
Proof.
  assert (Hcomm : forall x y, includes x y = includes y x).
  { intros x y. unfold includes, band. rewrite Z.land_comm. reflexivity. }
  rewrite (Hcomm (bor a b) c), (Hcomm a c), (Hcomm b c). apply includes_bor.
Qed.

(** ** [$bind], from the check of the bound state *)

Lemma dollar_bind_same_scope (oneTime toView fromView : Z) (fl : Z) (sc : Scope)
    (p : option string) (w : World) :
  isBound (this w) = true -> scope (this w) = Some sc ->
  dollar_bind oneTime toView fromView fl sc p w = (Return tt, w).
Proof.
  intros Hb Hs. unfold dollar_bind. rewrite andThen_getThis.
  fold (isBound (this w)). rewrite Hb.
  rewrite bool_decide_eq_true_2 by exact Hs. reflexivity.
Qed.

Lemma dollar_bind_unbound (oneTime toView fromView : Z) (fl : Z) (sc : Scope)
    (p : option string) (w : World) :
  isBound (this w) = false ->
  dollar_bind oneTime toView fromView fl sc p w =
  bind_proceed oneTime toView fromView fl sc p w.
Proof.
  intros Hb. unfold dollar_bind. rewrite andThen_getThis.
  fold (isBound (this w)). rewrite Hb. reflexivity.
Qed.

Lemma dollar_bind_rebind (oneTime toView fromView : Z) (fl : Z) (sc : Scope)
    (p : option string) (w : World) :
  isBound (this w) = true -> scope (this w) <> Some sc ->
  dollar_bind oneTime toView fromView fl sc p w =
  match dollar_unbind (bor fl 4096)
          (with_event (InterceptorUnbind (bor fl 4096)) w) with
  | (Return _, w1) => bind_proceed oneTime toView fromView fl sc p w1
  | (Throw e, w1) => (Throw e, w1)
  end.
Proof.
  intros Hb Hs. unfold dollar_bind. rewrite andThen_getThis.
  fold (isBound (this w)). rewrite Hb.
  rewrite bool_decide_eq_false_2 by exact Hs. reflexivity.
Qed.

(** Where a [$bind] that goes ahead and returns starts to bind: in the world
    it was called in, or in the one its [$unbind] left. *)
Lemma dollar_bind_proceeds (oneTime toView fromView : Z) (fl : Z) (sc : Scope)
    (p : option string) (w w' : World) :
  ~ (isBound (this w) = true /\ scope (this w) = Some sc) ->
  dollar_bind oneTime toView fromView fl sc p w = (Return tt, w') ->
  exists w1 pre,
    bind_proceed oneTime toView fromView fl sc p w1 = (Return tt, w')
    /\ trace w1 = trace w ++ pre
    /\ existsb isInstall pre = false
    /\ heap w1 = heap w
    /\ subs_shrink (id (this w)) w w1
    /\ isBound (this w1) = false
    /\ this w1 =
         (if isBound (this w)
          then set_state (band (bor (state (this w)) 2) (bnot (bor 4 2)))
                 (set_slots [] (set_scope None (set_persistentFlags 0 (this w))))
          else this w)
    /\ (isBound (this w) = false -> w1 = w).
Proof.
  intros Hnot E.
  destruct (isBound (this w)) eqn:Hb.
  - assert (Hs : scope (this w) <> Some sc) by (intros K; apply Hnot; auto).
    rewrite dollar_bind_rebind in E by assumption.
    set (w0 := with_event (InterceptorUnbind (bor fl 4096)) w) in *.
    destruct (dollar_unbind (bor fl 4096) w0) as [[[]|e] w1] eqn:E1; [| discriminate].
    assert (Hb0 : isBound (this w0) = true) by exact Hb.
    destruct (dollar_unbind_inv _ _ _ Hb0 E1)
      as (o & Ho & Hthis & Hh & SS & Ht & _ & _).
    change (this w0) with (this w) in *.
    change (observerAt w0 o) with (observerAt w o) in *.
    eexists w1, (InterceptorUnbind (bor fl 4096) :: _).
    split; [exact E |].
    split.
    { rewrite Ht. unfold w0. simpl. rewrite <- app_assoc. reflexivity. }
    split.
    { simpl.
      destruct (hasUnbind _), (has_unbind _), (has_unsubscribe _); reflexivity. }
    split; [exact Hh |].
    split; [exact SS |].
    split.
    { rewrite Hthis. unfold isBound. simpl. rewrite isBound_truthy.
      apply state_after_unbind. }
    split; [exact Hthis | discriminate].
  - rewrite dollar_bind_unbound in E by assumption.
    exists w, []. split; [exact E |].
    split; [symmetry; apply app_nil_r |].
    split; [reflexivity |]. split; [reflexivity |].
    split; [apply subs_shrink_same; reflexivity |].
    split; [exact Hb |]. split; reflexivity.
Qed.

Lemma filter_none_of {A : Type} (f : A -> bool) (l : list A) :
  existsb f l = false -> List.filter f l = [].
Proof.
  induction l as [|x l IH]; simpl; [reflexivity |].
  intros H. apply orb_false_iff in H. destruct H as [-> H]. auto.
Qed.

(** The fields [$bind] reads are those of the binding it was called on, also
    when it unbinds first. *)
Lemma rebind_start_fields (b : Binding) (fromView fl : Z) :
  let b1 := (if isBound b
             then set_state (band (bor (state b) 2) (bnot (bor 4 2)))
                    (set_slots [] (set_scope None (set_persistentFlags 0 b)))
             else b) in
  mode b1 = mode b /\ sourceExpression b1 = sourceExpression b
  /\ targetObserver b1 = targetObserver b /\ id b1 = id b
  /\ version b1 = version b
  /\ bindTarget fromView fl b1 = bindTarget fromView fl b
  /\ slots b1 = (if isBound b then [] else slots b).
Proof.
  cbv zeta. unfold bindTarget. destruct (isBound b); simpl; auto 10.
Qed.

(** What a [$bind] that goes ahead evaluates, writes, connects and
    subscribes to, in order. *)
Lemma dollar_bind_installs (oneTime toView fromView : Z) (fl : Z) (sc : Scope)
    (p : option string) (w w' : World) :
  ~ (isBound (this w) = true /\ scope (this w) = Some sc) ->
  dollar_bind oneTime toView fromView fl sc p w = (Return tt, w') ->
  let b := this w in
  let fl' := bor fl 4 in
  let o := bindTarget fromView fl' b in
  let v := evaluate (sourceExpression b) fl' (Some sc) p (heap w) in
  List.filter isInstall (newEvents w w') =
    (if includes (mode b) toView || includes (mode b) oneTime
     then [ExprEvaluate fl' (Some sc) p;
           InterceptorUpdateTarget v fl';
           TargetSetValue o v (bor fl' (band fl' 2080374799))]
     else [])
    ++ (if includes (mode b) toView then [ExprConnect fl' (Some sc) p] else [])
    ++ (if includes (mode b) fromView then [TargetSubscribe o] else []).
Proof.
  intros Hnot E. cbv zeta.
  destruct (dollar_bind_proceeds _ _ _ _ _ _ _ _ Hnot E)
    as (w1 & pre & E1 & Ht1 & Hpre & Hh1 & _ & _ & Hthis1 & _).
  destruct (rebind_start_fields (this w) fromView (bor fl 4))
    as (Hmode & Hexp & Hto & _ & _ & Htgt & _).
  cbv zeta in Hmode, Hexp, Hto, Htgt. rewrite <- Hthis1 in Hmode, Hexp, Hto, Htgt.
  destruct (bind_proceed_inv _ _ _ _ _ _ _ _ _ E1) as (_ & _ & _ & _ & Hr).
  destruct (Hr eq_refl) as (_ & Ht & _). clear Hr.
  cbv zeta in Ht. rewrite Ht1 in Ht.
  rewrite (newEvents_app w w' _ (eq_trans Ht (eq_sym (app_assoc _ _ _)))).
  rewrite !List.filter_app, (filter_none_of _ _ Hpre). simpl app.
  unfold bindPrefixEvents.
  rewrite Hmode, Hexp, Hto, Htgt, Hh1.
  rewrite !List.filter_app.
  unfold toViewOrOneTime. rewrite includes_bor.
  destruct (hasBind _), (targetObserver (this w)), (includes (mode (this w)) fromView),
    (negb _ && _), (includes (mode (this w)) toView),
    (includes (mode (this w)) oneTime); reflexivity.
Qed.

(** The state a [$bind] that goes ahead leaves. *)
Lemma dollar_bind_state (oneTime toView fromView : Z) (fl : Z) (sc : Scope)
    (p : option string) (w w' : World) :
  ~ (isBound (this w) = true /\ scope (this w) = Some sc) ->
  dollar_bind oneTime toView fromView fl sc p w = (Return tt, w') ->
  let b := this w in
  let fl' := bor fl 4 in
  let o := bindTarget fromView fl' b in
  let v := evaluate (sourceExpression b) fl' (Some sc) p (heap w) in
  let deps := dependencies (sourceExpression b) fl' (Some sc) p (heap w') in
  let before := if isBound b then [] else slots b in
  (isBound (this w') = true /\ scope (this w') = Some sc /\ part (this w') = p
   /\ targetObserver (this w') = Some o
   /\ persistentFlags (this w') = band fl' 2080374799)
  /\ (id (this w') = id b /\ mode (this w') = mode b
      /\ version (this w') = version b
      /\ sourceExpression (this w') = sourceExpression b)
  /\ heap w' = (if includes (mode b) toView || includes (mode b) oneTime
                then <[o := v]> (heap w) else heap w)
  /\ slots (this w') =
       (if includes (mode b) toView
        then touchAll deps (version b) before else before)
  /\ (includes (mode b) fromView = true -> subscribed w' o)
  /\ (includes (mode b) toView = true ->
      forall o', o' ∈ deps ->
                 (isBound b = false -> o' ∈ slotObservers b -> subscribed w o') ->
                 subscribed w' o').
Proof.
  intros Hnot E. cbv zeta.
  destruct (dollar_bind_proceeds _ _ _ _ _ _ _ _ Hnot E)
    as (w1 & pre & E1 & _ & _ & Hh1 & _ & _ & Hthis1 & Hsame).
  destruct (rebind_start_fields (this w) fromView (bor fl 4))
    as (Hmode & Hexp & Hto & Hid & Hver & Htgt & Hsl).
  cbv zeta in Hmode, Hexp, Hto, Hid, Hver, Htgt, Hsl.
  rewrite <- Hthis1 in Hmode, Hexp, Hto, Hid, Hver, Htgt, Hsl.
  destruct (bind_proceed_inv _ _ _ _ _ _ _ _ _ E1) as (Hh & _ & Hshape & _ & Hr).
  destruct (Hr eq_refl) as (Hst & _ & Hslots & Hin & Htarget). clear Hr.
  cbv zeta in Hh, Hshape, Hst, Hslots, Hin, Htarget.
  rewrite Hmode, Hexp, Hid, Hver, Htgt, Hsl, ?Hh1 in *.
  assert (Hid' : id (this w') = id (this w)).
  { rewrite Hshape. simpl. exact Hid. }
  split.
  { split.
    { unfold isBound. rewrite Hst, isBound_truthy. apply state_after_bind. }
    rewrite Hshape. simpl. auto. }
  split.
  { rewrite Hshape. simpl. auto. }
  split.
  { rewrite Hh. unfold toViewOrOneTime. rewrite includes_bor. reflexivity. }
  split; [exact Hslots |].
  split.
  { intros Hfv. unfold subscribed. rewrite Hid'. apply Htarget. exact Hfv. }
  intros Htv o' Ho' Hold. unfold subscribed. rewrite Hid'.
  apply Hin; [exact Htv | exact Ho' |].
  unfold slotObservers. rewrite Hsl.
  destruct (isBound (this w)) eqn:Hb.
  - intros K. inversion K.
  - rewrite (Hsame eq_refl). apply Hold. reflexivity.
Qed.


Lemma dollar_unbind_leaves_unbound (fl : Z) (w w' : World) :
  dollar_unbind fl w = (Return tt, w') ->
  isBound (this w) = true ->
  isBound (this w') = false /\ scope (this w') = None /\ slots (this w') = [].
Proof.
  intros E Hb.
  destruct (dollar_unbind_inv _ _ _ Hb E) as (o & _ & Hthis & _).
  rewrite Hthis. simpl. repeat split.
  unfold isBound. simpl. rewrite isBound_truthy. apply state_after_unbind.
Qed.

(** The slots a [$bind] leaves are stamped with the binding's version, and
    their observers have the binding as a subscriber: what the statement
    about the reconnect cycle of [handleChange] assumes of the slots. *)
Lemma bind_establishes_slot_invariants (oneTime toView fromView : Z) (fl : Z)
    (sc : Scope) (p : option string) (w w' : World) :
  ~ (isBound (this w) = true /\ scope (this w) = Some sc) ->
  (isBound (this w) = false -> slots (this w) = []) ->
  dollar_bind oneTime toView fromView fl sc p w = (Return tt, w') ->
  (forall s, s ∈ slots (this w') -> snd s <= version (this w'))
  /\ (forall x, x ∈ slotObservers (this w') -> subscribed w' x).
Proof.
  intros Hnot Hclean E.
  destruct (dollar_bind_state _ _ _ _ _ _ _ _ Hnot E)
    as (_ & (_ & _ & Hver & _) & _ & Hsl & _ & Hin).
  cbv zeta in Hsl, Hin.
  assert (Hbefore : (if isBound (this w) then [] else slots (this w)) = []).
  { destruct (isBound (this w)); [reflexivity | apply Hclean; reflexivity]. }
  rewrite Hbefore in Hsl.
  destruct (includes (mode (this w)) toView) eqn:Htv.
  - split.
    + intros [x v] Hs. rewrite Hsl in Hs.
      destruct (touchAll_elem _ _ _ _ _ Hs) as [[_ ->]|[_ K]]; [| inversion K].
      simpl. rewrite Hver. lia.
    + intros x Hx. unfold slotObservers in Hx. rewrite Hsl in Hx.
      apply touchAll_fst in Hx. destruct Hx as [K|Hx]; [inversion K |].
      apply Hin; [reflexivity | exact Hx |].
      intros Hb K. unfold slotObservers in K. rewrite (Hclean Hb) in K. inversion K.
  - split.
    + intros s Hs. rewrite Hsl in Hs. inversion Hs.
    + intros x Hx. unfold slotObservers in Hx. rewrite Hsl in Hx. inversion Hx.
Qed.

Lemma existsb_filter_sub {A : Type} (f g : A -> bool) (l : list A) :
  (forall x, f x = true -> g x = true) ->
  existsb f l = existsb f (List.filter g l).
Proof.
  intros Hfg. induction l as [|x l IH]; simpl; [reflexivity |].
  destruct (g x) eqn:Eg; simpl; rewrite IH; [reflexivity |].
  destruct (f x) eqn:Ef; [| reflexivity].
  rewrite (Hfg _ Ef) in Eg. discriminate.
Qed.

Lemma filter_filter_sub {A : Type} (f g : A -> bool) (l : list A) :
  (forall x, f x = true -> g x = true) ->
  List.filter f l = List.filter f (List.filter g l).
Proof.
  intros Hfg. induction l as [|x l IH]; simpl; [reflexivity |].
  destruct (g x) eqn:Eg; simpl; rewrite IH; [reflexivity |].
  destruct (f x) eqn:Ef; [| reflexivity].
  rewrite (Hfg _ Ef) in Eg. discriminate.
Qed.

Lemma install_evaluate (e : Event) : isEvaluate e = true -> isInstall e = true.
Proof. unfold isInstall. intros ->. reflexivity. Qed.
Lemma install_updateTarget (e : Event) : isUpdateTarget e = true -> isInstall e = true.
Proof. unfold isInstall. intros ->. apply orb_true_iff. left. apply orb_true_iff. left.
       apply orb_true_iff. left. apply orb_true_r. Qed.
Lemma install_setValue (e : Event) : isSetValue e = true -> isInstall e = true.
Proof. destruct e; simpl; auto. Qed.
Lemma install_connect (e : Event) : isConnect e = true -> isInstall e = true.
Proof. destruct e; simpl; auto. Qed.
Lemma install_targetSubscribe (e : Event) : isTargetSubscribe e = true -> isInstall e = true.
Proof. destruct e; simpl; auto. Qed.

(** C3: [$bind] on a bound binding with the scope it is bound to returns at
    once and changes nothing; with another scope it first runs the whole of
    [$unbind], with the [fromBind] flag added, and then binds the binding
    that [$unbind] left (unbound, without scope) to the new scope. *)
Theorem rebind_unbinds_first (oneTime toView fromView : Z) (flags : Z)
    (sc : Scope) (p : option string) (w : World) :
  isBound (this w) = true ->
  (scope (this w) = Some sc ->
   dollar_bind oneTime toView fromView flags sc p w = (Return tt, w))
  /\ (scope (this w) <> Some sc ->
      let unbound :=
        dollar_unbind (bor flags 4096)
          (with_event (InterceptorUnbind (bor flags 4096)) w) in
      match fst unbound with
      | Return _ =>
          isBound (this (snd unbound)) = false
          /\ scope (this (snd unbound)) = None
          /\ slots (this (snd unbound)) = []
          /\ dollar_bind oneTime toView fromView flags sc p w =
             dollar_bind oneTime toView fromView flags sc p (snd unbound)
      | Throw e =>
          dollar_bind oneTime toView fromView flags sc p w = (Throw e, snd unbound)
      end).
Proof.
  intros Hb. split.
  - intros Hs. apply dollar_bind_same_scope; assumption.
  - intros Hs. cbv zeta. rewrite dollar_bind_rebind by assumption.
    set (w0 := with_event (InterceptorUnbind (bor flags 4096)) w).
    destruct (dollar_unbind (bor flags 4096) w0) as [[[]|e] w1] eqn:E1; simpl;
      [| reflexivity].
    destruct (dollar_unbind_leaves_unbound (bor flags 4096) w0 w1 E1 Hb)
      as (Hb1 & Hsc1 & Hsl1).
    repeat split; try assumption.
    symmetry. apply dollar_bind_unbound. exact Hb1.
Qed.

Lemma rebind_unbinds_first_witness :
  dollar_bind 1 2 4 0 1%nat None Samples.boundToView = (Return tt, Samples.boundToView)
  /\ dollar_bind 1 2 4 0 2%nat None Samples.boundToView =
     dollar_bind 1 2 4 0 2%nat None
       (snd (dollar_unbind (bor 0 4096)
               (with_event (InterceptorUnbind (bor 0 4096)) Samples.boundToView))).
Proof.
  destruct (rebind_unbinds_first 1 2 4 0 1%nat None Samples.boundToView eq_refl)
    as [Hsame _].
  destruct (rebind_unbinds_first 1 2 4 0 2%nat None Samples.boundToView eq_refl)
    as [_ Hother].
  split; [apply Hsame; reflexivity |].
  assert (Hne : scope (this Samples.boundToView) <> Some 2%nat) by discriminate.
  specialize (Hother Hne). cbv zeta in Hother.
  assert (Hret : fst (dollar_unbind (bor 0 4096)
                        (with_event (InterceptorUnbind (bor 0 4096))
                           Samples.boundToView)) = Return tt)
    by (vm_compute; reflexivity).
  rewrite Hret in Hother. apply Hother.
Defined.

(** C8: on a [$bind] that goes ahead and returns, the source expression is
    connected exactly when the mode includes [toView], the binding subscribes
    to the target observer exactly when the mode includes [fromView], and the
    source expression is evaluated and the target written exactly when the
    mode includes [toView] or [oneTime]; a two-way binding does both
    installations. *)
Theorem mode_governs_subscriptions (oneTime toView fromView : Z) (flags : Z)
    (sc : Scope) (p : option string) (w w' : World) :
  ~ (isBound (this w) = true /\ scope (this w) = Some sc) ->
  dollar_bind oneTime toView fromView flags sc p w = (Return tt, w') ->
  let m := mode (this w) in
  let evs := newEvents w w' in
  existsb isConnect evs = includes m toView
  /\ existsb isTargetSubscribe evs = includes m fromView
  /\ existsb isEvaluate evs = includes m toView || includes m oneTime
  /\ existsb isUpdateTarget evs = includes m toView || includes m oneTime
  /\ existsb isSetValue evs = includes m toView || includes m oneTime
  /\ (includes m fromView = true ->
      exists o, targetObserver (this w') = Some o /\ subscribed w' o)
  /\ (includes m toView = true ->
      (isBound (this w) = false ->
       forall o, o ∈ slotObservers (this w) -> subscribed w o) ->
      forall o,
        o ∈ dependencies (sourceExpression (this w)) (bor flags 4) (Some sc) p (heap w') ->
        subscribed w' o)
  /\ (m = bor toView fromView ->
      includes toView toView = true -> includes fromView fromView = true ->
      existsb isConnect evs = true /\ existsb isTargetSubscribe evs = true).
Proof.
  intros Hnot E. cbv zeta.
  pose proof (dollar_bind_installs _ _ _ _ _ _ _ _ Hnot E) as Hev.
  destruct (dollar_bind_state _ _ _ _ _ _ _ _ Hnot E)
    as ((_ & _ & _ & Hto & _) & _ & _ & _ & Hfv & Htv).
  cbv zeta in Hev, Hto, Hfv, Htv.
  assert (H1 : existsb isConnect (newEvents w w') = includes (mode (this w)) toView).
  { rewrite (existsb_filter_sub _ _ _ install_connect), Hev.
    destruct (includes (mode (this w)) toView), (includes (mode (this w)) oneTime),
      (includes (mode (this w)) fromView); reflexivity. }
  assert (H2 : existsb isTargetSubscribe (newEvents w w')
               = includes (mode (this w)) fromView).
  { rewrite (existsb_filter_sub _ _ _ install_targetSubscribe), Hev.
    destruct (includes (mode (this w)) toView), (includes (mode (this w)) oneTime),
      (includes (mode (this w)) fromView); reflexivity. }
  split; [exact H1 |]. split; [exact H2 |].
  split.
  { rewrite (existsb_filter_sub _ _ _ install_evaluate), Hev.
    destruct (includes (mode (this w)) toView), (includes (mode (this w)) oneTime),
      (includes (mode (this w)) fromView); reflexivity. }
  split.
  { rewrite (existsb_filter_sub _ _ _ install_updateTarget), Hev.
    destruct (includes (mode (this w)) toView), (includes (mode (this w)) oneTime),
      (includes (mode (this w)) fromView); reflexivity. }
  split.
  { rewrite (existsb_filter_sub _ _ _ install_setValue), Hev.
    destruct (includes (mode (this w)) toView), (includes (mode (this w)) oneTime),
      (includes (mode (this w)) fromView); reflexivity. }
  split.
  { intros Hf. eexists. split; [exact Hto | apply Hfv; exact Hf]. }
  split.
  { intros Ht Hold o Ho. apply Htv; [exact Ht | exact Ho |].
    intros Hb Hin. apply Hold; assumption. }
  intros Hm Htt Hff. rewrite H1, H2, Hm, !bor_includes, Htt, Hff.
  split; [reflexivity | apply orb_true_r].
Qed.

Lemma mode_governs_subscriptions_witness :
  let w' := snd (dollar_bind 1 2 4 0 1%nat None (Samples.fresh 6)) in
  existsb isConnect (newEvents (Samples.fresh 6) w') = true
  /\ existsb isTargetSubscribe (newEvents (Samples.fresh 6) w') = true
  /\ subscribed w' 20.
Proof.
  cbv zeta.
  assert (Hnot : ~ (isBound (this (Samples.fresh 6)) = true
                    /\ scope (this (Samples.fresh 6)) = Some 1%nat))
    by (intros [K _]; discriminate K).
  assert (E : dollar_bind 1 2 4 0 1%nat None (Samples.fresh 6)
              = (Return tt, snd (dollar_bind 1 2 4 0 1%nat None (Samples.fresh 6))))
    by (vm_compute; reflexivity).
  destruct (mode_governs_subscriptions 1 2 4 0 1%nat None _ _ Hnot E)
    as (H1 & H2 & _ & _ & _ & _ & H7 & _).
  split; [exact H1 |]. split; [exact H2 |].
  apply H7.
  - reflexivity.
  - intros _ o Ho. inversion Ho.
  - apply list_elem_of_here.
Defined.

(** [handleChange] of a binding whose mode includes [oneTime]: the binding
    and the observers stay as they are, and nothing is connected. *)
Lemma handleChange_oneTime_inv (oneTime : Z) (nv pv : value) (fl : Z)
    (w w' : World) (r : Outcome unit) :
  includes (mode (this w)) oneTime = true ->
  handleChange oneTime nv pv fl w = (r, w') ->
  this w' = this w /\ observers w' = observers w
  /\ existsb isConnect (newEvents w w') = false
  /\ existsb isUnobserve (newEvents w w') = false.
Proof.
  intros Hm E.
  assert (Hm' : (band (mode (this w)) oneTime =? 0) = false).
  { unfold includes, truthy in Hm. apply negb_true_iff in Hm. exact Hm. }
  destruct (isBound (this w)) eqn:Hb.
  2:{ apply isBound_false in Hb.
      unfold handleChange in E. rewrite andThen_getThis, Hb in E.
      injection E as <- <-. rewrite newEvents_same. auto. }
  destruct (updatesTarget (bor fl (persistentFlags (this w)))) eqn:Hf.
  - destruct (targetObserver (this w)) as [o|] eqn:Ho.
    + rewrite (handleChange_target _ _ _ _ o) in E by assumption.
      rewrite Hm' in E. injection E as <- <-.
      destruct (afterTargetUpdate_inv nv (bor fl (persistentFlags (this w))) o w)
        as (Hthis & Hobs & _ & Ht).
      cbv zeta in Hthis, Hobs, Ht.
      split; [exact Hthis |]. split; [exact Hobs |].
      rewrite (newEvents_app _ _ _ Ht).
      destruct (reevaluates (this w)), (strict_neq _ _); auto.
    + apply isBound_true in Hb. unfold updatesTarget in Hf.
      revert E. unfold handleChange, theTargetObserver.
      rewrite andThen_getThis, Hb. cbv zeta. rewrite Hf.
      repeat mstep. rewrite Ho.
      intros [= <- <-]. rewrite newEvents_same. auto.
  - apply isBound_true in Hb. unfold updatesTarget in Hf.
    revert E. unfold handleChange, expr_evaluate, interceptor_updateSource,
      updateSource, expr_assign.
    rewrite andThen_getThis, Hb. cbv zeta. rewrite Hf.
    destruct (band (bor fl (persistentFlags (this w))) 32 >? 0).
    + repeat mstep.
      destruct (strict_neq nv _); repeat mstep; intros [= <- <-];
        (split; [reflexivity |]); (split; [reflexivity |]);
        match goal with
        | |- context [newEvents w ?W] =>
            let H := fresh in
            eassert (H : trace W = trace w ++ _)
              by (cbn [trace with_heap with_event]; rewrite <- ?app_assoc;
                  reflexivity);
            rewrite (newEvents_app w W _ H)
        end; split; reflexivity.
    + intros [= <- <-]. rewrite newEvents_same. auto.
Qed.

(** C5: a one-time binding is disconnected after its initial evaluation.
    [$bind] evaluates the source expression once and writes the target once,
    does not connect the source expression and adds no observer slot; and
    [handleChange] of such a binding never connects or unobserves: it leaves
    the binding (version and slots included) and every observer as they
    are.  [oneTime] is taken to be a non-empty flag that shares no bit with
    [toView]. *)
Theorem one_time_binding_disconnected (oneTime toView fromView : Z)
    (flags : Z) (sc : Scope) (p : option string) (w w' : World)
    (newValue previousValue : value) (flags2 : Z) (wh wh' : World)
    (r : Outcome unit) :
  includes oneTime oneTime = true ->
  includes oneTime toView = false ->
  mode (this w) = oneTime ->
  ~ (isBound (this w) = true /\ scope (this w) = Some sc) ->
  dollar_bind oneTime toView fromView flags sc p w = (Return tt, w') ->
  mode (this wh) = oneTime ->
  handleChange oneTime newValue previousValue flags2 wh = (r, wh') ->
  let fl' := bor flags 4 in
  let o := bindTarget fromView fl' (this w) in
  let v := evaluate (sourceExpression (this w)) fl' (Some sc) p (heap w) in
  (List.filter isEvaluate (newEvents w w') = [ExprEvaluate fl' (Some sc) p]
   /\ List.filter isUpdateTarget (newEvents w w') = [InterceptorUpdateTarget v fl']
   /\ List.filter isSetValue (newEvents w w') =
        [TargetSetValue o v (bor fl' (band fl' 2080374799))]
   /\ existsb isConnect (newEvents w w') = false
   /\ slots (this w') = (if isBound (this w) then [] else slots (this w))
   /\ mode (this w') = oneTime)
  /\ (existsb isConnect (newEvents wh wh') = false
      /\ existsb isUnobserve (newEvents wh wh') = false
      /\ this wh' = this wh
      /\ observers wh' = observers wh).
Proof.
  intros H11 H1t Hmode Hnot E Hmodeh Eh. cbv zeta. split.
  - pose proof (dollar_bind_installs _ _ _ _ _ _ _ _ Hnot E) as Hev.
    destruct (dollar_bind_state _ _ _ _ _ _ _ _ Hnot E)
      as (_ & (_ & Hm' & _) & _ & Hsl & _).
    cbv zeta in Hev, Hsl. rewrite Hmode, H1t in Hsl.
    rewrite Hmode, H11, H1t in Hev. simpl in Hev.
    split.
    { rewrite (filter_filter_sub _ _ _ install_evaluate), Hev.
      destruct (includes oneTime fromView); reflexivity. }
    split.
    { rewrite (filter_filter_sub _ _ _ install_updateTarget), Hev.
      destruct (includes oneTime fromView); reflexivity. }
    split.
    { rewrite (filter_filter_sub _ _ _ install_setValue), Hev.
      destruct (includes oneTime fromView); reflexivity. }
    split.
    { rewrite (existsb_filter_sub _ _ _ install_connect), Hev.
      destruct (includes oneTime fromView); reflexivity. }
    split; [exact Hsl | congruence].
  - assert (Hinc : includes (mode (this wh)) oneTime = true) by (rewrite Hmodeh; exact H11).
    destruct (handleChange_oneTime_inv _ _ _ _ _ _ _ Hinc Eh) as (K1 & K2 & K3 & K4).
    auto.
Qed.

Lemma one_time_binding_disconnected_witness :
  let w := Samples.fresh 1 in
  let w' := snd (dollar_bind 1 2 4 0 1%nat None w) in
  let wh' := snd (handleChange 1 (VNumber 6) (VNumber 5) 16 w') in
  existsb isConnect (newEvents w w') = false
  /\ slots (this w') = []
  /\ List.filter isEvaluate (newEvents w w') = [ExprEvaluate 4 (Some 1%nat) None]
  /\ this wh' = this w'.
Proof.
  cbv zeta.
  assert (Hnot : ~ (isBound (this (Samples.fresh 1)) = true
                    /\ scope (this (Samples.fresh 1)) = Some 1%nat))
    by (intros [K _]; discriminate K).
  assert (E : dollar_bind 1 2 4 0 1%nat None (Samples.fresh 1)
              = (Return tt, snd (dollar_bind 1 2 4 0 1%nat None (Samples.fresh 1))))
    by (vm_compute; reflexivity).
  assert (Hm : mode (this (snd (dollar_bind 1 2 4 0 1%nat None (Samples.fresh 1)))) = 1)
    by (vm_compute; reflexivity).
  destruct (one_time_binding_disconnected 1 2 4 0 1%nat None
              (Samples.fresh 1)
              (snd (dollar_bind 1 2 4 0 1%nat None (Samples.fresh 1)))
              (VNumber 6) (VNumber 5) 16
              (snd (dollar_bind 1 2 4 0 1%nat None (Samples.fresh 1))) _ _
              eq_refl eq_refl eq_refl Hnot E Hm (surjective_pairing _))
    as ((H1 & _ & _ & H4 & H5 & _) & (_ & _ & H8 & _)).
  split; [exact H4 |]. split; [exact H5 |]. split; [exact H1 | exact H8].
Defined.






(** ** Scope and state across the methods, whatever the outcome *)



(** [handleChange] touches neither the scope nor the state bits. *)
Lemma handleChange_frame (oneTime : Z) (nv pv : value) (fl : Z)
    (w w' : World) (r : Outcome unit) :
  handleChange oneTime nv pv fl w = (r, w') ->
  scope (this w') = scope (this w) /\ state (this w') = state (this w)
  /\ (isBound (this w) = false -> w' = w)
  /\ targetObserver (this w') = targetObserver (this w).
Proof.
  intros E.
  destruct (isBound (this w)) eqn:Hb.
  2:{ apply isBound_false in Hb.
      unfold handleChange in E. rewrite andThen_getThis, Hb in E.
      injection E as <- <-. auto. }
  destruct (updatesTarget (bor fl (persistentFlags (this w)))) eqn:Hf.
  - destruct (targetObserver (this w)) as [o|] eqn:Ho.
    + rewrite (handleChange_target _ _ _ _ o) in E by assumption.
      destruct (afterTargetUpdate_inv nv (bor fl (persistentFlags (this w))) o w)
        as (Hthis & _).
      cbv zeta in Hthis.
      destruct (band (mode (this w)) oneTime =? 0).
      * destruct (reconnect_inv _ _ _ _ E) as (_ & _ & Hthis' & _).
        cbv zeta in Hthis'. rewrite Hthis', Hthis. simpl.
        split; [reflexivity |]. split; [reflexivity |].
        split; [discriminate | first [reflexivity | assumption | congruence]].
      * injection E as <- <-. rewrite Hthis.
        split; [reflexivity |]. split; [reflexivity |].
        split; [discriminate | first [reflexivity | assumption | congruence]].
    + apply isBound_true in Hb. unfold updatesTarget in Hf.
      revert E. unfold handleChange, theTargetObserver.
      rewrite andThen_getThis, Hb. cbv zeta. rewrite Hf.
      repeat mstep. rewrite Ho.
      intros [= <- <-]. split; [reflexivity |]. split; [reflexivity |].
        split; [discriminate | first [reflexivity | assumption | congruence]].
  - apply isBound_true in Hb. unfold updatesTarget in Hf.
    revert E. unfold handleChange, expr_evaluate, interceptor_updateSource,
      updateSource, expr_assign.
    rewrite andThen_getThis, Hb. cbv zeta. rewrite Hf.
    destruct (band (bor fl (persistentFlags (this w))) 32 >? 0).
    + repeat mstep.
      destruct (strict_neq nv _); repeat mstep; intros [= <- <-];
        (split; [reflexivity |]); (split; [reflexivity |]);
        (split; [discriminate | first [reflexivity | assumption | congruence]]).
    + intros [= <- <-]. split; [reflexivity |]. split; [reflexivity |].
        split; [discriminate | first [reflexivity | assumption | congruence]].
Qed.


Lemma isBinding_truthy (s : Z) : truthy (band s 1) = Z.testbit s 0.
Proof.
  change 1 with (2 ^ 0) at 1. rewrite band_pow2 by lia.
  destruct (Z.testbit s 0); reflexivity.
Qed.

Lemma bind_proceed_scope_state (oneTime toView fromView : Z) (fl : Z)
    (sc : Scope) (p : option string) (w w' : World) (r : Outcome unit) :
  bind_proceed oneTime toView fromView fl sc p w = (r, w') ->
  scope (this w') = Some sc
  /\ isBinding (this w') || isBound (this w') = true
  /\ (r = Return tt -> isBound (this w') = true /\ isBinding (this w') = false).
Proof.
  intros E.
  destruct (bind_proceed_inv _ _ _ _ _ _ _ _ _ E) as (_ & _ & Hshape & Hthrow & Hret).
  cbv zeta in Hshape, Hthrow, Hret.
  split; [rewrite Hshape; reflexivity |].
  unfold isBinding, isBound. rewrite isBinding_truthy, isBound_truthy.
  destruct r as [[]|e].
  - destruct (Hret eq_refl) as (Hst & _). rewrite Hst.
    destruct (state_after_bind (state (this w))) as (H2 & H0).
    rewrite H2, H0. split; [reflexivity |]. intros _. split; reflexivity.
  - rewrite Hthrow by discriminate.
    rewrite !bor_testbit by lia. simpl. rewrite orb_true_r.
    split; [reflexivity | discriminate].
Qed.


Lemma bind_proceed_targetObserver (oneTime toView fromView : Z) (fl : Z)
    (sc : Scope) (p : option string) (w w' : World) (r : Outcome unit) :
  bind_proceed oneTime toView fromView fl sc p w = (r, w') ->
  exists o, targetObserver (this w') = Some o.
Proof.
  intros E.
  destruct (bind_proceed_inv _ _ _ _ _ _ _ _ _ E) as (_ & _ & Hshape & _).
  cbv zeta in Hshape. eexists. rewrite Hshape. reflexivity.
Qed.

Lemma step_atRest (oneTime toView fromView : Z) (w w' : World) :
  step oneTime toView fromView w (Return tt) w' ->
  atRest (this w) -> atRest (this w').
Proof.
  intros Hstep Hrest. pose proof Hrest as (Hbinding & Hbound & Hunbound).
  inversion Hstep as [fl sc p w0 w0' r E | fl w0 w0' r E | nv pv fl w0 w0' r E | w0 w0' E];
    subst.
  - destruct (decide (isBound (this w) = true /\ scope (this w) = Some sc)) as [[Hb Hs]|Hnot].
    + rewrite dollar_bind_same_scope in E by assumption.
      injection E as <-. exact Hrest.
    + destruct (dollar_bind_proceeds _ _ _ _ _ _ _ _ Hnot E) as (w1 & _ & E1 & _).
      destruct (bind_proceed_scope_state _ _ _ _ _ _ _ _ _ E1) as (Hsc & _ & Hr).
      destruct (Hr eq_refl) as (Hb' & Hbi').
      destruct (bind_proceed_targetObserver _ _ _ _ _ _ _ _ _ E1) as (o & Ho).
      split; [exact Hbi' |]. split; [eauto |]. congruence.
  - destruct (isBound (this w)) eqn:Hb.
    + destruct (dollar_unbind_inv _ _ _ Hb E) as (o & _ & Hthis & _).
      rewrite Hthis. unfold atRest, isBinding, isBound. simpl.
      rewrite isBinding_truthy, isBound_truthy, state_after_unbind.
      rewrite band_testbit, bor_testbit by lia.
      unfold isBinding in Hbinding. rewrite isBinding_truthy in Hbinding.
      rewrite Hbinding. simpl.
      split; [reflexivity |]. split; [discriminate | auto].
    + rewrite dollar_unbind_unbound in E by assumption. injection E as <-.
      exact Hrest.
  - destruct (handleChange_frame _ _ _ _ _ _ _ E) as (Hsc & Hst & Hsame & Hto).
    destruct (isBound (this w)) eqn:Hb.
    + unfold atRest, isBinding, isBound in *. rewrite Hsc, Hst, Hto, Hb.
      split; [exact Hbinding |]. split; [exact Hbound | discriminate].
    + rewrite (Hsame eq_refl). exact Hrest.
  - rewrite E. exact Hrest.
Qed.

Lemma completed_atRest (oneTime toView fromView : Z) (w : World) :
  completed oneTime toView fromView w -> atRest (this w).
Proof.
  intros Hdone.
  induction Hdone as [i e tgt prop m loc h obs tr | w w' Hdone IH Hstep].
  - unfold atRest. simpl. split; [reflexivity |].
    split; [discriminate | auto].
  - apply (step_atRest _ _ _ _ _ Hstep IH).
Qed.

(** A bound binding has a target observer, as the statements about
    [handleChange] assume. *)
Lemma completed_bound_has_target (oneTime toView fromView : Z) (w : World) :
  completed oneTime toView fromView w ->
  isBound (this w) = true ->
  exists o, targetObserver (this w) = Some o.
Proof.
  intros Hdone Hb.
  destruct (completed_atRest _ _ _ _ Hdone) as (_ & Hbound & _).
  apply (Hbound Hb).
Qed.







(** C10: [resolveAll] returns nothing when no element is a promise, the one
    promise itself when exactly one is, and [Promise.all] over the promise
    elements, in their order, when there are more; elements that are not
    promises do not matter. *)
Theorem resolveAll_normalizes (l l1 l2 : list Router.MaybePromise) (v : value) :
  match length (List.filter Router.isPromise l) with
  | O => Router.resolveAll l = Router.RUndefined
  | 1%nat => exists p, In (Router.PromiseRef p) l
                       /\ Router.resolveAll l = Router.RPromise p
  | _ => Router.resolveAll l = Router.RPromiseAll (Router.promisesOf l)
  end
  /\ map Router.PromiseRef (Router.promisesOf l) = List.filter Router.isPromise l
  /\ Router.resolveAll (List.filter Router.isPromise l) = Router.resolveAll l
  /\ Router.resolveAll (l1 ++ Router.NotPromise v :: l2) = Router.resolveAll (l1 ++ l2).
Proof.
  split; [| split; [| split]].
  - rewrite <- promisesOf_length, resolveAll_promisesOf.
    pose proof (promisesOf_In l) as Hin.
    destruct (Router.promisesOf l) as [|p [|q rest]]; simpl.
    + reflexivity.
    + exists p. split; [apply Hin; left; reflexivity | reflexivity].
    + reflexivity.
  - induction l as [|[x|p] l IH]; simpl; [reflexivity | exact IH |].
    f_equal. exact IH.
  - rewrite !resolveAll_promisesOf, promisesOf_filter. reflexivity.
  - rewrite !resolveAll_promisesOf. unfold Router.promisesOf.
    rewrite !flat_map_app. reflexivity.
Qed.

(** * Further properties *)

(** ** [handleChange]: the source direction and the unknown direction *)

Lemma handleChange_source_run (oneTime : Z) (nv pv : value) (fl : Z) (w : World) :
  isBound (this w) = true ->
  updatesTarget (bor fl (persistentFlags (this w))) = false ->
  updatesSource (bor fl (persistentFlags (this w))) = true ->
  let b := this w in
  let fl' := bor fl (persistentFlags b) in
  let cur := evaluate (sourceExpression b) fl' (scope b) (part b) (heap w) in
  handleChange oneTime nv pv fl w =
  (Return tt,
   if strict_neq nv cur
   then with_heap (assign (sourceExpression b) (bor fl' (persistentFlags b))
                     (scope b) (part b) nv)
          (with_event (ExprAssign (bor fl' (persistentFlags b)) (scope b) nv (part b))
             (with_event (InterceptorUpdateSource nv fl')
                (with_event (ExprEvaluate fl' (scope b) (part b)) w)))
   else with_event (ExprEvaluate fl' (scope b) (part b)) w).
Proof.
  intros Hb Hf Hs. cbv zeta.
  apply isBound_true in Hb. unfold updatesTarget in Hf. unfold updatesSource in Hs.
  unfold handleChange, expr_evaluate, interceptor_updateSource,
    updateSource, expr_assign.
  rewrite andThen_getThis, Hb. cbv zeta. rewrite Hf, Hs.
  repeat mstep.
  destruct (strict_neq nv _); repeat mstep; reflexivity.
Qed.

(** X1: in the source direction (the merged flags contain
    [updateSourceExpression] and not [updateTargetInstance]) [handleChange] of
    a bound binding evaluates the source expression once and calls
    [updateSource] exactly when the value it was passed is [!==] the result;
    [updateSource] then assigns that value through the source expression,
    with the persistent flags merged in once more.  It returns, and touches
    neither the binding nor any observer. *)
Theorem handleChange_source_direction (oneTime : Z) (newValue previousValue : value)
    (flags : Z) (w w' : World) (r : Outcome unit) :
  isBound (this w) = true ->
  updatesTarget (bor flags (persistentFlags (this w))) = false ->
  updatesSource (bor flags (persistentFlags (this w))) = true ->
  handleChange oneTime newValue previousValue flags w = (r, w') ->
  let b := this w in
  let fl' := bor flags (persistentFlags b) in
  let current := evaluate (sourceExpression b) fl' (scope b) (part b) (heap w) in
  let changed := strict_neq newValue current in
  r = Return tt
  /\ this w' = this w /\ observers w' = observers w
  /\ newEvents w w' =
       ExprEvaluate fl' (scope b) (part b)
       :: (if changed
           then [InterceptorUpdateSource newValue fl';
                 ExprAssign (bor fl' (persistentFlags b)) (scope b) newValue (part b)]
           else [])
  /\ heap w' =
       (if changed
        then assign (sourceExpression b) (bor fl' (persistentFlags b))
               (scope b) (part b) newValue (heap w)
        else heap w).
Proof.
  intros Hb Hf Hs E. cbv zeta.
  rewrite handleChange_source_run in E by assumption. cbv zeta in E.
  injection E as <- <-.
  split; [reflexivity |].
  destruct (strict_neq newValue _).
  - split; [reflexivity |]. split; [reflexivity |]. split; [| reflexivity].
    eassert (H : trace _ = trace w ++ _); [| rewrite (newEvents_app w _ _ H)].
    { cbn [trace with_heap with_event]. rewrite <- ?app_assoc. reflexivity. }
    reflexivity.
  - split; [reflexivity |]. split; [reflexivity |]. split; [| reflexivity].
    eassert (H : trace _ = trace w ++ _); [| rewrite (newEvents_app w _ _ H)].
    { cbn [trace with_heap with_event]. reflexivity. }
    reflexivity.
Qed.

Lemma handleChange_source_direction_witness :
  newEvents Samples.boundToView
    (snd (handleChange 1 (VNumber 6) (VNumber 5) 32 Samples.boundToView))
  = [ExprEvaluate 36 (Some 1%nat) None;
     InterceptorUpdateSource (VNumber 6) 36;
     ExprAssign 36 (Some 1%nat) (VNumber 6) None].
Proof.
  destruct (handleChange_source_direction 1 (VNumber 6) (VNumber 5) 32
              Samples.boundToView _ _ eq_refl eq_refl eq_refl (surjective_pairing _))
    as (_ & _ & _ & H & _).
  exact H.
Defined.

Lemma handleChange_neither_run (oneTime : Z)
    (newValue previousValue : value) (flags : Z) (w : World) :
  isBound (this w) = true ->
  updatesTarget (bor flags (persistentFlags (this w))) = false ->
  updatesSource (bor flags (persistentFlags (this w))) = false ->
  handleChange oneTime newValue previousValue flags w =
  (Throw (ReporterError 15 (bor flags (persistentFlags (this w)))), w).
Proof.
  intros Hb Hf Hs.
  apply isBound_true in Hb. unfold updatesTarget in Hf. unfold updatesSource in Hs.
  unfold handleChange.
  rewrite andThen_getThis, Hb. cbv zeta. rewrite Hf, Hs. reflexivity.
Qed.

(** ** What the methods leave alone, whatever the outcome *)

Lemma set_slots_set_version_same (b : Binding) :
  set_slots (slots b) (set_version (version b) b) = b.
Proof. destruct b; reflexivity. Qed.

(** [handleChange] writes no field of the binding but [version] and the
    slots, and [version] goes up by one at most. *)
Lemma handleChange_this (oneTime : Z) (nv pv : value) (fl : Z)
    (w w' : World) (r : Outcome unit) :
  handleChange oneTime nv pv fl w = (r, w') ->
  this w' = set_slots (slots (this w')) (set_version (version (this w')) (this w))
  /\ (version (this w') = version (this w)
      \/ version (this w') = version (this w) + 1).
Proof.
  intros E.
  destruct (isBound (this w)) eqn:Hb.
  2:{ apply isBound_false in Hb.
      unfold handleChange in E. rewrite andThen_getThis, Hb in E.
      injection E as <- <-. rewrite set_slots_set_version_same. auto. }
  destruct (updatesTarget (bor fl (persistentFlags (this w)))) eqn:Hf.
  - destruct (targetObserver (this w)) as [o|] eqn:Ho.
    + rewrite (handleChange_target _ _ _ _ o) in E by assumption.
      destruct (afterTargetUpdate_inv nv (bor fl (persistentFlags (this w))) o w)
        as (Hthis & _).
      cbv zeta in Hthis.
      destruct (band (mode (this w)) oneTime =? 0).
      * destruct (reconnect_inv _ _ _ _ E) as (_ & _ & Hthis' & _).
        cbv zeta in Hthis'. rewrite Hthis in Hthis'.
        assert (Hv : version (this w') = version (this w) + 1)
          by (rewrite Hthis'; reflexivity).
        split; [| right; exact Hv].
        rewrite Hv. exact Hthis'.
      * injection E as <- <-. rewrite Hthis, set_slots_set_version_same. auto.
    + apply isBound_true in Hb. unfold updatesTarget in Hf.
      revert E. unfold handleChange, theTargetObserver.
      rewrite andThen_getThis, Hb. cbv zeta. rewrite Hf.
      repeat mstep. rewrite Ho.
      intros [= <- <-]. rewrite set_slots_set_version_same. auto.
  - destruct (updatesSource (bor fl (persistentFlags (this w)))) eqn:Hs.
    + rewrite handleChange_source_run in E by assumption. cbv zeta in E.
      injection E as <- <-.
      destruct (strict_neq nv _); cbn [this with_heap with_event];
        rewrite set_slots_set_version_same; auto.
    + rewrite handleChange_neither_run in E by assumption.
      injection E as <- <-. rewrite set_slots_set_version_same. auto.
Qed.

Lemma unbindRest_this (o : nat) (w4 w' : World) (r : Outcome unit) :
  unbindRest o w4 = (r, w') ->
  this w' = set_state (state (this w')) (set_slots (slots (this w')) (this w4)).
Proof.
  rewrite unbindRest_run. intros E.
  assert (Hfirst : exists r6 w6,
    (if has_unsubscribe (observerAt w4 o)
     then target_unsubscribe o ;;; let* b := getThis in clearIdFlag o (id b) 32
     else ret tt) w4 = (r6, w6) /\ this w6 = this w4).
  { destruct (has_unsubscribe (observerAt w4 o)) eqn:Hcap.
    - destruct ((target_unsubscribe o ;;; let* b := getThis in clearIdFlag o (id b) 32) w4)
        as [r6 w6] eqn:E6.
      destruct (target_release_inv _ _ _ _ Hcap E6) as (_ & _ & H2 & _).
      eauto.
    - exists (Return tt), w4. auto. }
  destruct Hfirst as (r6 & w6 & E6 & Hthis6). rewrite E6 in E.
  destruct r6 as [[]|e6].
  2:{ injection E as <- <-. rewrite Hthis6. destruct (this w4); reflexivity. }
  set (w6e := with_event (InterceptorUnobserve true) w6) in *.
  destruct (unobserve true w6e) as [r7 w7] eqn:E7.
  destruct (unobserve_inv _ _ _ _ E7) as (((_ & _ & Hthis7 & _) & _) & _).
  change (this w6e) with (this w6) in Hthis7.
  rewrite Hthis6 in Hthis7.
  destruct r7 as [[]|e7]; injection E as <- <-; cbn [this with_this];
    rewrite Hthis7; destruct (this w4); reflexivity.
Qed.

(** [$unbind] on a bound binding that has no target observer: reading
    [this.targetObserver.unbind] throws after the scope and the persistent
    flags have been cleared. *)
Lemma dollar_unbind_noTarget_world (fl : Z) (w : World) :
  isBound (this w) = true ->
  targetObserver (this w) = None ->
  exists w', dollar_unbind fl w = (Throw TypeError, w')
             /\ heap w' = heap w /\ observers w' = observers w
             /\ this w' = set_scope None
                            (set_persistentFlags 0
                               (set_state (bor (state (this w)) 2) (this w))).
Proof.
  intros Hb Ho. unfold dollar_unbind, andThen at 1, getThis at 1.
  fold (isBound (this w)). rewrite Hb. simpl negb. cbv iota.
  run.
  destruct (hasUnbind (sourceExpression (this w))); run; rewrite Ho;
    eexists; (split; [reflexivity |]); simpl; auto.
Qed.

(** [$unbind] of a bound binding, whatever the outcome: it clears the scope
    and the persistent flags and writes no other field but the state and the
    slots. *)
Lemma dollar_unbind_this (fl : Z) (w w' : World) (r : Outcome unit) :
  isBound (this w) = true ->
  dollar_unbind fl w = (r, w') ->
  this w' =
    set_state (state (this w'))
      (set_slots (slots (this w'))
         (set_scope None (set_persistentFlags 0 (this w)))).
Proof.
  intros Hb E.
  destruct (targetObserver (this w)) as [o|] eqn:Ho.
  - rewrite (dollar_unbind_run _ o) in E by assumption.
    rewrite (unbindRest_this _ _ _ _ E).
    destruct (unbindPrefix_inv fl o w) as (Hthis & _).
    cbv zeta in Hthis. rewrite Hthis. cbn [state slots set_state set_slots].
    destruct (this w); reflexivity.
  - destruct (dollar_unbind_noTarget_world fl w Hb Ho) as (w1 & E1 & _ & _ & Hthis).
    rewrite E1 in E. injection E as <- <-. rewrite Hthis.
    destruct (this w); reflexivity.
Qed.

(** ** The persistent flags name no direction *)


Lemma noDirection_zero : noDirection 0.
Proof. split; reflexivity. Qed.

Lemma noDirection_persistent (f : Z) : noDirection (band f 2080374799).
Proof. apply persistent_no_update. Qed.

Lemma noDirection_bor (fl pf : Z) :
  noDirection pf ->
  updatesTarget (bor fl pf) = updatesTarget fl
  /\ updatesSource (bor fl pf) = updatesSource fl.
Proof.
  intros [H4 H5]. unfold updatesTarget, updatesSource.
  rewrite !updateTargetInstance_gtb, !updateSourceExpression_gtb.
  rewrite !bor_testbit by lia. rewrite H4, H5, !orb_false_r. auto.
Qed.

(** [$bind], whatever the outcome, leaves persistent flags that name no
    direction. *)
Lemma dollar_bind_persistentFlags (oneTime toView fromView : Z) (fl : Z)
    (sc : Scope) (p : option string) (w w' : World) (r : Outcome unit) :
  noDirection (persistentFlags (this w)) ->
  dollar_bind oneTime toView fromView fl sc p w = (r, w') ->
  noDirection (persistentFlags (this w')).
Proof.
  intros Hinv E.
  assert (Hproceed : forall w1,
    bind_proceed oneTime toView fromView fl sc p w1 = (r, w') ->
    noDirection (persistentFlags (this w'))).
  { intros w1 E1.
    destruct (bind_proceed_inv _ _ _ _ _ _ _ _ _ E1) as (_ & _ & Hshape & _).
    cbv zeta in Hshape. rewrite Hshape. cbn. apply noDirection_persistent. }
  destruct (isBound (this w)) eqn:Hb.
  - destruct (decide (scope (this w) = Some sc)) as [Hs|Hs].
    + rewrite dollar_bind_same_scope in E by assumption.
      injection E as <- <-. exact Hinv.
    + rewrite dollar_bind_rebind in E by assumption.
      set (w0 := with_event (InterceptorUnbind (bor fl 4096)) w) in *.
      destruct (dollar_unbind (bor fl 4096) w0) as [[[]|e] w1] eqn:E1.
      * eapply Hproceed. exact E.
      * injection E as <- <-.
        assert (Hb0 : isBound (this w0) = true) by exact Hb.
        rewrite (dollar_unbind_this _ _ _ _ Hb0 E1). cbn. apply noDirection_zero.
  - rewrite dollar_bind_unbound in E by assumption. eapply Hproceed. exact E.
Qed.

Lemma step_persistentFlags (oneTime toView fromView : Z) (w w' : World)
    (r : Outcome unit) :
  step oneTime toView fromView w r w' ->
  noDirection (persistentFlags (this w)) ->
  noDirection (persistentFlags (this w')).
Proof.
  intros [fl sc p w0 w0' r0 E | fl w0 w0' r0 E | nv pv fl w0 w0' r0 E | w0 w0' E] Hinv.
  - eapply dollar_bind_persistentFlags; eassumption.
  - destruct (isBound (this w0)) eqn:Hb.
    + rewrite (dollar_unbind_this _ _ _ _ Hb E). cbn. apply noDirection_zero.
    + rewrite dollar_unbind_unbound in E by assumption.
      injection E as <- <-. exact Hinv.
  - destruct (handleChange_this _ _ _ _ _ _ _ E) as (Hthis & _).
    rewrite Hthis. cbn. exact Hinv.
  - rewrite E. exact Hinv.
Qed.

Lemma reachable_persistentFlags (oneTime toView fromView : Z) (w : World) :
  reachable oneTime toView fromView w -> noDirection (persistentFlags (this w)).
Proof.
  induction 1 as [| w w' r _ IH Hstep].
  - apply noDirection_zero.
  - eapply step_persistentFlags; eassumption.
Qed.

(** X6: in every world a binding can reach, the persistent flags contain
    neither [updateTargetInstance] nor [updateSourceExpression]
    ([$bind] stores [flags & persistentBindingFlags], [$unbind] stores none),
    so the direction [handleChange] takes is the one named by the flags it
    is passed. *)
Theorem direction_is_that_of_the_passed_flags (oneTime toView fromView : Z)
    (w : World) (flags : Z) :
  reachable oneTime toView fromView w ->
  updatesTarget (bor flags (persistentFlags (this w))) = updatesTarget flags
  /\ updatesSource (bor flags (persistentFlags (this w))) = updatesSource flags.
Proof.
  intros Hr. apply noDirection_bor.
  eapply reachable_persistentFlags. exact Hr.
Qed.

Lemma direction_is_that_of_the_passed_flags_witness :
  let w := snd (dollar_bind 1 2 4 48 1%nat None (Samples.fresh 2)) in
  reachable 1 2 4 w
  /\ updatesTarget (bor 0 (persistentFlags (this w))) = false
  /\ updatesSource (bor 16 (persistentFlags (this w))) = false.
Proof.
  cbv zeta.
  assert (E : dollar_bind 1 2 4 48 1%nat None (Samples.fresh 2)
              = (Return tt, snd (dollar_bind 1 2 4 48 1%nat None (Samples.fresh 2))))
    by (vm_compute; reflexivity).
  assert (Hreach : reachable 1 2 4 (snd (dollar_bind 1 2 4 48 1%nat None (Samples.fresh 2)))).
  { apply (reachable_step 1 2 4 (Samples.fresh 2) _ (Return tt)).
    - exact (reachable_new 1 2 4 7 Samples.readX 1 "value" 2 Samples.locator
               (<[20%nat := VNumber 5]> ∅) ∅ []).
    - exact (step_bind 1 2 4 48 1%nat None _ _ _ E). }
  split; [exact Hreach |].
  split.
  - exact (proj1 (direction_is_that_of_the_passed_flags 1 2 4 _ 0 Hreach)).
  - exact (proj2 (direction_is_that_of_the_passed_flags 1 2 4 _ 16 Hreach)).
Defined.

(** X2: a bound binding that is notified with flags naming no direction
    (neither [updateTargetInstance] nor [updateSourceExpression]) throws
    [Reporter.error(15, flags)], with the persistent flags merged into the
    flags it reports, and changes nothing.  This holds in every world the
    binding can reach: the persistent flags never supply a direction. *)
Theorem handleChange_without_direction_throws (oneTime toView fromView : Z)
    (newValue previousValue : value) (flags : Z) (w : World) :
  reachable oneTime toView fromView w ->
  isBound (this w) = true ->
  updatesTarget flags = false ->
  updatesSource flags = false ->
  handleChange oneTime newValue previousValue flags w =
  (Throw (ReporterError 15 (bor flags (persistentFlags (this w)))), w).
Proof.
  intros Hr Hb Hf Hs.
  destruct (noDirection_bor flags _ (reachable_persistentFlags _ _ _ _ Hr))
    as [Hf' Hs'].
  apply handleChange_neither_run; congruence.
Qed.

Lemma handleChange_without_direction_throws_witness :
  let w := snd (dollar_bind 1 2 4 0 1%nat None (Samples.fresh 2)) in
  reachable 1 2 4 w
  /\ isBound (this w) = true
  /\ handleChange 1 VUndefined VUndefined 0 w
     = (Throw (ReporterError 15 (bor 0 (persistentFlags (this w)))), w).
Proof.
  cbv zeta.
  assert (E : dollar_bind 1 2 4 0 1%nat None (Samples.fresh 2)
              = (Return tt, snd (dollar_bind 1 2 4 0 1%nat None (Samples.fresh 2))))
    by (vm_compute; reflexivity).
  assert (Hreach : reachable 1 2 4 (snd (dollar_bind 1 2 4 0 1%nat None (Samples.fresh 2)))).
  { apply (reachable_step 1 2 4 (Samples.fresh 2) _ (Return tt)).
    - exact (reachable_new 1 2 4 7 Samples.readX 1 "value" 2 Samples.locator
               (<[20%nat := VNumber 5]> ∅) ∅ []).
    - exact (step_bind 1 2 4 0 1%nat None _ _ _ E). }
  assert (Hb : isBound (this (snd (dollar_bind 1 2 4 0 1%nat None (Samples.fresh 2)))) = true)
    by (vm_compute; reflexivity).
  split; [exact Hreach |]. split; [exact Hb |].
  exact (handleChange_without_direction_throws 1 2 4 VUndefined VUndefined 0 _
           Hreach Hb eq_refl eq_refl).
Defined.

(** ** [handleChange] in the target direction: what is evaluated, what is not
    assigned *)






(** X4: when the merged flags contain [updateTargetInstance], the target
    direction is taken, whatever else they contain: [handleChange] neither
    calls [updateSource] nor assigns to the source expression, it writes no
    property but the one behind the target observer, and it returns only if
    the binding has a target observer. *)
Theorem handleChange_target_direction_wins (oneTime : Z)
    (newValue previousValue : value) (flags : Z) (w w' : World) (r : Outcome unit) :
  isBound (this w) = true ->
  updatesTarget (bor flags (persistentFlags (this w))) = true ->
  handleChange oneTime newValue previousValue flags w = (r, w') ->
  existsb isUpdateSource (newEvents w w') = false
  /\ existsb isAssign (newEvents w w') = false
  /\ (r = Return tt -> exists o, targetObserver (this w) = Some o)
  /\ forall x, targetObserver (this w) <> Some x -> heap w' !! x = heap w !! x.
Proof.
  intros Hb Hf E.
  destruct (targetObserver (this w)) as [o|] eqn:Ho.
  - destruct (handleChange_target_events _ _ _ _ _ _ _ _ Hb Hf Ho E)
      as (Hheap & tail & Hev & Hcase & _).
    cbv zeta in Hheap, Hev. rewrite Hev.
    split; [| split; [| split]].
    + destruct (reevaluates (this w)), (strict_neq _ _),
        (band (mode (this w)) oneTime =? 0), Hcase as [-> | ->]; reflexivity.
    + destruct (reevaluates (this w)), (strict_neq _ _),
        (band (mode (this w)) oneTime =? 0), Hcase as [-> | ->]; reflexivity.
    + eauto.
    + intros x Hx. rewrite Hheap.
      destruct (strict_neq _ _); [| reflexivity].
      apply lookup_insert_ne. congruence.
  - apply isBound_true in Hb. unfold updatesTarget in Hf.
    revert E. unfold handleChange, theTargetObserver.
    rewrite andThen_getThis, Hb. cbv zeta. rewrite Hf.
    repeat mstep. rewrite Ho.
    intros [= <- <-]. rewrite newEvents_same.
    split; [reflexivity |]. split; [reflexivity |].
    split; [discriminate | reflexivity].
Qed.

Lemma handleChange_target_direction_wins_witness :
  let w' := snd (handleChange 1 (VNumber 6) (VNumber 5) 48 Samples.boundToView) in
  existsb isUpdateSource (newEvents Samples.boundToView w') = false
  /\ existsb isAssign (newEvents Samples.boundToView w') = false
  /\ heap w' !! 20%nat = Some (VNumber 5).
Proof.
  cbv zeta.
  destruct (handleChange_target_direction_wins 1 (VNumber 6) (VNumber 5) 48
              Samples.boundToView _ _ eq_refl eq_refl (surjective_pairing _))
    as (H1 & H2 & _ & H4).
  split; [exact H1 |]. split; [exact H2 |].
  rewrite (H4 20%nat) by discriminate. reflexivity.
Defined.



(** ** [$bind]: the target observer *)

Lemma dollar_bind_before_locator (oneTime toView fromView : Z) (fl : Z) (sc : Scope)
    (p : option string) (w w' : World) :
  ~ (isBound (this w) = true /\ scope (this w) = Some sc) ->
  dollar_bind oneTime toView fromView fl sc p w = (Return tt, w') ->
  exists w1 pre,
    bind_proceed oneTime toView fromView fl sc p w1 = (Return tt, w')
    /\ trace w1 = trace w ++ pre
    /\ existsb isLocator pre = false
    /\ this w1 =
         (if isBound (this w)
          then set_state (band (bor (state (this w)) 2) (bnot (bor 4 2)))
                 (set_slots [] (set_scope None (set_persistentFlags 0 (this w))))
          else this w).
Proof.
  intros Hnot E.
  destruct (isBound (this w)) eqn:Hb.
  - assert (Hs : scope (this w) <> Some sc) by (intros K; apply Hnot; auto).
    rewrite dollar_bind_rebind in E by assumption.
    set (w0 := with_event (InterceptorUnbind (bor fl 4096)) w) in *.
    destruct (dollar_unbind (bor fl 4096) w0) as [[[]|e] w1] eqn:E1; [| discriminate].
    assert (Hb0 : isBound (this w0) = true) by exact Hb.
    destruct (dollar_unbind_inv _ _ _ Hb0 E1)
      as (o & Ho & Hthis & Hh & SS & Ht & _ & _).
    change (this w0) with (this w) in *.
    change (observerAt w0 o) with (observerAt w o) in *.
    eexists w1, (InterceptorUnbind (bor fl 4096) :: _).
    split; [exact E |].
    split.
    { rewrite Ht. unfold w0. simpl. rewrite <- app_assoc. reflexivity. }
    split.
    { simpl.
      destruct (hasUnbind _), (has_unbind _), (has_unsubscribe _); reflexivity. }
    exact Hthis.
  - rewrite dollar_bind_unbound in E by assumption.
    exists w, []. split; [exact E |].
    split; [symmetry; apply app_nil_r |].
    split; reflexivity.
Qed.

(** X7: a [$bind] that goes ahead and returns asks the observer locator only
    when the binding has no target observer yet: once, with [getObserver] if
    the mode includes [fromView] and with [getAccessor] otherwise, and with
    the flags made strict.  Afterwards the binding has that target observer,
    and [$unbind] keeps it, whatever its outcome; so a later [$bind] uses it
    again. *)
Theorem locator_asked_only_for_a_missing_target_observer
    (oneTime toView fromView : Z) (flags : Z) (sc : Scope) (p : option string)
    (w w' : World) :
  ~ (isBound (this w) = true /\ scope (this w) = Some sc) ->
  dollar_bind oneTime toView fromView flags sc p w = (Return tt, w') ->
  let b := this w in
  let fl' := bor flags 4 in
  List.filter isLocator (newEvents w w') =
    match targetObserver b with
    | Some _ => []
    | None => [if includes (mode b) fromView
               then LocatorGetObserver fl' else LocatorGetAccessor fl']
    end
  /\ targetObserver (this w') =
       Some (match targetObserver b with
             | Some o => o
             | None =>
                 if includes (mode b) fromView
                 then getObserver (observerLocator b) fl' (target b) (targetProperty b)
                 else getAccessor (observerLocator b) fl' (target b) (targetProperty b)
             end)
  /\ forall flags2 r2 w2,
       dollar_unbind flags2 w' = (r2, w2) ->
       targetObserver (this w2) = targetObserver (this w').
Proof.
  intros Hnot E. cbv zeta.
  destruct (dollar_bind_state _ _ _ _ _ _ _ _ Hnot E)
    as ((Hbound & _ & _ & Hto' & _) & _).
  cbv zeta in Hto'.
  destruct (dollar_bind_before_locator _ _ _ _ _ _ _ _ Hnot E)
    as (w1 & pre & E1 & Ht1 & Hpre & Hthis1).
  destruct (rebind_start_fields (this w) fromView (bor flags 4))
    as (Hmode & Hexp & Hto & _ & _ & Htgt & _).
  cbv zeta in Hmode, Hexp, Hto, Htgt. rewrite <- Hthis1 in Hmode, Hexp, Hto, Htgt.
  destruct (bind_proceed_inv _ _ _ _ _ _ _ _ _ E1) as (_ & _ & _ & _ & Hr).
  destruct (Hr eq_refl) as (_ & Ht & _). clear Hr.
  cbv zeta in Ht. rewrite Ht1 in Ht.
  split; [| split].
  - rewrite (newEvents_app w w' _ (eq_trans Ht (eq_sym (app_assoc _ _ _)))).
    rewrite !List.filter_app, (filter_none_of _ _ Hpre). simpl app.
    unfold bindPrefixEvents.
    rewrite Hmode, Hexp, Hto.
    rewrite !List.filter_app.
    destruct (hasBind _), (targetObserver (this w)), (includes (mode (this w)) fromView),
      (negb _ && _), (includes (mode (this w)) toView),
      (includes _ (toViewOrOneTime oneTime toView)); reflexivity.
  - rewrite Hto'. reflexivity.
  - intros flags2 r2 w2 E2.
    rewrite (dollar_unbind_this _ _ _ _ Hbound E2). reflexivity.
Qed.

Lemma locator_asked_only_for_a_missing_target_observer_witness :
  let w1 := snd (dollar_bind 1 2 4 0 1%nat None (Samples.fresh 4)) in
  List.filter isLocator (newEvents (Samples.fresh 4) w1) = [LocatorGetObserver 4]
  /\ targetObserver (this w1) = Some 10%nat
  /\ targetObserver (this (snd (dollar_unbind 0 w1))) = Some 10%nat.
Proof.
  cbv zeta.
  assert (Hnot : ~ (isBound (this (Samples.fresh 4)) = true
                    /\ scope (this (Samples.fresh 4)) = Some 1%nat))
    by (intros [K _]; discriminate K).
  assert (E : dollar_bind 1 2 4 0 1%nat None (Samples.fresh 4)
              = (Return tt, snd (dollar_bind 1 2 4 0 1%nat None (Samples.fresh 4))))
    by (vm_compute; reflexivity).
  destruct (locator_asked_only_for_a_missing_target_observer 1 2 4 0 1%nat None
              (Samples.fresh 4) _ Hnot E) as (H1 & H2 & H3).
  split; [exact H1 |]. split; [exact H2 |].
  rewrite (H3 0 _ _ (surjective_pairing _)). exact H2.
Defined.

(** ** [$bind] that throws *)

(** X8: when [$bind] of an unbound binding throws, the binding is left in
    the binding state: [isBinding] is set, [isBound] is not, and the scope is
    the one it was being bound to.  A following [$unbind] returns at once and
    so undoes none of this. *)
Theorem failed_bind_is_left_binding (oneTime toView fromView : Z) (flags : Z)
    (sc : Scope) (p : option string) (w w' : World) (e : Error) :
  isBound (this w) = false ->
  dollar_bind oneTime toView fromView flags sc p w = (Throw e, w') ->
  isBinding (this w') = true
  /\ isBound (this w') = false
  /\ scope (this w') = Some sc
  /\ (forall flags2, dollar_unbind flags2 w' = (Return tt, w')).
Proof.
  intros Hb E.
  rewrite dollar_bind_unbound in E by assumption.
  destruct (bind_proceed_inv _ _ _ _ _ _ _ _ _ E) as (_ & _ & Hshape & Hst & _).
  cbv zeta in Hshape, Hst.
  assert (Hst' : state (this w') = bor (state (this w)) 1) by (apply Hst; discriminate).
  assert (Hb' : isBound (this w') = false).
  { unfold isBound in *. rewrite Hst', isBound_truthy, bor_testbit by lia.
    rewrite isBound_truthy in Hb. rewrite Hb. reflexivity. }
  split.
  { unfold isBinding. rewrite Hst', isBinding_truthy, bor_testbit by lia.
    apply orb_true_r. }
  split; [exact Hb' |].
  split; [rewrite Hshape; reflexivity |].
  intros flags2. apply dollar_unbind_unbound. exact Hb'.
Qed.

Lemma failed_bind_is_left_binding_witness :
  let w' := snd (dollar_bind 1 2 4 0 1%nat None Samples.freshSilentTarget) in
  fst (dollar_bind 1 2 4 0 1%nat None Samples.freshSilentTarget) = Throw TypeError
  /\ isBinding (this w') = true
  /\ isBound (this w') = false
  /\ scope (this w') = Some 1%nat
  /\ dollar_unbind 0 w' = (Return tt, w').
Proof.
  cbv zeta.
  assert (E : dollar_bind 1 2 4 0 1%nat None Samples.freshSilentTarget
              = (Throw TypeError,
                 snd (dollar_bind 1 2 4 0 1%nat None Samples.freshSilentTarget)))
    by (vm_compute; reflexivity).
  destruct (failed_bind_is_left_binding 1 2 4 0 1%nat None Samples.freshSilentTarget
              _ TypeError eq_refl E) as (H1 & H2 & H3 & H4).
  split; [rewrite E; reflexivity |].
  split; [exact H1 |]. split; [exact H2 |]. split; [exact H3 |].
  exact (H4 0).
Defined.

(** ** [$bind] followed by [$unbind] *)

Lemma target_install_untouched (o : nat) (w6 w7 : World) (r : Outcome unit) :
  (target_subscribe o ;;; let* b := getThis in orIdFlag o (id b) 32) w6 = (r, w7) ->
  forall o', o' <> o -> subs w7 o' = subs w6 o'.
Proof.
  intros E.
  unfold target_subscribe in E.
  unfold andThen, log, getThis in E. cbv beta iota in E.
  set (w6e := with_event (TargetSubscribe o) w6) in *.
  destruct (subscribe o (id (this w6e)) w6e) as [r1 w6'] eqn:E1.
  destruct (subscribe_inv _ _ _ _ _ E1) as (_ & Hne & _ & _ & _ & Hcase).
  destruct Hcase as [[-> _]|(-> & -> & _)].
  - destruct (orIdFlag_inv o (id (this w6')) 32 w6') as (w7' & E2 & _ & Hsub2).
    rewrite E2 in E. injection E as <- <-.
    intros o' Ho'. rewrite Hsub2. apply Hne. exact Ho'.
  - injection E as <- <-. reflexivity.
Qed.

(** The second half of [$bind] changes the subscribers of no observer but
    those the source expression depends on (when it connects) and the target
    observer (when it subscribes to it). *)
Lemma bindRest_untouched (toView fromView : Z) (fl : Z) (sc : Scope)
    (p : option string) (o : nat) (w5 w' : World) (r : Outcome unit) :
  bindRest toView fromView fl sc p o w5 = (r, w') ->
  let b := this w5 in
  let deps := dependencies (sourceExpression b) fl (Some sc) p (heap w5) in
  forall o',
    (includes (mode b) toView = true -> o' ∉ deps) ->
    (includes (mode b) fromView = true -> o' <> o) ->
    subs w' o' = subs w5 o'.
Proof.
  rewrite bindRest_run. intros E b deps o' Hdeps Htgt.
  assert (H6 : exists r6 w6,
    (if includes (mode b) toView
     then expr_connect (sourceExpression b) fl (Some sc) p else ret tt) w5 = (r6, w6)
    /\ mode (this w6) = mode b
    /\ subs w6 o' = subs w5 o').
  { destruct (includes (mode b) toView) eqn:Htv.
    - rewrite expr_connect_run.
      set (w5e := with_event (ExprConnect fl (Some sc) p) w5).
      destruct (forEach addObserver (dependencies (sourceExpression b) fl (Some sc) p (heap w5)) w5e)
        as [r6 w6] eqn:E6.
      exists r6, w6. split; [reflexivity |].
      destruct (connect_loop _ _ _ _ E6) as (G & Hne & _).
      destruct G as ((_ & _ & Hthis & _) & _).
      split; [rewrite Hthis; reflexivity |].
      apply Hne. apply Hdeps. reflexivity.
    - exists (Return tt), w5. auto. }
  destruct H6 as (r6 & w6 & E6 & Hmode6 & Hs6).
  fold b in E. rewrite E6 in E.
  destruct r6 as [[]|e6]; [| injection E as <- <-; exact Hs6].
  assert (H7 : exists r7 w7,
    (if includes (mode (this w6)) fromView
     then target_subscribe o ;;; let* b := getThis in orIdFlag o (id b) 32
     else ret tt) w6 = (r7, w7)
    /\ subs w7 o' = subs w6 o').
  { rewrite Hmode6. destruct (includes (mode b) fromView) eqn:Hfv.
    - destruct ((target_subscribe o ;;; let* b := getThis in orIdFlag o (id b) 32) w6)
        as [r7 w7] eqn:E7.
      exists r7, w7. split; [reflexivity |].
      apply (target_install_untouched _ _ _ _ E7). apply Htgt. reflexivity.
    - exists (Return tt), w6. auto. }
  destruct H7 as (r7 & w7 & E7 & Hs7).
  rewrite E7 in E.
  destruct r7 as [[]|e7]; injection E as <- <-.
  - change (subs w7 o' = subs w5 o'). congruence.
  - congruence.
Qed.

Lemma bind_proceed_untouched (oneTime toView fromView : Z) (fl : Z) (sc : Scope)
    (p : option string) (w w' : World) (r : Outcome unit) :
  bind_proceed oneTime toView fromView fl sc p w = (r, w') ->
  let b := this w in
  let deps := dependencies (sourceExpression b) (bor fl 4) (Some sc) p (heap w') in
  forall o',
    (includes (mode b) toView = true -> o' ∉ deps) ->
    (includes (mode b) fromView = true -> o' <> bindTarget fromView (bor fl 4) b) ->
    subs w' o' = subs w o'.
Proof.
  rewrite bind_proceed_run. intros E. cbv zeta. intros o' Hdeps Htgt.
  destruct (bindPrefix_inv oneTime toView fromView (bor fl 4) sc p w)
    as (Hthis5 & Hobs5 & _ & _).
  cbv zeta in Hthis5, Hobs5.
  set (w5 := bindPrefix oneTime toView fromView (bor fl 4) sc p w) in *.
  destruct (bindRest_inv _ _ _ _ _ _ _ _ _ E) as (Hh & _).
  cbv zeta in Hh.
  pose proof (bindRest_untouched _ _ _ _ _ _ _ _ _ E) as Hu. cbv zeta in Hu.
  assert (Hmode5 : mode (this w5) = mode (this w)) by (rewrite Hthis5; reflexivity).
  assert (Hexp5 : sourceExpression (this w5) = sourceExpression (this w))
    by (rewrite Hthis5; reflexivity).
  rewrite Hmode5, Hexp5, <- Hh in Hu.
  rewrite (Hu o' Hdeps Htgt).
  unfold subs, observerAt. rewrite Hobs5. reflexivity.
Qed.

(** X9: [$bind] of an unbound binding without observer slots, followed by
    [$unbind], both returning, leaves no subscription behind: afterwards the
    binding is a subscriber of no observer it was not a subscriber of before
    the [$bind], and the subscriptions of other bindings are as they were.
    If the mode includes [fromView], the target observer is taken to have
    [unsubscribe]: [$bind] subscribes to it because of the mode, [$unbind]
    unsubscribes only if that method exists.  (The subscriber collection and
    the [connectable] mixin are the modelled ones.) *)
Theorem bind_then_unbind_leaves_no_subscription
    (oneTime toView fromView : Z) (flags flags2 : Z) (sc : Scope)
    (p : option string) (w w1 w2 : World) :
  isBound (this w) = false ->
  slots (this w) = [] ->
  dollar_bind oneTime toView fromView flags sc p w = (Return tt, w1) ->
  dollar_unbind flags2 w1 = (Return tt, w2) ->
  (includes (mode (this w)) fromView = true ->
   has_unsubscribe
     (observerAt w (bindTarget fromView (bor flags 4) (this w))) = true) ->
  (forall o, subscribed w2 o -> subscribed w o)
  /\ (forall o j, j <> id (this w) -> (j ∈ subs w2 o <-> j ∈ subs w o))
  /\ heap w2 = heap w1.
Proof.
  intros Hb Hsl E1 E2 Hcap.
  assert (Hnot : ~ (isBound (this w) = true /\ scope (this w) = Some sc)).
  { intros [K _]. congruence. }
  destruct (dollar_bind_state _ _ _ _ _ _ _ _ Hnot E1)
    as ((Hb1 & _ & _ & Hto1 & _) & (Hid1 & Hmode1 & _ & _) & _ & Hsl1 & _).
  cbv zeta in Hto1, Hsl1. rewrite Hb, Hsl in Hsl1.
  rewrite dollar_bind_unbound in E1 by exact Hb.
  pose proof (bind_proceed_untouched _ _ _ _ _ _ _ _ _ E1) as Hu. cbv zeta in Hu.
  destruct (bind_proceed_inv _ _ _ _ _ _ _ _ _ E1) as (_ & G & _).
  cbv zeta in G. destruct G as (Hcaps & Hup & Hdown).
  destruct (dollar_unbind_inv _ _ _ Hb1 E2)
    as (o1 & Ho1 & Hthis2 & Hh2 & S & _ & Hout & Hslots).
  destruct S as (_ & Hback & Hkeep).
  rewrite Hto1 in Ho1. injection Ho1 as <-.
  set (tgt := bindTarget fromView (bor flags 4) (this w)) in *.
  assert (Hid2 : id (this w2) = id (this w)).
  { rewrite Hthis2. simpl. exact Hid1. }
  split; [| split; [| exact Hh2]].
  - intros o Hsub. unfold subscribed in *. rewrite Hid2 in Hsub.
    fold (subs w2 o) in Hsub. fold (subs w o).
    assert (Hsub1 : id (this w) ∈ subs w1 o).
    { apply Hback. exact Hsub. }
    rewrite <- (Hu o); [exact Hsub1 | |].
    + intros Htv Hd. apply (Hslots o).
      * unfold slotObservers. rewrite Hsl1, Htv.
        apply touchAll_fst. right. exact Hd.
      * unfold subscribed. rewrite Hid2. exact Hsub.
    + intros Hfv ->. apply Hout.
      * rewrite (caps_has_unsubscribe _ _ (Hcaps tgt)). apply Hcap. exact Hfv.
      * unfold subscribed. rewrite Hid2. exact Hsub.
  - intros o j Hj. split.
    + intros K. apply Hdown; [exact Hj |]. apply Hback. exact K.
    + intros K. apply Hkeep; [rewrite Hid1; exact Hj |]. apply Hup. exact K.
Qed.

Lemma bind_then_unbind_leaves_no_subscription_witness :
  let w := Samples.fresh 6 in
  let w1 := snd (dollar_bind 1 2 4 0 1%nat None w) in
  let w2 := snd (dollar_unbind 0 w1) in
  subscribed w1 20 /\ subscribed w1 10
  /\ forall o, ~ subscribed w2 o.
Proof.
  cbv zeta.
  assert (E1 : dollar_bind 1 2 4 0 1%nat None (Samples.fresh 6)
               = (Return tt, snd (dollar_bind 1 2 4 0 1%nat None (Samples.fresh 6))))
    by (vm_compute; reflexivity).
  assert (E2 : dollar_unbind 0 (snd (dollar_bind 1 2 4 0 1%nat None (Samples.fresh 6)))
               = (Return tt,
                  snd (dollar_unbind 0
                         (snd (dollar_bind 1 2 4 0 1%nat None (Samples.fresh 6))))))
    by (vm_compute; reflexivity).
  destruct (bind_then_unbind_leaves_no_subscription 1 2 4 0 0 1%nat None
              (Samples.fresh 6) _ _ eq_refl eq_refl E1 E2 (fun _ => eq_refl))
    as (H & _).
  split; [unfold subscribed; vm_compute; apply list_elem_of_here |].
  split; [unfold subscribed; vm_compute; apply list_elem_of_here |].
  intros o Ho. specialize (H o Ho).
  unfold subscribed in H. vm_compute in H. inversion H.
Defined.

(** ** [CollectionLengthObserver] *)

Lemma strict_eq_refl_of (a b : value) : strict_eq a b = true -> strict_eq a a = true.
Proof.
  destruct a, b; simpl; try discriminate; intros _; auto.
  - apply eqb_reflx.
  - apply Z.eqb_refl.
  - apply String.eqb_refl.
  - apply Nat.eqb_refl.
Qed.

Lemma updatesTarget_bor_16 (fl : Z) : updatesTarget (bor fl 16) = true.
Proof.
  unfold updatesTarget. rewrite updateTargetInstance_gtb, bor_testbit by lia.
  apply orb_true_r.
Qed.

Lemma last_cons_default {A : Type} (x : A) (l : list A) (d d' : A) :
  List.last (x :: l) d = List.last (x :: l) d'.
Proof.
  revert x. induction l as [|y l IH]; intros x; [reflexivity |].
  change (List.last (y :: l) d = List.last (y :: l) d'). apply IH.
Qed.

(** X10: over any series of [setValue] calls, the calls of [callSubscribers]
    hand on the stored value: each reports as previous value the new value
    of the call before it (the first one: the value stored at the start), a
    new value that is [!==] it, and flags that contain
    [updateTargetInstance]; the observer ends with the last value reported;
    there are no more notifications than calls; and [getValue] returns what
    it returned before, since it reads the length of the array and [setValue]
    does not write it. *)
Theorem setValue_notifications_hand_on_the_value
    (calls : list (value * Z)) (this : CollectionLengthObserver.t) :
  let after := fst (setValues calls this) in
  let ns := snd (setValues calls this) in
  handsOn (CollectionLengthObserver.currentValue this) ns
  /\ CollectionLengthObserver.currentValue after =
       List.last (map CollectionLengthObserver.n_newValue ns)
            (CollectionLengthObserver.currentValue this)
  /\ CollectionLengthObserver.getValue after = CollectionLengthObserver.getValue this
  /\ (length ns <= length calls)%nat.
Proof.
  cbv zeta. revert this.
  induction calls as [|[v fl] rest IH]; intros this.
  - simpl. auto.
  - destruct (IH (fst (CollectionLengthObserver.setValue v fl this)))
      as (H1 & H2 & H3 & H4).
    cbn [setValues fst snd].
    unfold CollectionLengthObserver.setValue in *.
    destruct (strict_neq v (CollectionLengthObserver.currentValue this)) eqn:Hneq;
      cbn [fst snd CollectionLengthObserver.currentValue
           CollectionLengthObserver.obj_length] in *.
    + split; [| split; [| split]].
      * simpl. split; [reflexivity |]. split; [exact Hneq |].
        split; [apply updatesTarget_bor_16 | exact H1].
      * rewrite H2. cbn [app map].
        destruct (snd (setValues rest _)) as [|n ns]; [reflexivity |].
        exact (last_cons_default (CollectionLengthObserver.n_newValue n)
                 (map CollectionLengthObserver.n_newValue ns) v
                 (CollectionLengthObserver.currentValue this)).
      * exact H3.
      * simpl. lia.
    + split; [exact H1 |]. split; [exact H2 |]. split; [exact H3 |].
      simpl. lia.
Qed.

(** X11: [setValue] called again with the value just set notifies nobody and
    changes nothing, for every value that is [===] itself; with [NaN], which
    is not, every call notifies, reporting [NaN] both as the new and as the
    previous value. *)
Theorem setValue_again_with_the_same_value
    (v : value) (flags1 flags2 : Z) (this : CollectionLengthObserver.t) :
  let once := fst (CollectionLengthObserver.setValue v flags1 this) in
  CollectionLengthObserver.setValue v flags2 once =
    if strict_eq v v then (once, [])
    else ({| CollectionLengthObserver.obj_length :=
               CollectionLengthObserver.obj_length this;
             CollectionLengthObserver.currentValue := v |},
          [ {| CollectionLengthObserver.n_newValue := v;
               CollectionLengthObserver.n_previousValue := v;
               CollectionLengthObserver.n_flags := bor flags2 16 |} ]).
Proof.
  cbv zeta. unfold CollectionLengthObserver.setValue.
  destruct (strict_neq v (CollectionLengthObserver.currentValue this)) eqn:Hneq;
    cbn [fst CollectionLengthObserver.currentValue CollectionLengthObserver.obj_length].
  - unfold strict_neq. destruct (strict_eq v v); reflexivity.
  - rewrite Hneq.
    unfold strict_neq in Hneq. apply negb_false_iff in Hneq.
    rewrite (strict_eq_refl_of _ _ Hneq). reflexivity.
Qed.

(** ** [mergeDistinct] *)

Lemma vpaIn_app (l1 l2 : list Router.RouteNode) (n : Router.RouteNode) :
  vpaIn (l1 ++ l2) n = vpaIn l1 n || vpaIn l2 n.
Proof. apply existsb_app. Qed.

Lemma vpaIn_true (l : list Router.RouteNode) (n : Router.RouteNode) :
  vpaIn l n = true <-> exists m, m ∈ l /\ Router.context_vpa m = Router.context_vpa n.
Proof.
  unfold vpaIn. rewrite existsb_exists. split.
  - intros (m & Hm & E). exists m. split; [apply list_elem_of_In; exact Hm |].
    apply Nat.eqb_eq. exact E.
  - intros (m & Hm & E). exists m. split; [apply list_elem_of_In; exact Hm |].
    apply Nat.eqb_eq. exact E.
Qed.

Lemma vpaIn_self (l : list Router.RouteNode) (n : Router.RouteNode) :
  n ∈ l -> vpaIn l n = true.
Proof. intros H. apply vpaIn_true. exists n. auto. Qed.

Lemma vpaIn_same_vpa (l : list Router.RouteNode) (n m : Router.RouteNode) :
  Router.context_vpa n = Router.context_vpa m -> vpaIn l n = vpaIn l m.
Proof. intros E. unfold vpaIn. rewrite E. reflexivity. Qed.

(** The test [merged.every(m => m.context.vpa !== p.context.vpa)]. *)
Lemma every_differs (merged : list Router.RouteNode) (p : Router.RouteNode) :
  forallb (fun m => negb (Router.context_vpa m =? Router.context_vpa p)%nat) merged
  = negb (vpaIn merged p).
Proof.
  unfold vpaIn. induction merged as [|m l IH]; simpl; [reflexivity |].
  rewrite IH, negb_orb. reflexivity.
Qed.

(** [findIndex]: either no element passes and the result is [-1], or the
    result is the place of the first element that passes. *)
Lemma findIndexFrom_spec (i : Z) (f : Router.RouteNode -> bool)
    (l : list Router.RouteNode) :
  0 <= i ->
  (Router.findIndexFrom i f l = -1 /\ forall x, x ∈ l -> f x = false)
  \/ (exists pre x post,
        l = pre ++ x :: post /\ (forall y, y ∈ pre -> f y = false) /\ f x = true
        /\ Router.findIndexFrom i f l = i + Z.of_nat (length pre)).
Proof.
  revert i. induction l as [|n l IH]; intros i Hi.
  - left. split; [reflexivity |]. intros x Hx. inversion Hx.
  - simpl. destruct (f n) eqn:Hn.
    + right. exists [], n, l. simpl. split; [reflexivity |].
      split; [intros y Hy; inversion Hy |]. split; [exact Hn | lia].
    + destruct (IH (i + 1) ltac:(lia)) as [[E Hall] | (pre & x & post & -> & Hpre & Hx & E)].
      * left. split; [exact E |].
        intros x Hx. apply elem_of_cons in Hx. destruct Hx as [-> | Hx]; auto.
      * right. exists (n :: pre), x, post. split; [reflexivity |].
        split.
        { intros y Hy. apply elem_of_cons in Hy. destruct Hy as [-> | Hy]; auto. }
        split; [exact Hx |]. rewrite E. simpl length. lia.
Qed.

(** One turn of the loop, by cases. *)
Lemma mergeLoop_step (p : Router.RouteNode) (prev next merged : list Router.RouteNode) :
  (vpaIn merged p = true
   /\ Router.mergeLoop (p :: prev) next merged = Router.mergeLoop prev next merged)
  \/ (vpaIn merged p = false /\ vpaIn next p = false
      /\ Router.mergeLoop (p :: prev) next merged
         = Router.mergeLoop prev next (merged ++ [p]))
  \/ (vpaIn merged p = false
      /\ exists pre x post,
           next = pre ++ x :: post
           /\ vpaIn pre p = false
           /\ Router.context_vpa x = Router.context_vpa p
           /\ Router.mergeLoop (p :: prev) next merged
              = Router.mergeLoop prev post (merged ++ (pre ++ [x]))).
Proof.
  cbn [Router.mergeLoop]. rewrite every_differs.
  destruct (vpaIn merged p) eqn:Hm; [left; auto |]. right.
  cbn [negb]. unfold Router.findIndex.
  destruct (findIndexFrom_spec 0
              (fun n => (Router.context_vpa n =? Router.context_vpa p)%nat) next)
    as [[E Hall] | (pre & x & post & -> & Hpre & Hx & E)]; [lia | |].
  - left. split; [reflexivity |]. rewrite E. split; [| reflexivity].
    unfold vpaIn. apply not_true_is_false. intros K.
    apply existsb_exists in K. destruct K as (m & Hin & Hmx).
    apply list_elem_of_In in Hin. rewrite (Hall m Hin) in Hmx. discriminate.
  - right. split; [reflexivity |]. exists pre, x, post.
    split; [reflexivity |].
    split.
    { unfold vpaIn. apply not_true_is_false. intros K.
      apply existsb_exists in K. destruct K as (m & Hin & Hmx).
      apply list_elem_of_In in Hin. rewrite (Hpre m Hin) in Hmx. discriminate. }
    split; [apply Nat.eqb_eq; exact Hx |].
    rewrite E.
    replace (0 + Z.of_nat (length pre) >=? 0) with true
      by (symmetry; apply Z.geb_le; lia).
    replace (Z.to_nat (0 + Z.of_nat (length pre) + 1)) with (length (pre ++ [x]))
      by (rewrite length_app; simpl; lia).
    replace (pre ++ x :: post) with ((pre ++ [x]) ++ post)
      by (rewrite <- app_assoc; reflexivity).
    rewrite take_app_length, drop_app_length. reflexivity.
Qed.

(** What the loop adds to [merged]. *)
Lemma mergeLoop_spec (prev next merged : list Router.RouteNode) :
  exists tail,
    Router.mergeLoop prev next merged = merged ++ tail
    /\ List.filter (vpaIn (merged ++ next)) tail = next
    /\ (forall x, x ∈ tail ->
          x ∈ next \/ (x ∈ prev /\ vpaIn (merged ++ next) x = false))
    /\ NoDup (map Router.context_vpa
                (List.filter (fun x => negb (vpaIn (merged ++ next) x)) tail))
    /\ (forall p, p ∈ prev -> vpaIn (merged ++ tail) p = true).
Proof.
  revert next merged. induction prev as [|p prev IH]; intros next merged.
  - exists next. split; [reflexivity |].
    assert (Hall : forall x, x ∈ next -> vpaIn (merged ++ next) x = true).
    { intros x Hx. rewrite vpaIn_app, (vpaIn_self next x Hx). apply orb_true_r. }
    split; [| split; [| split]].
    + clear -Hall. revert Hall. generalize (vpaIn (merged ++ next)). intros f Hall.
      induction next as [|n l IHl]; [reflexivity |].
      simpl. rewrite (Hall n) by apply list_elem_of_here.
      f_equal. apply IHl. intros x Hx. apply Hall. apply list_elem_of_further. exact Hx.
    + auto.
    + replace (List.filter _ next) with (@nil Router.RouteNode); [constructor |].
      symmetry. clear -Hall. revert Hall. generalize (vpaIn (merged ++ next)).
      intros f Hall.
      induction next as [|n l IHl]; [reflexivity |].
      simpl. rewrite (Hall n) by apply list_elem_of_here. simpl.
      apply IHl. intros x Hx. apply Hall. apply list_elem_of_further. exact Hx.
    + intros p Hp. inversion Hp.
  - destruct (mergeLoop_step p prev next merged)
      as [(Hm & ->) | [(Hm & Hn & ->) | (Hm & pre & x & post & -> & Hpre & Hx & ->)]].
    + (* p's viewport agent is in [merged] already *)
      destruct (IH next merged) as (tail & E & HA & HB & HC & HD).
      exists tail. split; [exact E |]. split; [exact HA |].
      split.
      { intros y Hy. destruct (HB y Hy) as [K | [K1 K2]]; [left; exact K |].
        right. split; [apply list_elem_of_further; exact K1 | exact K2]. }
      split; [exact HC |].
      intros q Hq. apply elem_of_cons in Hq. destruct Hq as [-> | Hq]; [| auto].
      rewrite vpaIn_app, Hm. reflexivity.
    + (* p goes to [merged] *)
      destruct (IH next (merged ++ [p])) as (tail & E & HA & HB & HC & HD).
      assert (HS : forall y, vpaIn ((merged ++ [p]) ++ next) y
                 = vpaIn (merged ++ next) y
                   || (Router.context_vpa p =? Router.context_vpa y)%nat).
      { intros y. rewrite !vpaIn_app. unfold vpaIn at 2. simpl.
        rewrite orb_false_r.
        destruct (vpaIn merged y), (vpaIn next y), (_ =? _)%nat; reflexivity. }
      assert (Hp : vpaIn (merged ++ next) p = false).
      { rewrite vpaIn_app, Hm, Hn. reflexivity. }
      assert (Hnone : forall y, y ∈ tail ->
                Router.context_vpa p = Router.context_vpa y -> False).
      { intros y Hy Heq. destruct (HB y Hy) as [K | [_ K]].
        - rewrite (vpaIn_same_vpa next p y Heq), (vpaIn_self next y K) in Hn.
          discriminate.
        - rewrite HS in K. apply orb_false_iff in K. destruct K as [_ K].
          apply Nat.eqb_neq in K. auto. }
      assert (Hsame : forall y, y ∈ tail ->
                vpaIn ((merged ++ [p]) ++ next) y = vpaIn (merged ++ next) y).
      { intros y Hy. rewrite HS.
        destruct (Router.context_vpa p =? Router.context_vpa y)%nat eqn:K.
        - apply Nat.eqb_eq in K. destruct (Hnone y Hy K).
        - apply orb_false_r. }
      exists (p :: tail).
      split; [rewrite E, <- app_assoc; reflexivity |].
      split; [| split; [| split]].
      * simpl. rewrite Hp. rewrite <- HA at 2.
        apply List.filter_ext_in. intros y Hy. symmetry. apply Hsame.
        apply list_elem_of_In. exact Hy.
      * intros y Hy. apply elem_of_cons in Hy. destruct Hy as [-> | Hy].
        { right. split; [apply list_elem_of_here | exact Hp]. }
        destruct (HB y Hy) as [K | [K1 K2]]; [left; exact K |].
        right. split; [apply list_elem_of_further; exact K1 |].
        rewrite <- (Hsame y Hy). exact K2.
      * simpl. rewrite Hp. simpl.
        rewrite (List.filter_ext_in
                   (fun x => negb (vpaIn (merged ++ next) x))
                   (fun x => negb (vpaIn ((merged ++ [p]) ++ next) x))).
        2:{ intros y Hy. rewrite Hsame; [reflexivity |].
            apply list_elem_of_In. exact Hy. }
        apply NoDup_cons. split; [| exact HC].
        intros K. apply list_elem_of_fmap in K. destruct K as (y & Heq & Hy).
        apply list_elem_of_In, List.filter_In in Hy. destruct Hy as [Hy _].
        apply list_elem_of_In in Hy. exact (Hnone y Hy Heq).
      * intros q Hq. apply elem_of_cons in Hq. destruct Hq as [-> | Hq].
        { rewrite vpaIn_app. rewrite (vpaIn_self (p :: tail) p) by apply list_elem_of_here.
          apply orb_true_r. }
        specialize (HD q Hq). rewrite <- app_assoc in HD. exact HD.
    + (* the nodes of [next] up to p's viewport agent go to [merged] *)
      destruct (IH post (merged ++ (pre ++ [x]))) as (tail & E & HA & HB & HC & HD).
      assert (HL : (merged ++ pre ++ [x]) ++ post = merged ++ pre ++ x :: post).
      { rewrite <- !app_assoc. reflexivity. }
      rewrite HL in HA, HB, HC.
      assert (Hin : forall y, y ∈ pre ++ [x] ->
                      vpaIn (merged ++ pre ++ x :: post) y = true).
      { intros y Hy. rewrite vpaIn_app. apply orb_true_iff. right.
        apply vpaIn_self. apply elem_of_app in Hy.
        destruct Hy as [Hy | Hy]; [apply elem_of_app; left; exact Hy |].
        apply elem_of_app. right. apply list_elem_of_singleton in Hy. subst y.
        apply list_elem_of_here. }
      exists ((pre ++ [x]) ++ tail).
      split; [rewrite E, <- !app_assoc; reflexivity |].
      split; [| split; [| split]].
      * rewrite List.filter_app, HA.
        replace (List.filter _ (pre ++ [x])) with (pre ++ [x]);
          [rewrite <- app_assoc; reflexivity |].
        symmetry. clear -Hin. revert Hin.
        generalize (vpaIn (merged ++ pre ++ x :: post)). intros f.
        generalize (pre ++ [x]). intros l Hall.
        induction l as [|n l IHl]; [reflexivity |].
        simpl. rewrite (Hall n) by apply list_elem_of_here.
        f_equal. apply IHl. intros y Hy. apply Hall. apply list_elem_of_further. exact Hy.
      * intros y Hy. apply elem_of_app in Hy. destruct Hy as [Hy | Hy].
        { left. replace (pre ++ x :: post) with ((pre ++ [x]) ++ post)
            by (rewrite <- app_assoc; reflexivity).
          apply elem_of_app. left. exact Hy. }
        destruct (HB y Hy) as [K | [K1 K2]].
        { left. apply elem_of_app. right. apply list_elem_of_further. exact K. }
        right. split; [apply list_elem_of_further; exact K1 | exact K2].
      * rewrite List.filter_app.
        replace (List.filter _ (pre ++ [x])) with (@nil Router.RouteNode);
          [exact HC |].
        symmetry. clear -Hin. revert Hin.
        generalize (vpaIn (merged ++ pre ++ x :: post)). intros f.
        generalize (pre ++ [x]). intros l Hall.
        induction l as [|n l IHl]; [reflexivity |].
        simpl. rewrite (Hall n) by apply list_elem_of_here. simpl.
        apply IHl. intros y Hy. apply Hall. apply list_elem_of_further. exact Hy.
      * intros q Hq. apply elem_of_cons in Hq. destruct Hq as [-> | Hq].
        { rewrite vpaIn_app. apply orb_true_iff. right.
          rewrite <- (vpaIn_same_vpa _ x p Hx).
          apply vpaIn_self. apply elem_of_app. left. apply elem_of_app. right.
          apply list_elem_of_here. }
        specialize (HD q Hq). rewrite <- !app_assoc in HD. rewrite <- !app_assoc. exact HD.
Qed.

(** The loop changes nothing but the split between [merged] and [next] when
    every viewport agent of [prev] is in one of them already. *)
Lemma mergeLoop_absorbed (prev next merged : list Router.RouteNode) :
  (forall p, p ∈ prev -> vpaIn (merged ++ next) p = true) ->
  Router.mergeLoop prev next merged = merged ++ next.
Proof.
  revert next merged. induction prev as [|p prev IH]; intros next merged Hall;
    [reflexivity |].
  assert (Hrest : forall q, q ∈ prev -> vpaIn (merged ++ next) q = true).
  { intros q Hq. apply Hall. apply list_elem_of_further. exact Hq. }
  destruct (mergeLoop_step p prev next merged)
    as [(Hm & ->) | [(Hm & Hn & ->) | (Hm & pre & x & post & -> & Hpre & Hx & ->)]].
  - apply IH. exact Hrest.
  - specialize (Hall p (list_elem_of_here _ _)).
    rewrite vpaIn_app, Hm, Hn in Hall. discriminate.
  - rewrite IH.
    + rewrite <- !app_assoc. reflexivity.
    + intros q Hq. specialize (Hrest q Hq).
      rewrite <- !app_assoc. exact Hrest.
Qed.

Lemma filter_all_elem {A : Type} (f : A -> bool) (l : list A) :
  (forall x, x ∈ l -> f x = true) -> List.filter f l = l.
Proof.
  intros Hall. induction l as [|n l IHl]; [reflexivity |].
  simpl. rewrite (Hall n) by apply list_elem_of_here.
  f_equal. apply IHl. intros x Hx. apply Hall. apply list_elem_of_further. exact Hx.
Qed.

Lemma mergeDistinct_spec (prev next : list Router.RouteNode) :
  List.filter (vpaIn next) (Router.mergeDistinct prev next) = next
  /\ (forall x, x ∈ Router.mergeDistinct prev next ->
        x ∈ next \/ (x ∈ prev /\ vpaIn next x = false))
  /\ NoDup (map Router.context_vpa
              (List.filter (fun x => negb (vpaIn next x))
                           (Router.mergeDistinct prev next)))
  /\ (forall p, p ∈ prev -> vpaIn (Router.mergeDistinct prev next) p = true).
Proof.
  unfold Router.mergeDistinct.
  destruct (mergeLoop_spec prev next []) as (tail & -> & HA & HB & HC & HD).
  simpl in *. auto.
Qed.

Lemma mergeDistinct_next_elem (prev next : list Router.RouteNode) (x : Router.RouteNode) :
  x ∈ next -> x ∈ Router.mergeDistinct prev next.
Proof.
  intros Hx. destruct (mergeDistinct_spec prev next) as (HA & _).
  rewrite <- HA in Hx. apply list_elem_of_In, List.filter_In in Hx.
  apply list_elem_of_In. tauto.
Qed.

Lemma mergeDistinct_vpaIn (prev next : list Router.RouteNode) (n : Router.RouteNode) :
  vpaIn (Router.mergeDistinct prev next) n = vpaIn prev n || vpaIn next n.
Proof.
  destruct (mergeDistinct_spec prev next) as (HA & HB & _ & HD).
  apply eq_true_iff_eq. rewrite orb_true_iff, !vpaIn_true. split.
  - intros (m & Hm & E). destruct (HB m Hm) as [K | [K _]]; [right | left]; eauto.
  - intros [(m & Hm & E) | (m & Hm & E)].
    + specialize (HD m Hm). apply vpaIn_true in HD. destruct HD as (m' & Hm' & E').
      exists m'. split; [exact Hm' | congruence].
    + exists m. split; [apply mergeDistinct_next_elem; exact Hm | exact E].
Qed.

Lemma NoDup_map_partition {A : Type} (f : A -> nat) (P : A -> bool) (l : list A) :
  (forall x y, x ∈ l -> y ∈ l -> f x = f y -> P x = P y) ->
  NoDup (map f (List.filter P l)) ->
  NoDup (map f (List.filter (fun x => negb (P x)) l)) ->
  NoDup (map f l).
Proof.
  induction l as [|x l IH]; intros Hresp H1 H2; [constructor |].
  assert (Hresp' : forall a b, a ∈ l -> b ∈ l -> f a = f b -> P a = P b).
  { intros a b Ha Hb. apply Hresp; apply list_elem_of_further; assumption. }
  simpl in H1, H2. simpl. apply NoDup_cons.
  destruct (P x) eqn:Px; simpl in H1, H2.
  - apply NoDup_cons in H1. destruct H1 as [Hnot H1].
    split; [| apply IH; assumption].
    intros K. apply list_elem_of_fmap in K. destruct K as (y & E & Hy).
    apply Hnot. apply list_elem_of_fmap. exists y. split; [exact E |].
    apply list_elem_of_In, List.filter_In. split; [apply list_elem_of_In; exact Hy |].
    rewrite <- (Hresp x y (list_elem_of_here _ _) (list_elem_of_further _ _ _ Hy) E).
    exact Px.
  - apply NoDup_cons in H2. destruct H2 as [Hnot H2].
    split; [| apply IH; assumption].
    intros K. apply list_elem_of_fmap in K. destruct K as (y & E & Hy).
    apply Hnot. apply list_elem_of_fmap. exists y. split; [exact E |].
    apply list_elem_of_In, List.filter_In. split; [apply list_elem_of_In; exact Hy |].
    rewrite <- (Hresp x y (list_elem_of_here _ _) (list_elem_of_further _ _ _ Hy) E).
    rewrite Px. reflexivity.
Qed.

Lemma NoDup_map_filter {A : Type} (f : A -> nat) (P : A -> bool) (l : list A) :
  NoDup (map f l) -> NoDup (map f (List.filter P l)).
Proof.
  induction l as [|x l IH]; intros H; [constructor |].
  simpl in H. apply NoDup_cons in H. destruct H as [Hnot H].
  simpl. destruct (P x); [| auto].
  simpl. apply NoDup_cons. split; [| auto].
  intros K. apply Hnot. apply list_elem_of_fmap in K. destruct K as (y & E & Hy).
  apply list_elem_of_fmap. exists y. split; [exact E |].
  apply list_elem_of_In, List.filter_In in Hy. apply list_elem_of_In. tauto.
Qed.

(** X12: [mergeDistinct] keeps [next] whole and in order: the nodes of the
    result whose viewport agent occurs in [next] are exactly [next].  Every
    other node of the result is a node of [prev], and its viewport agent
    does not occur in [next]. *)
Theorem mergeDistinct_keeps_next_whole (prev next : list Router.RouteNode) :
  List.filter (vpaIn next) (Router.mergeDistinct prev next) = next
  /\ (forall x, x ∈ Router.mergeDistinct prev next ->
        x ∈ next \/ (x ∈ prev /\ vpaIn next x = false)).
Proof.
  destruct (mergeDistinct_spec prev next) as (HA & HB & _). auto.
Qed.

(** X13: the viewport agents of the nodes of [mergeDistinct(prev, next)] are
    those of [prev] and those of [next], no more and no fewer. *)
Theorem mergeDistinct_viewport_agents (prev next : list Router.RouteNode)
    (n : Router.RouteNode) :
  vpaIn (Router.mergeDistinct prev next) n = vpaIn prev n || vpaIn next n.
Proof.
  apply mergeDistinct_vpaIn.
Qed.

(** X14: the result of [mergeDistinct] has one node per viewport agent
    exactly when [next] has: the nodes taken from [prev] never repeat a
    viewport agent, neither one of [next] nor one of their own. *)
Theorem mergeDistinct_distinct (prev next : list Router.RouteNode) :
  NoDup (map Router.context_vpa (Router.mergeDistinct prev next))
  <-> NoDup (map Router.context_vpa next).
Proof.
  destruct (mergeDistinct_spec prev next) as (HA & _ & HC & _).
  split.
  - intros H. rewrite <- HA. apply NoDup_map_filter. exact H.
  - intros H. apply (NoDup_map_partition _ (vpaIn next)).
    + intros x y _ _ E. apply vpaIn_same_vpa. exact E.
    + rewrite HA. exact H.
    + exact HC.
Qed.

(** X15: when every viewport agent of [prev] occurs in [next],
    [mergeDistinct(prev, next)] is [next]. *)
Theorem mergeDistinct_absorbs (prev next : list Router.RouteNode) :
  (forall p, p ∈ prev -> vpaIn next p = true) ->
  Router.mergeDistinct prev next = next.
Proof.
  intros Hall. unfold Router.mergeDistinct.
  rewrite mergeLoop_absorbed; [reflexivity | exact Hall].
Qed.

Lemma mergeDistinct_absorbs_witness :
  Router.mergeDistinct
    [Samples.routeNode 1 1; Samples.routeNode 2 2]
    [Samples.routeNode 12 2; Samples.routeNode 13 3; Samples.routeNode 11 1]
  = [Samples.routeNode 12 2; Samples.routeNode 13 3; Samples.routeNode 11 1].
Proof.
  apply (mergeDistinct_absorbs
           [Samples.routeNode 1 1; Samples.routeNode 2 2]
           [Samples.routeNode 12 2; Samples.routeNode 13 3; Samples.routeNode 11 1]).
  intros p Hp.
  repeat (apply elem_of_cons in Hp; destruct Hp as [-> | Hp]; [reflexivity |]).
  inversion Hp.
Defined.

(** X16: merging [prev] into a result of [mergeDistinct(prev, next)] again
    changes nothing; merging a list with itself returns it; and with an
    empty [prev] the result is [next]. *)
Theorem mergeDistinct_idempotent (prev next : list Router.RouteNode) :
  Router.mergeDistinct prev (Router.mergeDistinct prev next)
  = Router.mergeDistinct prev next
  /\ Router.mergeDistinct next next = next
  /\ Router.mergeDistinct [] next = next.
Proof.
  split; [| split].
  - unfold Router.mergeDistinct at 1.
    rewrite mergeLoop_absorbed; [reflexivity |].
    intros p Hp. simpl. rewrite mergeDistinct_vpaIn, (vpaIn_self prev p Hp).
    reflexivity.
  - unfold Router.mergeDistinct.
    rewrite mergeLoop_absorbed; [reflexivity |].
    intros p Hp. apply vpaIn_self. exact Hp.
  - reflexivity.
Qed.

(** ** [Signaler] *)

Lemma listenersOf_add (name name' : string) (l : nat) (s : Signaler.t) :
  listenersOf name' (Signaler.addSignalListener name l s) =
  if bool_decide (name' = name)
  then Signaler.set_add l (listenersOf name s)
  else listenersOf name' s.
Proof.
  unfold listenersOf, Signaler.addSignalListener.
  case_bool_decide as Hn.
  - subst name'. destruct (Signaler.signals s !! name) as [ls|] eqn:E;
      cbn [Signaler.signals]; rewrite lookup_insert_eq; simpl.
    + reflexivity.
    + unfold Signaler.set_add. rewrite bool_decide_eq_false_2; [reflexivity |].
      intros K. inversion K.
  - destruct (Signaler.signals s !! name) as [ls|] eqn:E;
      cbn [Signaler.signals]; rewrite lookup_insert_ne by congruence;
      reflexivity.
Qed.

Lemma listenersOf_remove (name name' : string) (l : nat) (s : Signaler.t) :
  listenersOf name' (Signaler.removeSignalListener name l s) =
  if bool_decide (name' = name)
  then Signaler.set_delete l (listenersOf name s)
  else listenersOf name' s.
Proof.
  unfold listenersOf, Signaler.removeSignalListener.
  case_bool_decide as Hn.
  - subst name'. destruct (Signaler.signals s !! name) as [ls|] eqn:E.
    + cbn [Signaler.signals]. rewrite lookup_insert_eq. reflexivity.
    + rewrite E. reflexivity.
  - destruct (Signaler.signals s !! name) as [ls|] eqn:E; [| reflexivity].
    cbn [Signaler.signals]. rewrite lookup_insert_ne by congruence. reflexivity.
Qed.

Lemma dispatchSignal_listeners (name : string) (fl : Z) (s : Signaler.t) :
  Signaler.dispatchSignal name fl s =
  map (fun l => {| Signaler.listener := l; Signaler.newValue := VUndefined;
                   Signaler.previousValue := VUndefined; Signaler.flags := fl |})
      (listenersOf name s).
Proof.
  unfold Signaler.dispatchSignal, listenersOf.
  destruct (Signaler.signals s !! name); reflexivity.
Qed.


Lemma set_delete_elem (x y : nat) (ls : list nat) :
  y ∈ Signaler.set_delete x ls <-> y ∈ ls /\ y <> x.
Proof.
  unfold Signaler.set_delete. rewrite list_elem_of_filter. tauto.
Qed.

Lemma set_add_NoDup (x : nat) (ls : list nat) :
  NoDup ls -> NoDup (Signaler.set_add x ls).
Proof.
  intros H. unfold Signaler.set_add. case_bool_decide as Hx; [exact H |].
  apply NoDup_app. split; [exact H |]. split.
  - intros y Hy K. apply list_elem_of_singleton in K. subst y. auto.
  - apply NoDup_singleton.
Qed.

Lemma set_delete_NoDup (x : nat) (ls : list nat) :
  NoDup ls -> NoDup (Signaler.set_delete x ls).
Proof. intros H. unfold Signaler.set_delete. apply NoDup_filter. exact H. Qed.

Lemma built_NoDup (s : Signaler.t) (name : string) :
  built s -> NoDup (listenersOf name s).
Proof.
  intros H. revert name. induction H as [| n l s _ IH | n l s _ IH]; intros name.
  - unfold listenersOf, Signaler.new. simpl. rewrite lookup_empty. constructor.
  - rewrite listenersOf_add. case_bool_decide; [apply set_add_NoDup |]; apply IH.
  - rewrite listenersOf_remove. case_bool_decide; [apply set_delete_NoDup |]; apply IH.
Qed.


(** X18: [dispatchSignal] calls a listener at most once, however often it
    was added: in every signaler made from a new one by [addSignalListener]
    and [removeSignalListener]. *)
Theorem dispatchSignal_calls_each_listener_once (s : Signaler.t) (name : string)
    (flags : Z) :
  built s ->
  NoDup (map Signaler.listener (Signaler.dispatchSignal name flags s)).
Proof.
  intros H. rewrite dispatchSignal_listeners, map_map. simpl.
  rewrite map_id. apply built_NoDup. exact H.
Qed.

Lemma dispatchSignal_calls_each_listener_once_witness :
  let s := Signaler.addSignalListener "update" 7
             (Signaler.addSignalListener "update" 8
                (Signaler.addSignalListener "update" 7 Signaler.new)) in
  built s
  /\ NoDup (map Signaler.listener (Signaler.dispatchSignal "update" 16 s)).
Proof.
  cbv zeta.
  pose proof (built_add "update" 7 _
                (built_add "update" 8 _
                   (built_add "update" 7 _ built_new))) as Hb.
  split; [exact Hb |].
  exact (dispatchSignal_calls_each_listener_once _ "update" 16 Hb).
Defined.

Lemma set_delete_fresh (x : nat) (ls : list nat) :
  x ∉ ls -> Signaler.set_delete x ls = ls.
Proof.
  unfold Signaler.set_delete. induction ls as [|y ls IH]; intros Hx; [reflexivity |].
  apply not_elem_of_cons in Hx. destruct Hx as [Hne Hx].
  rewrite filter_cons_True by auto. f_equal. apply IH. exact Hx.
Qed.

Lemma set_delete_set_add (x : nat) (ls : list nat) :
  Signaler.set_delete x (Signaler.set_add x ls) = Signaler.set_delete x ls.
Proof.
  unfold Signaler.set_add. case_bool_decide as Hx; [reflexivity |].
  unfold Signaler.set_delete. rewrite filter_app.
  rewrite (filter_cons_False _ x) by auto. rewrite filter_nil, app_nil_r.
  reflexivity.
Qed.

(** X19: registrations are not counted.  Adding a listener that is already
    registered for the name changes nothing; removing a listener that was
    added and had not been registered before restores what every dispatch
    does; and after adding a listener twice and removing it once,
    [dispatchSignal] does not call it. *)
Theorem signaler_registrations_are_not_counted (name : string) (l : nat)
    (s : Signaler.t) :
  (l ∈ listenersOf name s -> Signaler.addSignalListener name l s = s)
  /\ (l ∉ listenersOf name s ->
      forall name' flags,
        Signaler.dispatchSignal name' flags
          (Signaler.removeSignalListener name l (Signaler.addSignalListener name l s))
        = Signaler.dispatchSignal name' flags s)
  /\ (forall flags,
        l ∉ map Signaler.listener
              (Signaler.dispatchSignal name flags
                 (Signaler.removeSignalListener name l
                    (Signaler.addSignalListener name l
                       (Signaler.addSignalListener name l s))))).
Proof.
  split; [| split].
  - unfold listenersOf, Signaler.addSignalListener.
    destruct (Signaler.signals s !! name) as [ls|] eqn:E; simpl.
    + intros Hl. unfold Signaler.set_add. rewrite bool_decide_eq_true_2 by exact Hl.
      rewrite insert_id by exact E. destruct s; reflexivity.
    + intros K. inversion K.
  - intros Hl name' flags. rewrite !dispatchSignal_listeners. f_equal.
    rewrite listenersOf_remove, !listenersOf_add.
    case_bool_decide as Hn; [| reflexivity]. subst name'.
    rewrite bool_decide_eq_true_2 by reflexivity.
    rewrite set_delete_set_add. apply set_delete_fresh. exact Hl.
  - intros flags. rewrite dispatchSignal_listeners, map_map. simpl. rewrite map_id.
    rewrite listenersOf_remove, bool_decide_eq_true_2 by reflexivity.
    rewrite set_delete_elem. tauto.
Qed.

(** ** [runSequence] *)

Lemma runNext_goes_on (c : Router.Call) (rest : list Router.Call) (v : value) :
  goesOn c v -> rest <> [] ->
  Router.runNext false (c :: rest) v =
  Router.runNext false rest (returned (Router.returns (c v))).
Proof.
  intros [Hp Ha] Hne. destruct rest as [|c' rest]; [congruence |].
  cbn [Router.runNext]. rewrite Ha.
  destruct (Router.returns (c v)); [reflexivity | discriminate].
Qed.

Lemma runNext_along (init rest : list Router.Call) (v : value) :
  allGoOn init v -> rest <> [] ->
  Router.runNext false (init ++ rest) v =
  Router.runNext false rest (passedAlong init v).
Proof.
  revert v. induction init as [|c init IH]; intros v Hall Hne; [reflexivity |].
  destruct Hall as [Hc Hall]. cbn [app passedAlong].
  rewrite runNext_goes_on; [apply IH; assumption | exact Hc |].
  destruct init; [exact Hne | discriminate].
Qed.

(** X20: [runSequence] stays synchronous when it can: if every call but the
    last returns something that is not a promise and does not abort, the
    result is what the last call returns, passed the value handed along the
    calls before it; no promise is chained. *)
Theorem runSequence_stays_synchronous (init : list Router.Call) (final : Router.Call) :
  allGoOn init VUndefined ->
  Router.runSequence (init ++ [final]) =
  Router.Returned (Router.returns (final (passedAlong init VUndefined))).
Proof.
  intros Hall. unfold Router.runSequence.
  rewrite runNext_along by (auto; discriminate). reflexivity.
Qed.

Lemma runSequence_stays_synchronous_witness :
  Router.runSequence [Samples.returnsOne; Samples.returnsOne; Samples.returnsPromise]
  = Router.Returned (Router.PromiseRef 3).
Proof.
  apply (runSequence_stays_synchronous
           [Samples.returnsOne; Samples.returnsOne] Samples.returnsPromise).
  simpl. unfold goesOn. simpl. auto.
Defined.

(** X21: once a call has aborted, no later call plays a part: the result
    does not depend on the calls after it (as long as there is one).  It is
    the value the aborting call returned; or, if that is a promise, the
    promise chained on it, which resolves to whatever that promise resolves
    to. *)
Theorem runSequence_abort_stops_the_sequence
    (init : list Router.Call) (c : Router.Call) (rest rest' : list Router.Call) :
  allGoOn init VUndefined ->
  Router.aborts (c (passedAlong init VUndefined)) = true ->
  rest <> [] -> rest' <> [] ->
  Router.runSequence (init ++ c :: rest) = Router.runSequence (init ++ c :: rest')
  /\ match Router.returns (c (passedAlong init VUndefined)) with
     | Router.NotPromise v =>
         Router.runSequence (init ++ c :: rest) = Router.Returned (Router.NotPromise v)
     | Router.PromiseRef p =>
         exists onResolved,
           Router.runSequence (init ++ c :: rest) = Router.Chained p onResolved
           /\ forall v, onResolved v = Router.Returned (Router.NotPromise v)
     end.
Proof.
  intros Hall Ha Hne Hne'. unfold Router.runSequence.
  rewrite !runNext_along by (auto; discriminate).
  destruct rest as [|c1 rest]; [congruence |].
  destruct rest' as [|c1' rest']; [congruence |].
  cbn [Router.runNext]. rewrite Ha.
  destruct (Router.returns (c (passedAlong init VUndefined))) as [v | p].
  - split; reflexivity.
  - split; [reflexivity |]. eexists. split; [reflexivity |]. reflexivity.
Qed.

Lemma runSequence_abort_stops_the_sequence_witness :
  Router.runSequence
    [Samples.returnsOne; Samples.abortsAtOnce; Samples.returnsPromise; Samples.returnsOne]
  = Router.Returned (Router.NotPromise (VNumber 1)).
Proof.
  exact (proj2 (runSequence_abort_stops_the_sequence
                  [Samples.returnsOne] Samples.abortsAtOnce
                  [Samples.returnsPromise; Samples.returnsOne] [Samples.returnsOne]
                  (conj (conj eq_refl eq_refl) I) eq_refl
                  ltac:(discriminate) ltac:(discriminate))).
Defined.

(** X22: when the calls before it go on synchronously, the first call that
    returns a promise, if it is not the last call, makes [runSequence] return
    the promise chained on that one; when it resolves, the sequence goes on
    with the calls after it, passed the resolved value, and with the abort
    flag as that call left it. *)
Theorem runSequence_chains_on_the_first_promise
    (init : list Router.Call) (c : Router.Call) (rest : list Router.Call) (p : nat) :
  allGoOn init VUndefined ->
  Router.returns (c (passedAlong init VUndefined)) = Router.PromiseRef p ->
  rest <> [] ->
  exists onResolved,
    Router.runSequence (init ++ c :: rest) = Router.Chained p onResolved
    /\ forall v,
         onResolved v =
         Router.runNext (Router.aborts (c (passedAlong init VUndefined))) rest v.
Proof.
  intros Hall Hp Hne. unfold Router.runSequence.
  rewrite runNext_along by (auto; discriminate).
  destruct rest as [|c1 rest]; [congruence |].
  cbn [Router.runNext]. rewrite Hp.
  eexists. split; reflexivity.
Qed.

Lemma runSequence_chains_on_the_first_promise_witness :
  exists onResolved,
    Router.runSequence [Samples.returnsOne; Samples.returnsPromise; Samples.abortsAtOnce]
    = Router.Chained 3 onResolved
    /\ forall v, onResolved v = Router.Returned (Router.NotPromise v).
Proof.
  destruct (runSequence_chains_on_the_first_promise
              [Samples.returnsOne] Samples.returnsPromise [Samples.abortsAtOnce] 3
              (conj (conj eq_refl eq_refl) I) eq_refl ltac:(discriminate))
    as (k & E & Hk).
  exists k. split; [exact E |]. intros v. rewrite Hk. reflexivity.
Defined.
